(** * Ensemble sampler and partisan metrics: a shallow embedding

    The development follows the two programs of the repository:

    - [voting_district_metrics.py], the generator (chain controller,
      contiguity check, plan-record writer);
    - [helpers/analyze_ensemble_2024.py], the analyzer (record loader,
      tally aggregation, fairness metrics, output rows).

    Python [int] is [Z].  Python [float] is modelled by exact rationals
    [Q], with [None] standing for the not-a-number value returned by
    [float('nan')]; infinities and rounding are outside that model, and
    where a statement turns on rounding the additions are redone in
    binary64 ([Binary64]).  A Python [dict] is an association list in
    insertion order, which is the order in which the source iterates
    over it. *)

From Stdlib Require Import List ZArith QArith Qround Qminmax Bool Lia Lqa.
From Stdlib Require Import String Ascii DecimalString DecimalZ Relations.
From Stdlib Require Import Orders Mergesort Sorted Permutation.
From Stdlib Require Floats.
Import ListNotations.

Local Open Scope Q_scope.

(** ** Python dictionaries *)

Module PyDict.

Section Dict.
Context {V : Type}.

Definition dict := list (Z * V).

Fixpoint get (d : dict) (k : Z) : option V :=
  match d with
  | [] => None
  | (k', v) :: d' => if Z.eqb k k' then Some v else get d' k
  end.

Definition keys (d : dict) : list Z := map fst d.

Definition values (d : dict) : list V := map snd d.

(** [d[k] = f(d[k])] on a [defaultdict] whose factory yields [dflt]:
    an existing entry is updated in place, a new one goes last. *)
Fixpoint upd (dflt : V) (f : V -> V) (d : dict) (k : Z) : dict :=
  match d with
  | [] => [(k, f dflt)]
  | (k', v) :: d' =>
      if Z.eqb k k' then (k', f v) :: d' else (k', v) :: upd dflt f d' k
  end.

(** [d[k] = v]: an existing key keeps its place. *)
Fixpoint set (d : dict) (k : Z) (v : V) : dict :=
  match d with
  | [] => [(k, v)]
  | (k', v') :: d' =>
      if Z.eqb k k' then (k', v) :: d' else (k', v') :: set d' k v
  end.
End Dict.

Arguments dict V : clear implicits.

(** [defaultdict(float)]: a missing key reads as [0.0]. *)
Definition fget (d : dict Q) (k : Z) : Q :=
  match get d k with Some v => v | None => 0 end.

(** [d[k] += x] on a [defaultdict(float)]. *)
Definition fadd (d : dict Q) (k : Z) (x : Q) : dict Q :=
  upd 0 (fun v => v + x) d k.

End PyDict.

(** ** Floats *)

Definition Qlt_bool (x y : Q) : bool := negb (Qle_bool y x).

(** [int(x)] on a float: rounding toward zero. *)
Definition Qtruncate (x : Q) : Z :=
  if Qle_bool 0 x then Qfloor x else Qceiling x.

Definition Qsum (l : list Q) : Q := fold_right Qplus 0 l.

(** Equality of float results: both not-a-number, or equal numbers. *)
Definition feq (a b : option Q) : Prop :=
  match a, b with
  | Some x, Some y => x == y
  | None, None => True
  | _, _ => False
  end.

(** ** Exceptions and results *)

Module Py.

Inductive exn : Type :=
| ZeroDivisionError
| KeyError
| StopIteration
| ValueError
| TypeError
| AttributeError
| FileNotFoundError
| JSONDecodeError
| RecursionBound.

(** A call either returns a value or raises. *)
Inductive result (A : Type) : Type :=
| Ok (a : A)
| Raise (e : exn).
Arguments Ok {A} a.
Arguments Raise {A} e.

Definition bind {A B : Type} (r : result A) (k : A -> result B)
  : result B :=
  match r with
  | Ok a => k a
  | Raise e => Raise e
  end.

End Py.

(** ** Python values, their decimal spelling and their JSON text *)

Module Json.

#[local] Set Warnings "-register-all".

(** What [json.loads] can return and [json.dump] can take; [JNull] is
    Python's [None], [JFloat None] the not-a-number float. *)
Inductive value : Type :=
| JNull
| JBool (b : bool)
| JInt (z : Z)
| JFloat (x : option Q)
| JStr (s : string)
| JArr (l : list value)
| JObj (items : list (string * value)).

(** [str(n)] for an [int]. *)
Definition py_str (z : Z) : string :=
  DecimalString.NilZero.string_of_int (Z.to_int z).

(** [int(s)] for a [str]: [None] stands for [ValueError].  Only the
    spelling that [str] produces is read (optional minus sign, digits). *)
Definition py_int (s : string) : option Z :=
  option_map Z.of_int (DecimalString.NilZero.int_of_string s).

(** [d.get(key)]: the value, or [None] when the key is absent. *)
Fixpoint lookup (items : list (string * value)) (key : string)
  : option value :=
  match items with
  | [] => None
  | (k, v) :: items' =>
      if String.eqb key k then Some v else lookup items' key
  end.

Definition get (items : list (string * value)) (key : string) : value :=
  match lookup items key with Some v => v | None => JNull end.

Definition get_or (items : list (string * value)) (key : string)
    (dflt : value) : value :=
  match lookup items key with Some v => v | None => dflt end.

(** [d[k] = v] on the dictionary being built: a repeated key keeps its
    place and takes the later value. *)
Fixpoint set (items : list (string * value)) (k : string) (v : value)
  : list (string * value) :=
  match items with
  | [] => [(k, v)]
  | (k', v') :: items' =>
      if String.eqb k k' then (k', v) :: items'
      else (k', v') :: set items' k v
  end.

(** *** Writing: [json.dump(obj, fp, indent=2, ensure_ascii=False)] *)

Definition LF : string := String (ascii_of_nat 10) EmptyString.

Fixpoint spaces (n : nat) : string :=
  match n with
  | O => EmptyString
  | S n' => String " " (spaces n')
  end.

(** The line break and indentation that precede an item at [level]. *)
Definition newline_indent (level : nat) : string :=
  String.append LF (spaces (2 * level)).

Definition escape_char (c : ascii) : string :=
  let n := nat_of_ascii c in
  if Nat.eqb n 34 then String "\" (String c EmptyString)
  else if Nat.eqb n 92 then String "\" (String "\" EmptyString)
  else if Nat.eqb n 10 then String "\" (String "n" EmptyString)
  else if Nat.eqb n 13 then String "\" (String "r" EmptyString)
  else if Nat.eqb n 9 then String "\" (String "t" EmptyString)
  else String c EmptyString.

Fixpoint escape (s : string) : string :=
  match s with
  | EmptyString => EmptyString
  | String c s' => String.append (escape_char c) (escape s')
  end.

Definition quote (s : string) : string :=
  String (ascii_of_nat 34)
         (String.append (escape s) (String (ascii_of_nat 34) EmptyString)).

Section Dump.
(** [float.__repr__], whose digits are not modelled. *)
Variable float_repr : Q -> string.

Fixpoint dump (level : nat) (v : value) : string :=
  match v with
  | JNull => "null"
  | JBool true => "true"
  | JBool false => "false"
  | JInt z => py_str z
  | JFloat None => "NaN"
  | JFloat (Some q) => float_repr q
  | JStr s => quote s
  | JArr [] => "[]"
  | JArr (x :: xs) =>
      String.append "["
        (String.append (newline_indent (S level))
        (String.append (dump (S level) x)
        (String.append
           ((fix rest (l : list value) : string :=
               match l with
               | [] => EmptyString
               | y :: l' =>
                   String.append ","
                     (String.append (newline_indent (S level))
                     (String.append (dump (S level) y) (rest l')))
               end) xs)
        (String.append (newline_indent level) "]"))))
  | JObj [] => "{}"
  | JObj ((k, x) :: xs) =>
      String.append "{"
        (String.append (newline_indent (S level))
        (String.append (quote k)
        (String.append ": "
        (String.append (dump (S level) x)
        (String.append
           ((fix rest (l : list (string * value)) : string :=
               match l with
               | [] => EmptyString
               | (k', y) :: l' =>
                   String.append ","
                     (String.append (newline_indent (S level))
                     (String.append (quote k')
                     (String.append ": "
                     (String.append (dump (S level) y) (rest l')))))
               end) xs)
        (String.append (newline_indent level) "}"))))))
  end%string.
End Dump.

End Json.

(** *** Reading: [json.loads] *)

Module JsonParse.
Import Json.

Local Open Scope char_scope.

(** The outcome of a parse: a value with the unread rest, a syntax error
    ([json.JSONDecodeError]), or the recursion bound of this model hit. *)
Inductive presult (A : Type) : Type :=
| POk (a : A) (rest : list ascii)
| PSyntaxError
| PExhausted.
Arguments POk {A} a rest.
Arguments PSyntaxError {A}.
Arguments PExhausted {A}.

Definition is_ws (c : ascii) : bool :=
  let n := nat_of_ascii c in
  Nat.eqb n 32 || Nat.eqb n 9 || Nat.eqb n 10 || Nat.eqb n 13.

Fixpoint skip_ws (cs : list ascii) : list ascii :=
  match cs with
  | c :: cs' => if is_ws c then skip_ws cs' else cs
  | [] => []
  end.

Definition is_digit (c : ascii) : bool :=
  let n := nat_of_ascii c in Nat.leb 48 n && Nat.leb n 57.

Definition digit_val (c : ascii) : Z := Z.of_nat (nat_of_ascii c - 48).

(** Reads a maximal run of digits: its value, its length, the rest. *)
Fixpoint digits (cs : list ascii) (acc : Z) (len : nat)
  : Z * nat * list ascii :=
  match cs with
  | c :: cs' =>
      if is_digit c then digits cs' (10 * acc + digit_val c)%Z (S len)
      else (acc, len, cs)
  | [] => (acc, len, [])
  end.

(** The body of a string, after its opening quote. *)
Fixpoint parse_string (cs : list ascii) : presult string :=
  match cs with
  | [] => PSyntaxError
  | c :: cs' =>
      if Ascii.eqb c (ascii_of_nat 34) then POk EmptyString cs'
      else if Ascii.eqb c "\" then
        match cs' with
        | e :: cs'' =>
            let unescaped :=
              if Ascii.eqb e "n" then Some (ascii_of_nat 10)
              else if Ascii.eqb e "r" then Some (ascii_of_nat 13)
              else if Ascii.eqb e "t" then Some (ascii_of_nat 9)
              else if Ascii.eqb e "b" then Some (ascii_of_nat 8)
              else if Ascii.eqb e "f" then Some (ascii_of_nat 12)
              else if Ascii.eqb e "/" then Some "/"
              else if Ascii.eqb e "\" then Some "\"
              else if Ascii.eqb e (ascii_of_nat 34)
                   then Some (ascii_of_nat 34)
              else None in
            match unescaped with
            | Some u =>
                match parse_string cs'' with
                | POk s rest => POk (String u s) rest
                | err => err
                end
            | None => PSyntaxError
            end
        | [] => PSyntaxError
        end
      else if Nat.ltb (nat_of_ascii c) 32 then PSyntaxError
      else
        match parse_string cs' with
        | POk s rest => POk (String c s) rest
        | err => err
        end
  end.

(** A number: integer part, optional fraction, optional exponent. *)
Definition parse_number (cs : list ascii) : presult value :=
  let '(neg, cs1) :=
    match cs with
    | "-" :: r => (true, r)
    | _ => (false, cs)
    end in
  let int_part :=
    match cs1 with
    | "0" :: r => Some (0%Z, r)
    | c :: _ =>
        if is_digit c then
          let '(n, _, r) := digits cs1 0%Z O in Some (n, r)
        else None
    | [] => None
    end in
  match int_part with
  | None => PSyntaxError
  | Some (n, cs2) =>
      let '(frac, cs3) :=
        match cs2 with
        | "." :: r =>
            match digits r 0%Z O with
            | (_, O, _) => (None, cs2)
            | (f, len, r') => (Some (f, len), r')
            end
        | _ => (None, cs2)
        end in
      let exp_of (r : list ascii) (sign : Z) :=
        match digits r 0%Z O with
        | (_, O, _) => None
        | (e, _, r') => Some ((sign * e)%Z, r')
        end in
      let '(exp, cs4) :=
        match cs3 with
        | c :: r =>
            if Ascii.eqb c "e" || Ascii.eqb c "E" then
              match
                match r with
                | "-" :: r' => exp_of r' (-1)%Z
                | "+" :: r' => exp_of r' 1%Z
                | _ => exp_of r 1%Z
                end
              with
              | Some (e, r') => (Some e, r')
              | None => (None, cs3)
              end
            else (None, cs3)
        | [] => (None, cs3)
        end in
      let sgn (z : Z) := if neg then (- z)%Z else z in
      match frac, exp with
      | None, None => POk (JInt (sgn n)) cs4
      | _, _ =>
          let '(f, len) :=
            match frac with Some fl => fl | None => (0%Z, O) end in
          let e := match exp with Some e => e | None => 0%Z end in
          let mantissa :=
            (inject_Z n + inject_Z f / inject_Z (10 ^ Z.of_nat len)%Z)%Q in
          let scale := Qpower (inject_Z 10) e in
          POk (JFloat (Some (inject_Z (sgn 1%Z) * mantissa * scale)%Q)) cs4
      end
  end.

Fixpoint strip_prefix (p cs : list ascii) : option (list ascii) :=
  match p, cs with
  | [], _ => Some cs
  | a :: p', c :: cs' => if Ascii.eqb a c then strip_prefix p' cs' else None
  | _ :: _, [] => None
  end.

(** [true], [false], [null], [NaN] and numbers.  The infinities that
    Python also reads have no counterpart in [Q] and are refused. *)
Definition parse_scalar (cs : list ascii) : presult value :=
  match strip_prefix (list_ascii_of_string "true") cs with
  | Some r => POk (JBool true) r
  | None =>
  match strip_prefix (list_ascii_of_string "false") cs with
  | Some r => POk (JBool false) r
  | None =>
  match strip_prefix (list_ascii_of_string "null") cs with
  | Some r => POk JNull r
  | None =>
  match strip_prefix (list_ascii_of_string "NaN") cs with
  | Some r => POk (JFloat None) r
  | None => parse_number cs
  end end end end.

Fixpoint parse_value (fuel : nat) (cs : list ascii) : presult value :=
  match fuel with
  | O => PExhausted
  | S fuel' =>
      match cs with
      | "{" :: r =>
          match skip_ws r with
          | "}" :: r' => POk (JObj []) r'
          | r' =>
              match parse_members fuel' r' [] with
              | POk m rest => POk (JObj m) rest
              | PSyntaxError => PSyntaxError
              | PExhausted => PExhausted
              end
          end
      | "[" :: r =>
          match skip_ws r with
          | "]" :: r' => POk (JArr []) r'
          | r' =>
              match parse_elements fuel' r' [] with
              | POk l rest => POk (JArr l) rest
              | PSyntaxError => PSyntaxError
              | PExhausted => PExhausted
              end
          end
      | c :: r =>
          if Ascii.eqb c (ascii_of_nat 34) then
            match parse_string r with
            | POk s rest => POk (JStr s) rest
            | PSyntaxError => PSyntaxError
            | PExhausted => PExhausted
            end
          else parse_scalar cs
      | [] => PSyntaxError
      end
  end

with parse_elements (fuel : nat) (cs : list ascii) (acc : list value)
  : presult (list value) :=
  match fuel with
  | O => PExhausted
  | S fuel' =>
      match parse_value fuel' cs with
      | POk v rest =>
          match skip_ws rest with
          | "," :: r => parse_elements fuel' (skip_ws r) (acc ++ [v])
          | "]" :: r => POk (acc ++ [v]) r
          | _ => PSyntaxError
          end
      | PSyntaxError => PSyntaxError
      | PExhausted => PExhausted
      end
  end

with parse_members (fuel : nat) (cs : list ascii)
    (acc : list (string * value)) : presult (list (string * value)) :=
  match fuel with
  | O => PExhausted
  | S fuel' =>
      match cs with
      | c :: r =>
          if Ascii.eqb c (ascii_of_nat 34) then
            match parse_string r with
            | POk k r1 =>
                match skip_ws r1 with
                | ":" :: r2 =>
                    match parse_value fuel' (skip_ws r2) with
                    | POk v r3 =>
                        match skip_ws r3 with
                        | "," :: r4 =>
                            parse_members fuel' (skip_ws r4) (Json.set acc k v)
                        | "}" :: r4 => POk (Json.set acc k v) r4
                        | _ => PSyntaxError
                        end
                    | PSyntaxError => PSyntaxError
                    | PExhausted => PExhausted
                    end
                | _ => PSyntaxError
                end
            | PSyntaxError => PSyntaxError
            | PExhausted => PExhausted
            end
          else PSyntaxError
      | [] => PSyntaxError
      end
  end.

(** [json.loads(s)]: one value, blanks allowed around it, nothing after. *)
Definition loads (s : string) : presult value :=
  let cs := list_ascii_of_string s in
  match parse_value (2 * List.length cs + 2) (skip_ws cs) with
  | POk v rest =>
      match skip_ws rest with
      | [] => POk v []
      | _ :: _ => PSyntaxError
      end
  | err => err
  end.

End JsonParse.

(** ** Graphs as both programs load them ([Graph.from_json]) *)

Module Gerry.
Import PyDict.

(** A node attribute.  [NonNumeric] stands for any value on which
    [float()] raises [TypeError] or [ValueError]; a numeric string is
    identified with the number it parses to. *)
Inductive attr_value : Type :=
| Num (q : Q)
| NoneVal
| NonNumeric.

Definition attrs := list (string * attr_value).

Fixpoint attr_get (a : attrs) (key : string) : option attr_value :=
  match a with
  | [] => None
  | (k, v) :: a' => if String.eqb key k then Some v else attr_get a' key
  end.

(** Node identifiers with their attribute records, and undirected edges. *)
Record Graph : Type := mkGraph {
  nodes : dict attrs;
  edges : list (Z * Z)
}.

End Gerry.

(** ** The analyzer: [helpers/analyze_ensemble_2024.py] *)

Module Analyzer.
Import PyDict Gerry.

Definition DEM_COL : string := "PREDEM24".
Definition REP_COL : string := "PREREP24".

(** [attr.get(key, 0.0) or 0.0] followed by the guarded [float()]. *)
Definition vote_of (a : attrs) (key : string) : Q :=
  match attr_get a key with
  | None => 0
  | Some NoneVal => 0
  | Some (Num q) => q
  | Some NonNumeric => 0
  end.

Record tallies : Type := mkTallies {
  dem_by_dist : dict Q;
  rep_by_dist : dict Q;
  two_party_by_dist : dict Q
}.

Definition aggregate_step (graph : Graph) (dem_key rep_key : string)
    (t : tallies) (item : Z * Z) : tallies :=
  let '(node_id, dist) := item in
  match get (nodes graph) node_id with
  | None => t
  | Some attr =>
      let dem := vote_of attr dem_key in
      let rep := vote_of attr rep_key in
      let two := dem + rep in
      mkTallies (fadd (dem_by_dist t) dist dem)
                (fadd (rep_by_dist t) dist rep)
                (fadd (two_party_by_dist t) dist two)
  end.

Definition aggregate_votes_by_district (graph : Graph)
    (assignment : dict Z) (dem_key rep_key : string) : tallies :=
  fold_left (aggregate_step graph dem_key rep_key) assignment
            (mkTallies [] [] []).

(** The sum of one vote column over the assigned nodes, node by node in
    assignment order; a node the graph does not hold has no attribute. *)
Definition assigned_votes (graph : Graph) (assignment : dict Z)
    (key : string) : list Q :=
  map (fun item : Z * Z =>
         match get (nodes graph) (fst item) with
         | Some attr => vote_of attr key
         | None => 0
         end) assignment.

(** *** Efficiency gap *)

Record eg_acc : Type := mkEgAcc {
  wasted_dem_total : Q;
  wasted_rep_total : Q;
  total_two_party : Q
}.

Definition eg_step (dem_by_dist rep_by_dist : dict Q)
    (acc : eg_acc) (dist : Z) : eg_acc :=
  let dem := fget dem_by_dist dist in
  let rep := fget rep_by_dist dist in
  let total := dem + rep in
  if Qle_bool total 0 then acc
  else
    let threshold := (Qfloor (total / 2) + 1)%Z in
    let '(dem_wasted, rep_wasted) :=
      if Qlt_bool rep dem then (dem - inject_Z threshold, rep)
      else if Qlt_bool dem rep then (dem, rep - inject_Z threshold)
      else (dem / 2, rep / 2) in
    mkEgAcc (wasted_dem_total acc + Qmax dem_wasted 0)
            (wasted_rep_total acc + Qmax rep_wasted 0)
            (total_two_party acc + total).

Definition compute_efficiency_gap (dem_by_dist rep_by_dist : dict Q)
  : option Q :=
  let acc := fold_left (eg_step dem_by_dist rep_by_dist)
                       (keys dem_by_dist) (mkEgAcc 0 0 0) in
  if Qeq_bool (total_two_party acc) 0 then None
  else Some ((wasted_dem_total acc - wasted_rep_total acc)
             / total_two_party acc).

(** *** Partisan bias *)

Record pb_acc : Type := mkPbAcc {
  shares : list Q;
  total_dem : Q;
  total_rep : Q
}.

Definition pb_step (dem_by_dist rep_by_dist : dict Q)
    (acc : pb_acc) (dist : Z) : pb_acc :=
  let dem := fget dem_by_dist dist in
  let rep := fget rep_by_dist dist in
  let total := dem + rep in
  if Qle_bool total 0 then acc
  else mkPbAcc (shares acc ++ [dem / total])
               (total_dem acc + dem) (total_rep acc + rep).

Definition clamp01 (s : Q) : Q := Qmin (Qmax s 0) 1.

Definition compute_partisan_bias (dem_by_dist rep_by_dist : dict Q)
  : option Q :=
  let acc := fold_left (pb_step dem_by_dist rep_by_dist)
                       (keys dem_by_dist) (mkPbAcc [] 0 0) in
  match shares acc with
  | [] => None
  | _ :: _ =>
      if Qeq_bool (total_dem acc + total_rep acc) 0 then None
      else
        let statewide_dem_share :=
          total_dem acc / (total_dem acc + total_rep acc) in
        let shift := (1 # 2) - statewide_dem_share in
        let swung_shares := map (fun s => clamp01 (s + shift)) (shares acc) in
        let num_dists := List.length swung_shares in
        let dem_seats_at_50 :=
          List.length (filter (fun s => Qlt_bool (1 # 2) s) swung_shares) in
        let seat_share_dem_50 :=
          inject_Z (Z.of_nat dem_seats_at_50)
          / inject_Z (Z.of_nat num_dists) in
        Some (seat_share_dem_50 - (1 # 2))
  end.

(** *** Loading the plan store *)

Definition is_blank (c : ascii) : bool :=
  let n := nat_of_ascii c in
  Nat.eqb n 32 || (Nat.leb 9 n && Nat.leb n 13)
  || (Nat.leb 28 n && Nat.leb n 31).

(** The lines of a text, without their line feeds. *)
Fixpoint lines_from (cur : string -> string) (s : string) : list string :=
  match s with
  | EmptyString => [cur EmptyString]
  | String c s' =>
      if Nat.eqb (nat_of_ascii c) 10
      then cur EmptyString :: lines_from (fun x => x) s'
      else lines_from (fun x => cur (String c x)) s'
  end.

Definition lines (s : string) : list string := lines_from (fun x => x) s.

Fixpoint lstrip (s : string) : string :=
  match s with
  | String c s' => if is_blank c then lstrip s' else s
  | EmptyString => EmptyString
  end.

Fixpoint rstrip (s : string) : string :=
  match s with
  | EmptyString => EmptyString
  | String c s' =>
      match rstrip s' with
      | EmptyString => if is_blank c then EmptyString
                       else String c EmptyString
      | r => String c r
      end
  end.

(** [line.strip()] *)
Definition strip (s : string) : string := rstrip (lstrip s).

Fixpoint load_lines (ls : list string) (plans : list Json.value)
  : Py.result (list Json.value) :=
  match ls with
  | [] => Py.Ok plans
  | line :: ls' =>
      match strip line with
      | EmptyString => load_lines ls' plans
      | text =>
          match JsonParse.loads text with
          | JsonParse.POk v _ => load_lines ls' (plans ++ [v])
          | JsonParse.PSyntaxError => Py.Raise Py.JSONDecodeError
          | JsonParse.PExhausted => Py.Raise Py.RecursionBound
          end
      end
  end.

(** [load_ensemble_ndjson] on the store as found ([None]: no file). *)
Definition load_ensemble_ndjson (store : option string)
  : Py.result (list Json.value) :=
  match store with
  | None => Py.Raise Py.FileNotFoundError
  | Some text => load_lines (lines text) []
  end.

(** *** One output row: the body of the loop over plans in [main] *)

(** [int(x)] on a decoded JSON value. *)
Definition int_of_value (v : Json.value) : Py.result Z :=
  match v with
  | Json.JInt z => Py.Ok z
  | Json.JBool b => Py.Ok (if b then 1%Z else 0%Z)
  | Json.JFloat (Some q) => Py.Ok (Qtruncate q)
  | Json.JFloat None => Py.Raise Py.ValueError
  | Json.JStr s =>
      match Json.py_int s with
      | Some z => Py.Ok z
      | None => Py.Raise Py.ValueError
      end
  | _ => Py.Raise Py.TypeError
  end.

(** [{int(node): int(dist) for node, dist in assignment_raw.items()}] *)
Fixpoint int_assignment (items : list (string * Json.value)) (acc : dict Z)
  : Py.result (dict Z) :=
  match items with
  | [] => Py.Ok acc
  | (node, dist) :: items' =>
      match Json.py_int node with
      | None => Py.Raise Py.ValueError
      | Some n =>
          Py.bind (int_of_value dist) (fun d =>
            int_assignment items' (set acc n d))
      end
  end.

(** Items such as [assignment_dict] writes: a decimal node identifier
    mapped to an integer label. *)
Definition readable (items : list (string * Json.value)) : Prop :=
  Forall (fun kv => exists n d, fst kv = Json.py_str n /\
                                snd kv = Json.JInt d) items.

Record seat_counts : Type := mkSeats {
  dem_seats : Z;
  gop_seats : Z;
  ties : Z
}.

Definition seat_step (dem_by_dist rep_by_dist : dict Q)
    (c : seat_counts) (dist : Z) : seat_counts :=
  let dem := fget dem_by_dist dist in
  let rep := fget rep_by_dist dist in
  if Qlt_bool rep dem then mkSeats (dem_seats c + 1) (gop_seats c) (ties c)
  else if Qlt_bool dem rep
  then mkSeats (dem_seats c) (gop_seats c + 1) (ties c)
  else mkSeats (dem_seats c) (gop_seats c) (ties c + 1).

Definition count_seats (dem_by_dist rep_by_dist : dict Q) : seat_counts :=
  fold_left (seat_step dem_by_dist rep_by_dist) (keys dem_by_dist)
            (mkSeats 0 0 0).

(** The columns of a row that carry the seat counts and the efficiency
    gap, as generated and as recomputed, with the plan identification.
    The remaining columns (mean-median, declination, competitiveness,
    statewide share) are computed independently of these. *)
Record row : Type := mkRow {
  plan_index : Json.value;
  num_districts : Json.value;
  rep_seats_generated : Json.value;
  dem_seats_generated : Json.value;
  gop_seats_recomputed : Z;
  dem_seats_recomputed : Z;
  row_ties : Z;
  efficiency_gap_generated : Json.value;
  efficiency_gap_recomputed : option Q;
  partisan_bias : option Q
}.

Definition analyze_plan (graph : Graph) (plan : Json.value)
  : Py.result row :=
  match plan with
  | Json.JObj items =>
      let idx := Json.get items "plan_index" in
      let num_districts := Json.get items "num_districts" in
      let eg_from_gen := Json.get items "efficiency_gap" in
      let rep_seats_generated := Json.get items "rep_seats_won" in
      let dem_seats_generated := Json.get items "dem_seats_won" in
      match Json.get_or items "assignment" (Json.JObj []) with
      | Json.JObj assignment_raw =>
          Py.bind (int_assignment assignment_raw []) (fun assignment =>
            let t := aggregate_votes_by_district
                       graph assignment DEM_COL REP_COL in
            let c := count_seats (dem_by_dist t) (rep_by_dist t) in
            let eg := compute_efficiency_gap (dem_by_dist t) (rep_by_dist t) in
            let pbias :=
              compute_partisan_bias (dem_by_dist t) (rep_by_dist t) in
            Py.Ok (mkRow idx num_districts rep_seats_generated
                         dem_seats_generated (gop_seats c) (dem_seats c)
                         (ties c) eg_from_gen eg pbias))
      | _ => Py.Raise Py.AttributeError
      end
  | _ => Py.Raise Py.AttributeError
  end.

End Analyzer.


(** ** The generator: [voting_district_metrics.py] *)

Module Generator.
Import PyDict Gerry.

(** *** Field detection *)

Definition has_key (a : attrs) (key : string) : bool :=
  match attr_get a key with Some _ => true | None => false end.

Definition pop_candidates : list string :=
  ["TOT_POP"; "PERSONS"; "PERSONS18"]%string.

Definition dem_rep_candidates : list (string * string) :=
  [("PRES12D", "PRES12R"); ("PREDEM24", "PREREP24");
   ("USHDEM24", "USHREP24"); ("WSADEM24", "WSAREP24");
   ("WSSDEM24", "WSSREP24")]%string.

Definition plan_candidates : list string :=
  ["538DEM_PL"; "538GOP_PL"; "538CPCT__1"; "CONG_DIST"; "SLDL_DIST";
   "SLDU_DIST"]%string.

(** The globals [POP_KEY], [DEM_KEY], [REP_KEY] and [PLANS]. *)
Record fields : Type := mkFields {
  pop_key : string;
  dem_key : string;
  rep_key : string;
  plans : list string
}.

Definition detect_fields (graph : Graph) : Py.result fields :=
  match nodes graph with
  | [] => Py.Raise Py.StopIteration
  | (_, a) :: _ =>
      match find (has_key a) pop_candidates with
      | None => Py.Raise Py.KeyError
      | Some pop_col =>
          match find (fun dr => has_key a (fst dr) && has_key a (snd dr))
                     dem_rep_candidates with
          | None => Py.Raise Py.KeyError
          | Some (dem_col, rep_col) =>
              match filter (has_key a) plan_candidates with
              | [] => Py.Raise Py.KeyError
              | ps => Py.Ok (mkFields pop_col dem_col rep_col ps)
              end
          end
      end
  end.

(** *** Partitions and their updaters *)

(** A plan over a graph: node identifier to district label. *)
Record Partition : Type := mkPartition {
  graph : Graph;
  assignment : dict Z
}.

(** [partition.parts]: the members of every district, districts in order
    of first appearance. *)
Definition parts (p : Partition) : dict (list Z) :=
  fold_left (fun acc (item : Z * Z) =>
               upd [] (fun ns => ns ++ [fst item]) acc (snd item))
            (assignment p) [].

(** [graph.nodes[n][key]] on a preprocessed graph, where every tallied
    attribute is a number; anything else reads as zero here. *)
Definition node_value (g : Graph) (key : string) (n : Z) : Q :=
  match get (nodes g) n with
  | Some a =>
      match attr_get a key with
      | Some (Num q) => q
      | _ => 0
      end
  | None => 0
  end.

(** The [Tally(key)] updater: per district, the sum over its members. *)
Definition Tally (key : string) (p : Partition) : dict Q :=
  map (fun part : Z * list Z =>
         (fst part, Qsum (map (node_value (graph p) key) (snd part))))
      (parts p).

Section Updaters.
Variable F : fields.

Definition seats_gop_by_tally (p : Partition) : Z :=
  let D := Tally (dem_key F) p in
  let R := Tally (rep_key F) p in
  fold_left Z.add
    (map (fun d => if Qlt_bool (fget D d) (fget R d) then 1%Z else 0%Z)
         (keys (parts p)))
    0%Z.

(** The library's [wasted_votes(party1_votes, party2_votes)]. *)
Definition wasted_votes (party1_votes party2_votes : Q) : Q * Q :=
  let total_votes := party1_votes + party2_votes in
  if Qlt_bool party2_votes party1_votes
  then (party1_votes - total_votes / 2, party2_votes)
  else (party1_votes, party2_votes - total_votes / 2).

(** The library's [metrics.efficiency_gap] on the ["ELECT"] election
    (parties [Dem], [Rep] in that order): the sum over districts of the
    second party's waste minus the first party's, over all votes cast.
    [ZeroDivisionError] when no vote was cast. *)
Definition efficiency_gap (p : Partition) : Py.result Q :=
  let party1 := values (Tally (dem_key F) p) in
  let party2 := values (Tally (rep_key F) p) in
  let wasted_votes_by_part :=
    map (fun c => wasted_votes (fst c) (snd c)) (combine party1 party2) in
  let total_votes := Qsum party1 + Qsum party2 in
  let numerator :=
    Qsum (map (fun w => snd w - fst w) wasted_votes_by_part) in
  if Qeq_bool total_votes 0 then Py.Raise Py.ZeroDivisionError
  else Py.Ok (numerator / total_votes).
End Updaters.

(** What [preprocess_graph] leaves behind: on every node both tallied
    vote attributes are whole numbers. *)
Definition preprocessed (F : fields) (g : Graph) : Prop :=
  forall n a, In (n, a) (nodes g) ->
    (exists z, attr_get a (dem_key F) = Some (Num (inject_Z z))) /\
    (exists z, attr_get a (rep_key F) = Some (Num (inject_Z z))).

(** The plan assigns nodes of the graph only. *)
Definition on_graph (g : Graph) (a : dict Z) : Prop :=
  forall item, In item a -> get (nodes g) (fst item) <> None.

(** Per-district member lists [ps] and per-district sums [d] that go
    together: same districts in the same order, each sum that of the
    members' values. *)
Definition tallied (g : Graph) (key : string)
    (ps : dict (list Z)) (d : dict Q) : Prop :=
  Forall2 (fun (part : Z * list Z) (entry : Z * Q) =>
             fst part = fst entry /\
             snd entry == Qsum (map (node_value g key) (snd part)))
          ps d.

(** The efficiency gap is defined on every state of a chain. *)
Definition defined_on (F : fields) (chain : list Partition) : Prop :=
  forall st, In st chain -> exists eg, efficiency_gap F st = Py.Ok eg.

(** *** Contiguity *)

Definition mem (x : Z) (l : list Z) : bool := existsb (Z.eqb x) l.

(** An undirected edge between [u] and [v]. *)
Definition adjacent (g : Graph) (u v : Z) : bool :=
  existsb (fun e : Z * Z =>
             (Z.eqb (fst e) u && Z.eqb (snd e) v)
             || (Z.eqb (fst e) v && Z.eqb (snd e) u))
          (edges g).

(** The node set of [G.subgraph(nodes)]: the graph's nodes among [ns]. *)
Definition subgraph (g : Graph) (ns : list Z) : list Z :=
  nodup Z.eq_dec (filter (fun n => mem n ns) (keys (nodes g))).

(** Breadth-first search by levels inside the node set [sub]: the next
    level is every unseen node of [sub] adjacent to the current level. *)
Fixpoint plain_bfs (g : Graph) (sub : list Z) (fuel : nat)
    (seen thislevel : list Z) : list Z :=
  match fuel with
  | O => seen
  | S fuel' =>
      match thislevel with
      | [] => seen
      | _ :: _ =>
          let nextlevel :=
            filter (fun w => negb (mem w seen)
                             && existsb (fun v => adjacent g v w) thislevel)
                   sub in
          plain_bfs g sub fuel' (seen ++ nextlevel) nextlevel
      end
  end.

(** [nx.is_connected] on a non-empty subgraph: the search from an
    arbitrary node reaches as many nodes as there are. *)
Definition is_connected (g : Graph) (sub : list Z) : bool :=
  match sub with
  | [] => false
  | source :: _ =>
      Nat.eqb (List.length (plain_bfs g sub (S (List.length sub))
                                      [source] [source]))
              (List.length sub)
  end.

Definition is_partition_contiguous (p : Partition) : bool :=
  forallb (fun nodes_ : list Z =>
             let sub := subgraph (graph p) nodes_ in
             negb (Nat.eqb (List.length sub) 0 || negb (is_connected (graph p) sub)))
          (values (parts p)).

(** *** Plan records *)

Definition assignment_dict (p : Partition) : Json.value :=
  Json.JObj
    (fold_left (fun acc (item : Z * Z) =>
                  Json.set acc (Json.py_str (fst item)) (Json.JInt (snd item)))
               (assignment p) []).

(** The keyword arguments of [stream_plans_ndjson]. *)
Record params : Type := mkParams {
  samples : Z;
  steps_between : Z;
  epsilon : Q;
  seed : Z;
  burn_in : Z;
  thin : Z
}.

Definition plan_record (F : fields) (P : params) (index : Z)
    (contig : bool) (gop : Z) (eg : Q) (state : Partition) : Json.value :=
  Json.JObj
    [("meta",
      Json.JObj
        [("source_graph", Json.JStr "pretty_print.json");
         ("epsilon", Json.JFloat (Some (epsilon P)));
         ("seed", Json.JInt (seed P));
         ("steps_between", Json.JInt (steps_between P));
         ("burn_in", Json.JInt (burn_in P));
         ("thin", Json.JInt (thin P));
         ("pop_key", Json.JStr (pop_key F));
         ("dem_key", Json.JStr (dem_key F));
         ("rep_key", Json.JStr (rep_key F))]);
     ("index", Json.JInt index);
     ("contiguous", Json.JBool contig);
     ("gop_seats", Json.JInt gop);
     ("efficiency_gap", Json.JFloat (Some eg));
     ("assignment", assignment_dict state)]%string.

(** *** The streaming saver *)

(** What the run prints. *)
Inductive printed : Type :=
| StartLine (districts : nat)
| SavedLine (index gop : Z) (eg : Q)
| SummaryLine (saved : Z).

Record loop_state : Type := mkLoop {
  saved : Z;
  saved_states_seen : Z;
  file : string;
  stdout : list printed;
  iterations : nat
}.

Inductive control : Type :=
| Continue (s : loop_state)
| Break (s : loop_state)
| Abort (e : Py.exn) (s : loop_state).

Definition state_of (c : control) : loop_state :=
  match c with
  | Continue s | Break s | Abort _ s => s
  end.

(** The store is empty until a plan is saved and from then on starts with
    an opening brace alone on its line. *)
Definition store_shape (s : loop_state) : Prop :=
  (saved s = 0%Z /\ file s = EmptyString) \/
  ((0 < saved s)%Z /\
   exists rest, file s = String "{" (String (ascii_of_nat 10) rest)).

Section Stream.
Variable float_repr : Q -> string.
Variable F : fields.
Variable P : params.

(** The text one kept plan adds to the store. *)
Definition record_text (index : Z) (contig : bool) (gop : Z) (eg : Q)
    (state : Partition) : string :=
  String.append
    (Json.dump float_repr 0 (plan_record F P index contig gop eg state))
    (String.append Json.LF Json.LF).

(** One iteration of [for step, state in enumerate(chain)]. *)
Definition loop_body (step : Z) (state : Partition) (s0 : loop_state)
  : control :=
  let s := mkLoop (saved s0) (saved_states_seen s0) (file s0) (stdout s0)
                  (S (iterations s0)) in
  if Z.eqb (steps_between P + 1) 0 then Abort Py.ZeroDivisionError s
  else if negb (Z.eqb (step mod (steps_between P + 1)) (steps_between P))
  then Continue s
  else
    let seen := (saved_states_seen s + 1)%Z in
    let s1 := mkLoop (saved s) seen (file s) (stdout s) (iterations s) in
    if Z.leb seen (burn_in P) then Continue s1
    else if Z.eqb (thin P) 0 then Abort Py.ZeroDivisionError s1
    else if negb (Z.eqb ((seen - burn_in P - 1) mod thin P) 0)
    then Continue s1
    else
      let contig := is_partition_contiguous state in
      let gop := seats_gop_by_tally F state in
      match efficiency_gap F state with
      | Py.Raise e => Abort e s1
      | Py.Ok eg =>
          let s2 :=
            mkLoop (saved s1 + 1)%Z seen
                   (String.append (file s1)
                      (record_text (saved s1 + 1)%Z contig gop eg state))
                   (stdout s1 ++ [SavedLine (saved s1 + 1)%Z gop eg])
                   (iterations s1) in
          if Z.leb (samples P) (saved s2) then Break s2 else Continue s2
      end.

Fixpoint run_loop (step : Z) (chain : list Partition) (s : loop_state)
  : control :=
  match chain with
  | [] => Continue s
  | state :: chain' =>
      match loop_body step state s with
      | Continue s' => run_loop (step + 1)%Z chain' s'
      | stop => stop
      end
  end.

(** The value of the call together with its effects on the store and on
    standard output. *)
Record run : Type := mkRun {
  outcome : Py.result Json.value;
  store : option string;
  output : list printed;
  loop_iterations : nat;
  plans_saved : Z
}.

Definition total_steps : Z :=
  ((samples P + burn_in P) * (steps_between P + 1) * thin P + 100)%Z.

(** The states the chain yields: its initial state, then one state per
    step of the black-box walk while the counter is below
    [total_steps]. *)
Definition chain_states (walk : nat -> Partition) : list Partition :=
  map walk (seq 0 (Z.to_nat (Z.max 1 total_steps))).

(** [stream_plans_ndjson], from its starting plan [walk 0] and the store
    as found ([None]: no such file). *)
Definition stream_plans_ndjson (walk : nat -> Partition)
    (store0 : option string) : run :=
  let initial := walk O in
  let k := List.length (parts initial) in
  if Nat.eqb k 0 then
    mkRun (Py.Raise Py.ZeroDivisionError) store0 [] O 0%Z
  else
    let s0 := mkLoop 0%Z 0%Z EmptyString [StartLine k] O in
    match run_loop 0%Z (chain_states walk) s0 with
    | Abort e s =>
        mkRun (Py.Raise e) (Some (file s)) (stdout s) (iterations s)
              (saved s)
    | Continue s | Break s =>
        mkRun (Py.Ok Json.JNull) (Some (file s))
              (stdout s ++ [SummaryLine (saved s)]) (iterations s)
              (saved s)
    end.
End Stream.

End Generator.

(** ** The sampler call with its set-up *)

Module Call.
Import Generator.

(** What the lines of [stream_plans_ndjson] before the loop come to.
    They choose the starting plan and build the partition, divide the
    population by the number of districts, print the start line, build
    the proposal, the population constraint and the chain, and only then
    open the output file.  The library calls are not modelled; each may
    raise, so their outcome is given: no partition, a partition but no
    chain, or a chain, whose first state is the partition. *)
Inductive setup : Type :=
| NoPartition (e : Py.exn)
| NoChain (initial : Partition) (e : Py.exn)
| Ready (walk : nat -> Partition).

Section Call.
Variable float_repr : Q -> string.
Variable F : fields.
Variable P : params.

(** [stream_plans_ndjson] from the outcome of its set-up and the store
    as found.  An exception of the set-up leaves the store as it was:
    the file is opened after the chain is built. *)
Definition stream_plans_ndjson (s : setup) (store0 : option string)
  : run :=
  match s with
  | NoPartition e => mkRun (Py.Raise e) store0 [] O 0%Z
  | NoChain initial e =>
      let k := List.length (parts initial) in
      if Nat.eqb k 0 then
        mkRun (Py.Raise Py.ZeroDivisionError) store0 [] O 0%Z
      else mkRun (Py.Raise e) store0 [StartLine k] O 0%Z
  | Ready walk => Generator.stream_plans_ndjson float_repr F P walk store0
  end.
End Call.

End Call.

(** ** Tally aggregation: whole counts, and the additions in binary64 *)

Module SpecTally.

(** The sum of a whole-number vote column, [votes n] on node [n], over
    the nodes a plan assigns. *)
Definition attribute_total (votes : Z -> Z) (assignment : PyDict.dict Z)
  : Z :=
  fold_right Z.add 0%Z (map votes (PyDict.keys assignment)).

End SpecTally.

Module Binary64.
Import PyDict.
Import PrimFloat.

(** The float of a decimal literal is written out in hexadecimal:
    [0.1], [0.4] and [0.5]. *)
Definition tenth : PrimFloat.float := (0x1.999999999999ap-4)%float.
Definition four_tenths : PrimFloat.float := (0x1.999999999999ap-2)%float.
Definition half : PrimFloat.float := (0x1p-1)%float.

(** Numeric attributes, as floats. *)
Definition attrs := list (string * PrimFloat.float).

Fixpoint attr_get (a : attrs) (key : string) : option PrimFloat.float :=
  match a with
  | [] => None
  | (k, v) :: a' => if String.eqb key k then Some v else attr_get a' key
  end.

(** [float(attr.get(key, 0.0) or 0.0)]: a zero is falsy. *)
Definition vote_of (a : attrs) (key : string) : PrimFloat.float :=
  match attr_get a key with
  | None => 0%float
  | Some v => if PrimFloat.eqb v 0%float then 0%float else v
  end.

(** [d[k] += x] on a [defaultdict(float)]. *)
Definition fadd (d : dict PrimFloat.float) (k : Z) (x : PrimFloat.float)
  : dict PrimFloat.float :=
  upd 0%float (fun v => PrimFloat.add v x) d k.

Record tallies : Type := mkTallies {
  dem_by_dist : dict PrimFloat.float;
  rep_by_dist : dict PrimFloat.float;
  two_party_by_dist : dict PrimFloat.float
}.

Definition aggregate_step (nodes : dict attrs) (dem_key rep_key : string)
    (t : tallies) (item : Z * Z) : tallies :=
  let '(node_id, dist) := item in
  match get nodes node_id with
  | None => t
  | Some attr =>
      let dem := vote_of attr dem_key in
      let rep := vote_of attr rep_key in
      let two := PrimFloat.add dem rep in
      mkTallies (fadd (dem_by_dist t) dist dem)
                (fadd (rep_by_dist t) dist rep)
                (fadd (two_party_by_dist t) dist two)
  end.

(** [aggregate_votes_by_district] with its additions as the source
    performs them, in binary64. *)
Definition aggregate_votes_by_district (nodes : dict attrs)
    (assignment : dict Z) (dem_key rep_key : string) : tallies :=
  fold_left (aggregate_step nodes dem_key rep_key) assignment
            (mkTallies [] [] []).

(** A sum taken in floats, from the left. *)
Definition float_sum (l : list PrimFloat.float) : PrimFloat.float :=
  fold_left PrimFloat.add l 0%float.

(** The rational a finite float stands for. *)
Definition exact (x : PrimFloat.float) : option Q :=
  match FloatOps.Prim2SF x with
  | SpecFloat.S754_zero _ => Some 0
  | SpecFloat.S754_finite s m e =>
      Some ((if s then - (1) else 1) * inject_Z (Zpos m) * (2 # 1) ^ e)
  | _ => None
  end.

(** A sum taken exactly. *)
Fixpoint exact_sum (l : list PrimFloat.float) : option Q :=
  match l with
  | [] => Some 0
  | x :: l' =>
      match exact x, exact_sum l' with
      | Some q, Some r => Some (q + r)
      | _, _ => None
      end
  end.

End Binary64.

(** ** The efficiency gap as the specification words it *)

Module SpecMetrics.

(** A district qualifies when its two-party total is positive. *)
Definition qualifying (t : Q * Q) : bool :=
  negb (Qle_bool (fst t + snd t) 0).

Definition threshold (t : Q * Q) : Q :=
  inject_Z (Qfloor ((fst t + snd t) / 2) + 1).

(** Winner: votes minus the threshold; loser: its whole total; tie: half
    of each total. *)
Definition wastedA (t : Q * Q) : Q :=
  let '(a, b) := t in
  if Qlt_bool b a then a - threshold t
  else if Qlt_bool a b then a
  else a / 2.

Definition wastedB (t : Q * Q) : Q :=
  let '(a, b) := t in
  if Qlt_bool b a then b
  else if Qlt_bool a b then b - threshold t
  else b / 2.

Definition statewide_two_party_total (family : list (Q * Q)) : Q :=
  Qsum (map (fun t => fst t + snd t) (filter qualifying family)).

Definition efficiency_gap_with
    (wA wB : Q * Q -> Q) (family : list (Q * Q)) : option Q :=
  let q := filter qualifying family in
  let total := statewide_two_party_total family in
  if Qeq_bool total 0 then None
  else Some ((Qsum (map wA q) - Qsum (map wB q)) / total).

(** The formula exactly as stated. *)
Definition efficiency_gap : list (Q * Q) -> option Q :=
  efficiency_gap_with wastedA wastedB.

(** The same formula with each wasted-vote term floored at zero. *)
Definition efficiency_gap_floored : list (Q * Q) -> option Q :=
  efficiency_gap_with (fun t => Qmax (wastedA t) 0)
                      (fun t => Qmax (wastedB t) 0).

(** The family of (partyA, partyB) pairs held by two tally dictionaries. *)
Definition family_of (dem rep : PyDict.dict Q) : list (Q * Q) :=
  map (fun d => (PyDict.fget dem d, PyDict.fget rep d)) (PyDict.keys dem).

(** Tallies that are whole, non-negative vote counts. *)
Definition whole_counts (family : list (Q * Q)) : Prop :=
  forall t, In t family ->
    exists a b : Z, (0 <= a)%Z /\ (0 <= b)%Z /\
                    fst t == inject_Z a /\ snd t == inject_Z b.

End SpecMetrics.

(** ** Contiguity as the specification words it *)

Module SpecContiguity.
Import PyDict Gerry Generator.

(** The district identifiers of a plan: the values of its assignment. *)
Definition district (p : Partition) (d : Z) : Prop :=
  exists n, In (n, d) (assignment p).

(** The member nodes of district [d]: the graph's nodes assigned to it. *)
Definition member (p : Partition) (d v : Z) : Prop :=
  In (v, d) (assignment p) /\ In v (keys (nodes (graph p))).

(** An edge of the subgraph induced by the members of [d]. *)
Definition induced_edge (p : Partition) (d u v : Z) : Prop :=
  member p d u /\ member p d v /\ adjacent (graph p) u v = true.

(** No member is unreachable from any other along induced edges. *)
Definition single_component (p : Partition) (d : Z) : Prop :=
  forall u v, member p d u -> member p d v ->
              clos_refl_trans Z (induced_edge p d) u v.

Definition district_passes (p : Partition) (d : Z) : Prop :=
  (exists v, member p d v) /\ single_component p d.

Definition contiguous (p : Partition) : Prop :=
  forall d, district p d -> district_passes p d.

End SpecContiguity.

(** The nodes a plan assigns to district [d], in assignment order. *)
Definition members_of (a : PyDict.dict Z) (d : Z) : list Z :=
  map fst (filter (fun item : Z * Z => Z.eqb (snd item) d) a).

(** An edge between two nodes of the node list [sub]. *)
Definition edge_in (g : Gerry.Graph) (sub : list Z) (u v : Z) : Prop :=
  In u sub /\ In v sub /\ Generator.adjacent g u v = true.

(** What holds of the set [seen] during the search from [source], with
    [level] the nodes whose neighbours are still to be visited. *)
Definition bfs_invariant (g : Gerry.Graph) (sub : list Z) (source : Z)
    (seen level : list Z) : Prop :=
  NoDup seen /\ incl seen sub /\ incl level seen /\ In source seen /\
  (forall u, In u seen -> clos_refl_trans Z (edge_in g sub) source u) /\
  (forall u w, In u seen -> ~ In u level -> In w sub ->
               Generator.adjacent g u w = true -> In w seen).

(** ** The recording cadence as the specification words it *)

Module SpecCadence.

(** The elements of [l] whose position, counted from [i], is congruent to
    [phase] modulo [k]. *)
Fixpoint every_from {A : Type} (k phase i : Z) (l : list A) : list A :=
  match l with
  | [] => []
  | x :: l' =>
      if Z.eqb (i mod k) phase then x :: every_from k phase (i + 1) l'
      else every_from k phase (i + 1) l'
  end.

(** Of all steps, every [(stepsBetween+1)]-th one. *)
Definition candidate_kept {A : Type} (steps_between : Z) (chain : list A)
  : list A :=
  every_from (steps_between + 1) steps_between 0 chain.

(** The first [burnIn] candidate-kept steps are discarded. *)
Definition after_burn_in {A : Type} (burn_in : Z) (l : list A) : list A :=
  skipn (Z.to_nat burn_in) l.

(** Of the remainder, every [thin]-th, starting with the first. *)
Definition thinned {A : Type} (thin : Z) (l : list A) : list A :=
  every_from thin 0 0 l.

(** Recording stops once [samples] records have been kept. *)
Definition kept {A : Type} (samples steps_between burn_in thin : Z)
    (chain : list A) : list A :=
  firstn (Z.to_nat samples)
    (thinned thin (after_burn_in burn_in (candidate_kept steps_between chain))).

(** Burn-in and thinning in one pass: positions are counted from [j], the
    negative ones are the burn-in. *)
Fixpoint select {A : Type} (thin j : Z) (l : list A) : list A :=
  match l with
  | [] => []
  | x :: l' =>
      if Z.ltb j 0 then select thin (j + 1) l'
      else if Z.eqb (j mod thin) 0 then x :: select thin (j + 1) l'
      else select thin (j + 1) l'
  end.

End SpecCadence.

(** The text the store holds after the plans [l] were recorded in order,
    the first under ordinal [index]. *)
Fixpoint render (float_repr : Q -> string) (F : Generator.fields)
    (P : Generator.params) (index : Z) (l : list Generator.Partition)
  : string :=
  match l with
  | [] => EmptyString
  | state :: l' =>
      match Generator.efficiency_gap F state with
      | Py.Ok eg =>
          String.append
            (Generator.record_text float_repr F P index
               (Generator.is_partition_contiguous state)
               (Generator.seats_gop_by_tally F state) eg state)
            (render float_repr F P (index + 1) l')
      | Py.Raise _ => EmptyString
      end
  end.

(** ** The worked example of the specification

    Four nodes in a path 1-2-3-4 with (partyA, partyB) votes (10,5),
    (5,10), (10,5), (5,10). *)

Module Examples.
Import Gerry Generator.

Definition node (n d r : Z) : Z * attrs :=
  (n, [("TOT_POP", Num 15); ("PREDEM24", Num (inject_Z d));
       ("PREREP24", Num (inject_Z r)); ("CONG_DIST", Num 1)]%string).

Definition path_graph : Graph :=
  mkGraph [node 1 10 5; node 2 5 10; node 3 10 5; node 4 5 10]
          [(1, 2); (2, 3); (3, 4)]%Z.

Definition detected : fields :=
  mkFields "TOT_POP" "PREDEM24" "PREREP24" ["CONG_DIST"%string].

(** Districts 1-2 and 3-4: two ties. *)
Definition tied_plan : Partition :=
  mkPartition path_graph [(1, 1); (2, 1); (3, 2); (4, 2)]%Z.

(** Districts 1-2-3 and 4. *)
Definition uneven_plan : Partition :=
  mkPartition path_graph [(1, 1); (2, 1); (3, 1); (4, 2)]%Z.

(** Districts 1,3 and 2,4: neither is connected. *)
Definition split_plan : Partition :=
  mkPartition path_graph [(1, 1); (2, 2); (3, 1); (4, 2)]%Z.

(** A stand-in for [float.__repr__]. *)
Definition repr (q : Q) : string :=
  String.append (Json.py_str (Qnum q))
                (String.append "/" (Json.py_str (Zpos (Qden q)))).

(** A walk that alternates between two plans. *)
Definition alternate (p q : Partition) : nat -> Partition :=
  fun n => if Nat.even n then p else q.

(** A walk that stays on one plan. *)
Definition stay (p : Partition) : nat -> Partition := fun _ => p.

End Examples.

(** ** The analyzer's remaining metrics *)

Module QOrder <: Orders.TotalLeBool.
Definition t := Q.
Definition leb := Qle_bool.
Theorem leb_total : forall x y, leb x y = true \/ leb y x = true.
Proof.
  intros x y. unfold leb.
  destruct (Qle_bool x y) eqn:E; [left; reflexivity|].
  right. apply Qle_bool_iff. apply Qlt_le_weak. apply Qnot_le_lt.
  intro H. apply Qle_bool_iff in H. congruence.
Qed.
End QOrder.

(** [sorted(shares)]: an ascending merge sort. *)
Module QSort := Mergesort.Sort QOrder.

Module Metrics.
Import PyDict.

(** [sum(l)]: added up from the left, starting at zero. *)
Definition py_sum (l : list Q) : Q := fold_left Qplus l 0.

Definition share_step (dem_by_dist rep_by_dist : dict Q)
    (shares : list Q) (dist : Z) : list Q :=
  let dem := fget dem_by_dist dist in
  let rep := fget rep_by_dist dist in
  let total := dem + rep in
  if Qle_bool total 0 then shares else shares ++ [dem / total].

(** The list [shares] that three of the metrics build first. *)
Definition district_shares (dem_by_dist rep_by_dist : dict Q) : list Q :=
  fold_left (share_step dem_by_dist rep_by_dist) (keys dem_by_dist) [].

(** A district counts for the metrics when its two-party total is
    positive. *)
Definition qualifies (dem_by_dist rep_by_dist : dict Q) (dist : Z) : bool :=
  negb (Qle_bool (fget dem_by_dist dist + fget rep_by_dist dist) 0).

(** Party A's share of the two-party vote in a district. *)
Definition share_of (dem_by_dist rep_by_dist : dict Q) (dist : Z) : Q :=
  fget dem_by_dist dist
  / (fget dem_by_dist dist + fget rep_by_dist dist).

Definition compute_mean_median (dem_by_dist rep_by_dist : dict Q)
  : option Q :=
  match district_shares dem_by_dist rep_by_dist with
  | [] => None
  | shares =>
      let shares_sorted := QSort.sort shares in
      let n := List.length shares_sorted in
      let mean_share := py_sum shares_sorted / inject_Z (Z.of_nat n) in
      let median_share :=
        if Nat.eqb (n mod 2) 1 then nth (n / 2) shares_sorted 0
        else (1 # 2) * (nth (n / 2 - 1) shares_sorted 0
                        + nth (n / 2) shares_sorted 0) in
      Some (mean_share - median_share)
  end.

(** The two arguments handed to [math.atan] by [compute_declination],
    for the party-B-favoring and the party-A-favoring side; [None] where
    the function returns not-a-number. *)
Definition declination_arguments (dem_by_dist rep_by_dist : dict Q)
  : option (Q * Q) :=
  match district_shares dem_by_dist rep_by_dist with
  | [] => None
  | shares =>
      let shares_sorted := QSort.sort shares in
      let n := List.length shares_sorted in
      let k := List.length
                 (filter (fun s => Qle_bool s (1 # 2)) shares_sorted) in
      if Nat.eqb k 0 || Nat.eqb k n then None
      else
        let mean_R :=
          py_sum (firstn k shares_sorted) / inject_Z (Z.of_nat k) in
        let mean_D :=
          py_sum (skipn k shares_sorted) / inject_Z (Z.of_nat (n - k)) in
        Some (((1 # 2) - mean_R) * inject_Z (Z.of_nat n)
              / inject_Z (Z.of_nat k),
              (mean_D - (1 # 2)) * inject_Z (Z.of_nat n)
              / inject_Z (Z.of_nat (n - k)))
  end.

Section Declination.
(** [math.atan] and [math.pi], which have no exact rational value. *)
Variable atan : Q -> Q.
Variable pi : Q.

Definition compute_declination (dem_by_dist rep_by_dist : dict Q)
  : option Q :=
  match declination_arguments dem_by_dist rep_by_dist with
  | None => None
  | Some (arg_R, arg_D) =>
      let theta_R := atan arg_R in
      let theta_D := atan arg_D in
      Some ((theta_D - theta_R) * inject_Z 180 / pi)
  end.
End Declination.

Definition competitive_step (dem_by_dist rep_by_dist : dict Q)
    (low high : Q) (count : Z) (dist : Z) : Z :=
  let dem := fget dem_by_dist dist in
  let rep := fget rep_by_dist dist in
  let total := dem + rep in
  if Qle_bool total 0 then count
  else
    let share := dem / total in
    if Qle_bool low share && Qle_bool share high then (count + 1)%Z
    else count.

Definition compute_competitiveness (dem_by_dist rep_by_dist : dict Q)
    (low high : Q) : Z :=
  fold_left (competitive_step dem_by_dist rep_by_dist low high)
            (keys dem_by_dist) 0%Z.

(** [wins / D if D > 0 else float('nan')], with [D] the number of seats
    counted. *)
Definition seat_share (wins : Z) (c : Analyzer.seat_counts) : option Q :=
  let D := (Analyzer.dem_seats c + Analyzer.gop_seats c
            + Analyzer.ties c)%Z in
  if Z.ltb 0 D then Some (inject_Z wins / inject_Z D) else None.

End Metrics.

(** What the three tally dictionaries keep in common: the same districts
    in the same order, each once, and two-party tallies that are the sum
    of the party tallies. *)
Definition aligned (t : Analyzer.tallies) : Prop :=
  PyDict.keys (Analyzer.rep_by_dist t) = PyDict.keys (Analyzer.dem_by_dist t)
  /\
  PyDict.keys (Analyzer.two_party_by_dist t)
  = PyDict.keys (Analyzer.dem_by_dist t) /\
  NoDup (PyDict.keys (Analyzer.dem_by_dist t)) /\
  forall d,
    PyDict.fget (Analyzer.two_party_by_dist t) d
    == PyDict.fget (Analyzer.dem_by_dist t) d
       + PyDict.fget (Analyzer.rep_by_dist t) d.

(** One entry of the dictionary [assignment_dict] builds. *)
Definition record_item (item : Z * Z) : string * Json.value :=
  (Json.py_str (fst item), Json.JInt (snd item)).

(** The record texts a run appends for the kept plans [recs] (contiguity
    flag, seat tally, efficiency gap, state), the first under ordinal
    [index]; and the lines it prints for them. *)
Fixpoint record_texts (float_repr : Q -> string) (F : Generator.fields)
    (P : Generator.params) (index : Z)
    (recs : list (bool * Z * Q * Generator.Partition)) : string :=
  match recs with
  | [] => EmptyString
  | (contig, gop, eg, state) :: recs' =>
      String.append
        (Generator.record_text float_repr F P index contig gop eg state)
        (record_texts float_repr F P (index + 1) recs')
  end.

Fixpoint saved_lines (index : Z)
    (recs : list (bool * Z * Q * Generator.Partition))
  : list Generator.printed :=
  match recs with
  | [] => []
  | (_, gop, eg, _) :: recs' =>
      Generator.SavedLine index gop eg :: saved_lines (index + 1) recs'
  end.

(** What is recorded of a plan is computed from that plan. *)
Definition computed (F : Generator.fields)
    (rec : bool * Z * Q * Generator.Partition) : Prop :=
  let '(contig, gop, eg, state) := rec in
  contig = Generator.is_partition_contiguous state /\
  gop = Generator.seats_gop_by_tally F state /\
  Generator.efficiency_gap F state = Py.Ok eg.

(** The store and the printed lines tell of the same kept plans. *)
Definition logged (float_repr : Q -> string) (F : Generator.fields)
    (P : Generator.params) (k : nat) (s : Generator.loop_state) : Prop :=
  exists recs,
    Forall (computed F) recs /\
    Generator.file s = record_texts float_repr F P 1 recs /\
    Generator.stdout s = Generator.StartLine k :: saved_lines 1 recs /\
    Generator.saved s = Z.of_nat (List.length recs).

(** ** Preparing the graph *)

Module Preprocess.
Import PyDict Gerry.

(** [_coerce_numeric(x)]: [float(x)], and zero where that raises.  A
    not-a-number value is sent to zero as well, so it goes the way of
    [NonNumeric] here; attribute values are finite numbers, an infinite
    one (on which [round] raises) is no [attr_value]. *)
Definition _coerce_numeric (x : attr_value) : Q :=
  match x with
  | Num q => q
  | NoneVal => 0
  | NonNumeric => 0
  end.

(** [_coerce_numeric(a.get(key, 0))] *)
Definition coerced (a : attrs) (key : string) : Q :=
  match attr_get a key with
  | Some v => _coerce_numeric v
  | None => _coerce_numeric (Num 0)
  end.

(** [round(x)] on a float: to the nearest integer, a half to the even
    one. *)
Definition round (x : Q) : Z :=
  let f := Qfloor x in
  let r := x - inject_Z f in
  if Qlt_bool r (1 # 2) then f
  else if Qlt_bool (1 # 2) r then (f + 1)%Z
  else if Z.even f then f else (f + 1)%Z.

(** [a[key] = v]: in place when the key is there, at the end
    otherwise. *)
Fixpoint attr_set (a : attrs) (key : string) (v : attr_value) : attrs :=
  match a with
  | [] => [(key, v)]
  | (k, w) :: a' =>
      if String.eqb key k then (k, v) :: a'
      else (k, w) :: attr_set a' key v
  end.

(** [graph.degree()] at one node: the edges at it, a loop twice. *)
Definition degree (g : Graph) (n : Z) : nat :=
  list_sum
    (map (fun e : Z * Z =>
            ((if Z.eqb (fst e) n then 1 else 0)
             + (if Z.eqb (snd e) n then 1 else 0))%nat)
         (edges g)).

(** [graph.remove_nodes_from(ns)]: the nodes go, and every edge at one
    of them. *)
Definition remove_nodes_from (g : Graph) (ns : list Z) : Graph :=
  mkGraph
    (filter (fun item : Z * attrs => negb (Generator.mem (fst item) ns))
            (nodes g))
    (filter (fun e : Z * Z =>
               negb (Generator.mem (fst e) ns)
               && negb (Generator.mem (snd e) ns))
            (edges g)).

(** [a[key] = int(round(_coerce_numeric(a.get(key, 0))))] *)
Definition patch (a : attrs) (key : string) : attrs :=
  attr_set a key (Num (inject_Z (round (coerced a key)))).

(** The body of the loop over the nodes: the three columns in turn, each
    read from the record as the one before left it. *)
Definition preprocess_node (pop_key dem_key rep_key : string) (a : attrs)
  : attrs :=
  patch (patch (patch a pop_key) dem_key) rep_key.

(** [graph.nodes[n].get(pop_key, 0) == 0], asked after the loop, when the
    column holds an integer on every node. *)
Definition zero_pop (pop_key : string) (a : attrs) : bool :=
  match attr_get a pop_key with
  | None => true
  | Some (Num q) => Qeq_bool q 0
  | Some _ => false
  end.

Definition islands (g : Graph) : list Z :=
  filter (fun n => Nat.eqb (degree g n) 0) (keys (nodes g)).

(** [preprocess_graph]: the graph as the call leaves it.  The two
    counts it prints along the way are not part of this. *)
Definition preprocess_graph (g : Graph) (pop_key dem_key rep_key : string)
    (drop_zero_pop : bool) : Graph :=
  let g1 :=
    match islands g with
    | [] => g
    | _ :: _ => remove_nodes_from g (islands g)
    end in
  let g2 :=
    mkGraph
      (map (fun item : Z * attrs =>
              (fst item,
               preprocess_node pop_key dem_key rep_key (snd item)))
           (nodes g1))
      (edges g1) in
  if drop_zero_pop then
    let zeros :=
      map fst
          (filter (fun item : Z * attrs => zero_pop pop_key (snd item))
                  (nodes g2)) in
    match zeros with
    | [] => g2
    | _ :: _ => remove_nodes_from g2 zeros
    end
  else g2.

(** The start of [main]: the columns are detected, the graph is
    prepared with them, and [setup_from_graph] detects them again on the
    prepared graph. *)
Definition prepare (g : Graph) (drop_zero_pop : bool)
  : Py.result (Graph * Generator.fields) :=
  Py.bind (Generator.detect_fields g) (fun F0 =>
  let g' := preprocess_graph g (Generator.pop_key F0)
              (Generator.dem_key F0) (Generator.rep_key F0)
              drop_zero_pop in
  Py.bind (Generator.detect_fields g') (fun F => Py.Ok (g', F))).

(** The choice of the starting plan in [stream_plans_ndjson]: the first
    of the preferred keys among the detected ones, the first detected one
    otherwise.  [None] stands for the [IndexError] of [have[0]]. *)
Definition pref_order : list string :=
  ["538CPCT__1"; "SLDL_DIST"; "SLDU_DIST"; "CONG_DIST"]%string.

Definition start_key (have : list string) : option string :=
  match have with
  | [] => None
  | first :: _ =>
      match find (fun cand => existsb (String.eqb cand) have) pref_order with
      | Some cand => Some cand
      | None => Some first
      end
  end.

End Preprocess.

(** A column that holds a whole number. *)
Definition whole (a : Gerry.attrs) (k : string) : Prop :=
  exists z, Gerry.attr_get a k = Some (Gerry.Num (inject_Z z)).

(** The graph once its islands are gone. *)
Definition without_islands (g : Gerry.Graph) : Gerry.Graph :=
  Gerry.mkGraph
    (filter (fun item : Z * Gerry.attrs =>
               negb (Nat.eqb (Preprocess.degree g (fst item)) 0))
            (Gerry.nodes g))
    (Gerry.edges g).

(** A text of white space only, as [str.strip] and the line reader see
    it. *)
Fixpoint blank (s : string) : bool :=
  match s with
  | EmptyString => true
  | String c s' => Analyzer.is_blank c && blank s'
  end.

(** * Proofs *)

(** ** Rational arithmetic helpers *)

Lemma Qlt_bool_iff (x y : Q) : Qlt_bool x y = true <-> x < y.
Proof.
  unfold Qlt_bool. rewrite negb_true_iff.
  split; intro H.
  - apply Qnot_le_lt. intro Hle. apply Qle_bool_iff in Hle. congruence.
  - destruct (Qle_bool y x) eqn:E; [|reflexivity].
    apply Qle_bool_iff in E. exfalso. apply (Qlt_not_le _ _ H E).
Qed.

Lemma Qlt_bool_false_iff (x y : Q) : Qlt_bool x y = false <-> y <= x.
Proof.
  unfold Qlt_bool. rewrite negb_false_iff. apply Qle_bool_iff.
Qed.

#[export] Instance Qlt_bool_comp : Proper (Qeq ==> Qeq ==> eq) Qlt_bool.
Proof.
  intros x x' Hx y y' Hy.
  destruct (Qlt_bool x y) eqn:E, (Qlt_bool x' y') eqn:E'; try reflexivity.
  - apply Qlt_bool_iff in E. apply Qlt_bool_false_iff in E'.
    rewrite Hx, Hy in E. exfalso. apply (Qlt_not_le _ _ E E').
  - apply Qlt_bool_iff in E'. apply Qlt_bool_false_iff in E.
    rewrite Hx, Hy in E. exfalso. apply (Qlt_not_le _ _ E' E).
Qed.

Lemma Qeq_bool_comp_l (x y : Q) : x == y -> Qeq_bool x 0 = Qeq_bool y 0.
Proof.
  intro H.
  destruct (Qeq_bool x 0) eqn:Ex, (Qeq_bool y 0) eqn:Ey; try reflexivity.
  - apply Qeq_bool_iff in Ex. rewrite H in Ex.
    apply Qeq_bool_iff in Ex. congruence.
  - apply Qeq_bool_iff in Ey. rewrite <- H in Ey.
    apply Qeq_bool_iff in Ey. congruence.
Qed.

Lemma Qsum_app (l1 l2 : list Q) : Qsum (l1 ++ l2) == Qsum l1 + Qsum l2.
Proof.
  induction l1 as [|x l1 IH]; simpl.
  - ring.
  - rewrite IH. ring.
Qed.

Lemma Qsum_map_ext_in {A : Type} (f g : A -> Q) (l : list A) :
  (forall x, In x l -> f x == g x) -> Qsum (map f l) == Qsum (map g l).
Proof.
  induction l as [|x l IH]; intro H; simpl.
  - reflexivity.
  - rewrite (H x (or_introl eq_refl)), IH.
    + reflexivity.
    + intros y Hy. apply H. right. exact Hy.
Qed.

Lemma Qfloor_half (n : Z) : Qfloor (inject_Z n / 2) = (n / 2)%Z.
Proof.
  unfold Qdiv, Qmult, Qinv, inject_Z, Qfloor. simpl.
  rewrite Z.mul_1_r. reflexivity.
Qed.

(** ** Efficiency gap: the analyzer's loop against the worded formula *)

Section EfficiencyGap.
Import PyDict Analyzer.
Variables dem rep : dict Q.

Let pair_of (d : Z) : Q * Q := (fget dem d, fget rep d).
Let flA (t : Q * Q) : Q := Qmax (SpecMetrics.wastedA t) 0.
Let flB (t : Q * Q) : Q := Qmax (SpecMetrics.wastedB t) 0.

Lemma eg_step_skip (acc : eg_acc) (d : Z) :
  SpecMetrics.qualifying (pair_of d) = false ->
  eg_step dem rep acc d = acc.
Proof.
  unfold SpecMetrics.qualifying, pair_of, eg_step. simpl.
  rewrite negb_false_iff. intros ->. reflexivity.
Qed.

Lemma eg_step_count (acc : eg_acc) (d : Z) :
  SpecMetrics.qualifying (pair_of d) = true ->
  let r := eg_step dem rep acc d in
  wasted_dem_total r == wasted_dem_total acc + flA (pair_of d) /\
  wasted_rep_total r == wasted_rep_total acc + flB (pair_of d) /\
  total_two_party r == total_two_party acc + (fget dem d + fget rep d).
Proof.
  unfold SpecMetrics.qualifying, pair_of, eg_step, flA, flB,
    SpecMetrics.wastedA, SpecMetrics.wastedB, SpecMetrics.threshold.
  simpl. rewrite negb_true_iff. intros ->.
  destruct (Qlt_bool (fget rep d) (fget dem d));
    [|destruct (Qlt_bool (fget dem d) (fget rep d))];
    simpl; repeat split; reflexivity.
Qed.

Lemma eg_fold (ks : list Z) (acc : eg_acc) :
  let q := filter SpecMetrics.qualifying (map pair_of ks) in
  let r := fold_left (eg_step dem rep) ks acc in
  wasted_dem_total r == wasted_dem_total acc + Qsum (map flA q) /\
  wasted_rep_total r == wasted_rep_total acc + Qsum (map flB q) /\
  total_two_party r
    == total_two_party acc + Qsum (map (fun t => fst t + snd t) q).
Proof.
  revert acc. induction ks as [|d ks IH]; intro acc; simpl.
  - repeat split; ring.
  - destruct (SpecMetrics.qualifying (pair_of d)) eqn:E.
    + destruct (eg_step_count acc d E) as (H1 & H2 & H3).
      destruct (IH (eg_step dem rep acc d)) as (I1 & I2 & I3).
      simpl. rewrite I1, I2, I3, H1, H2, H3.
      repeat split; simpl; ring.
    + rewrite (eg_step_skip acc d E). apply IH.
Qed.

Lemma compute_efficiency_gap_floored :
  feq (compute_efficiency_gap dem rep)
      (SpecMetrics.efficiency_gap_floored (SpecMetrics.family_of dem rep)).
Proof.
  unfold compute_efficiency_gap, SpecMetrics.efficiency_gap_floored,
    SpecMetrics.efficiency_gap_with, SpecMetrics.statewide_two_party_total,
    SpecMetrics.family_of.
  destruct (eg_fold (keys dem) (mkEgAcc 0 0 0)) as (H1 & H2 & H3).
  simpl in H1, H2, H3. fold pair_of.
  set (r := fold_left (eg_step dem rep) (keys dem) (mkEgAcc 0 0 0)) in *.
  set (q := filter SpecMetrics.qualifying (map pair_of (keys dem))) in *.
  assert (T : total_two_party r
              == Qsum (map (fun t => fst t + snd t) q)).
  { rewrite H3. ring. }
  rewrite (Qeq_bool_comp_l _ _ T).
  destruct (Qeq_bool (Qsum (map (fun t => fst t + snd t) q)) 0);
    simpl; [exact I|].
  rewrite H1, H2, T. fold flA flB. unfold Qdiv. ring.
Qed.
End EfficiencyGap.

(** On whole, non-negative vote counts no wasted-vote term is negative. *)
Lemma wasted_nonneg_whole (t : Q * Q) (a b : Z) :
  (0 <= a)%Z -> (0 <= b)%Z ->
  fst t == inject_Z a -> snd t == inject_Z b ->
  0 <= SpecMetrics.wastedA t /\ 0 <= SpecMetrics.wastedB t.
Proof.
  destruct t as (x, y). cbn [fst snd]. intros Ha Hb Hx Hy.
  unfold SpecMetrics.wastedA, SpecMetrics.wastedB, SpecMetrics.threshold.
  cbn [fst snd].
  assert (Hfl : Qfloor ((x + y) / 2) = ((a + b) / 2)%Z).
  { rewrite <- Qfloor_half. apply Qfloor_comp.
    rewrite Hx, Hy, inject_Z_plus. reflexivity. }
  rewrite Hfl.
  assert (Hx0 : 0 <= x).
  { rewrite Hx. change 0 with (inject_Z 0). rewrite <- Zle_Qle. exact Ha. }
  assert (Hy0 : 0 <= y).
  { rewrite Hy. change 0 with (inject_Z 0). rewrite <- Zle_Qle. exact Hb. }
  destruct (Qlt_bool y x) eqn:E1; [|destruct (Qlt_bool x y) eqn:E2].
  - split; [|exact Hy0].
    apply Qlt_bool_iff in E1. rewrite Hx, Hy in E1.
    rewrite <- Zlt_Qlt in E1.
    rewrite Hx. unfold Qminus.
    rewrite <- inject_Z_opp, <- inject_Z_plus.
    change 0 with (inject_Z 0). rewrite <- Zle_Qle.
    Z.to_euclidean_division_equations. lia.
  - split; [exact Hx0|].
    apply Qlt_bool_iff in E2. rewrite Hx, Hy in E2.
    rewrite <- Zlt_Qlt in E2.
    rewrite Hy. unfold Qminus.
    rewrite <- inject_Z_opp, <- inject_Z_plus.
    change 0 with (inject_Z 0). rewrite <- Zle_Qle.
    Z.to_euclidean_division_equations. lia.
  - split.
    + apply Qle_shift_div_l; [reflexivity|]. rewrite Qmult_0_l. exact Hx0.
    + apply Qle_shift_div_l; [reflexivity|]. rewrite Qmult_0_l. exact Hy0.
Qed.

Lemma Qmax_nonneg (x : Q) : 0 <= x -> Qmax x 0 == x.
Proof. intro H. apply Q.max_l. exact H. Qed.

Lemma efficiency_gap_floored_whole (family : list (Q * Q)) :
  SpecMetrics.whole_counts family ->
  feq (SpecMetrics.efficiency_gap_floored family)
      (SpecMetrics.efficiency_gap family).
Proof.
  intro W.
  unfold SpecMetrics.efficiency_gap_floored, SpecMetrics.efficiency_gap,
    SpecMetrics.efficiency_gap_with.
  destruct (Qeq_bool (SpecMetrics.statewide_two_party_total family) 0);
    simpl; [exact I|].
  assert (HA : Qsum (map (fun t => Qmax (SpecMetrics.wastedA t) 0)
                         (filter SpecMetrics.qualifying family))
               == Qsum (map SpecMetrics.wastedA
                            (filter SpecMetrics.qualifying family))).
  { apply Qsum_map_ext_in. intros t Ht. apply filter_In in Ht.
    destruct Ht as [Ht _]. destruct (W t Ht) as (a & b & Ha & Hb & Hx & Hy).
    apply Qmax_nonneg. apply (wasted_nonneg_whole t a b Ha Hb Hx Hy). }
  assert (HB : Qsum (map (fun t => Qmax (SpecMetrics.wastedB t) 0)
                         (filter SpecMetrics.qualifying family))
               == Qsum (map SpecMetrics.wastedB
                            (filter SpecMetrics.qualifying family))).
  { apply Qsum_map_ext_in. intros t Ht. apply filter_In in Ht.
    destruct Ht as [Ht _]. destruct (W t Ht) as (a & b & Ha & Hb & Hx & Hy).
    apply Qmax_nonneg. apply (wasted_nonneg_whole t a b Ha Hb Hx Hy). }
  rewrite HA, HB. reflexivity.
Qed.

Lemma feq_trans (a b c : option Q) : feq a b -> feq b c -> feq a c.
Proof.
  destruct a, b, c; simpl; try tauto.
  intros H1 H2. rewrite H1. exact H2.
Qed.

(** ** C5: the efficiency gap and its worded formula *)




(** ** C10: range of the partisan bias *)

Section PartisanBias.
Import PyDict Analyzer.
Variables dem rep : dict Q.

Let total_of (d : Z) : Q := fget dem d + fget rep d.
Let qual (d : Z) : bool := negb (Qle_bool (total_of d) 0).

Lemma pb_fold (ks : list Z) (acc : pb_acc) :
  let r := fold_left (pb_step dem rep) ks acc in
  List.length (shares r)
    = (List.length (shares acc) + List.length (filter qual ks))%nat /\
  total_dem r + total_rep r
    == total_dem acc + total_rep acc + Qsum (map total_of (filter qual ks)).
Proof.
  revert acc. induction ks as [|d ks IH]; intro acc; simpl.
  - split; [lia | ring].
  - destruct (IH (pb_step dem rep acc d)) as [I1 I2].
    simpl in I1, I2. rewrite I1, I2. clear I1 I2 IH.
    unfold pb_step, qual, total_of.
    destruct (Qle_bool (fget dem d + fget rep d) 0); simpl.
    + split; [lia | ring].
    + rewrite length_app. simpl. split; [lia | ring].
Qed.

Lemma Qsum_qualifying_pos (ks : list Z) :
  filter qual ks <> [] -> 0 < Qsum (map total_of (filter qual ks)).
Proof.
  assert (P : forall l, (forall d, In d l -> 0 < total_of d) ->
                        l <> [] -> 0 < Qsum (map total_of l)).
  { induction l as [|d l IHl]; intros Hp Hne; [congruence|].
    simpl. destruct l as [|d' l'].
    - simpl. rewrite Qplus_0_r. apply Hp. left. reflexivity.
    - assert (0 < total_of d) by (apply Hp; left; reflexivity).
      assert (0 < Qsum (map total_of (d' :: l'))).
      { apply IHl; [|discriminate]. intros x Hx. apply Hp. right. exact Hx. }
      lra. }
  apply P. intros d Hd. apply filter_In in Hd. destruct Hd as [_ Hd].
  unfold qual in Hd. rewrite negb_true_iff in Hd.
  apply Qlt_bool_iff. unfold Qlt_bool. rewrite Hd. reflexivity.
Qed.

Lemma seat_share_bounds (c n : nat) :
  (c <= n)%nat -> (0 < n)%nat ->
  let s := inject_Z (Z.of_nat c) / inject_Z (Z.of_nat n) in
  - (1 # 2) <= s - (1 # 2) /\ s - (1 # 2) <= 1 # 2.
Proof.
  intros Hc Hn s.
  assert (Hn' : 0 < inject_Z (Z.of_nat n)).
  { change 0 with (inject_Z 0). rewrite <- Zlt_Qlt. lia. }
  assert (H0 : 0 <= s).
  { apply Qle_shift_div_l; [exact Hn'|]. rewrite Qmult_0_l.
    change 0 with (inject_Z 0). rewrite <- Zle_Qle. lia. }
  assert (H1 : s <= 1).
  { apply Qle_shift_div_r; [exact Hn'|]. rewrite Qmult_1_l.
    rewrite <- Zle_Qle. lia. }
  split; lra.
Qed.

Lemma filter_length_bound {A : Type} (f : A -> bool) (l : list A) :
  (List.length (filter f l) <= List.length l)%nat.
Proof.
  induction l as [|x l IH]; simpl; [lia|].
  destruct (f x); simpl; lia.
Qed.

Lemma partisan_bias_range_aux :
  (exists d, In d (keys dem) /\ 0 < fget dem d + fget rep d) ->
  exists v, compute_partisan_bias dem rep = Some v /\
            - (1 # 2) <= v /\ v <= 1 # 2.
Proof.
  intros (d & Hin & Hpos).
  assert (Hne : filter qual (keys dem) <> []).
  { intro E. assert (Hd : In d (filter qual (keys dem))).
    { apply filter_In. split; [exact Hin|].
      unfold qual, total_of. apply Qlt_bool_iff in Hpos. exact Hpos. }
    rewrite E in Hd. destruct Hd. }
  unfold compute_partisan_bias.
  destruct (pb_fold (keys dem) (mkPbAcc [] 0 0)) as [L T].
  simpl in L, T.
  set (r := fold_left (pb_step dem rep) (keys dem) (mkPbAcc [] 0 0)) in *.
  destruct (shares r) as [|s0 ss] eqn:Es.
  - exfalso. simpl in L. apply Hne. apply length_zero_iff_nil. lia.
  - pose proof (Qsum_qualifying_pos (keys dem) Hne) as Hsum.
    assert (Hnz : Qeq_bool (total_dem r + total_rep r) 0 = false).
    { destruct (Qeq_bool (total_dem r + total_rep r) 0) eqn:E;
        [|reflexivity].
      apply Qeq_bool_iff in E. rewrite T in E. lra. }
    rewrite Hnz. eexists. split; [reflexivity|].
    apply seat_share_bounds.
    + apply filter_length_bound.
    + rewrite length_map. simpl. lia.
Qed.
End PartisanBias.

(** C10.  Whenever the tallies contain at least one qualifying district
    (positive two-party total) and the combined statewide totals are
    nonzero, [compute_partisan_bias] returns a number, and that number
    lies in the closed interval from -1/2 to 1/2. *)
Theorem compute_partisan_bias_range (dem rep : PyDict.dict Q) :
  (exists d, In d (PyDict.keys dem) /\
             0 < PyDict.fget dem d + PyDict.fget rep d) ->
  ~ Qsum (map (fun t => fst t + snd t)
              (filter SpecMetrics.qualifying (SpecMetrics.family_of dem rep)))
    == 0 ->
  exists v, Analyzer.compute_partisan_bias dem rep = Some v /\
            - (1 # 2) <= v /\ v <= 1 # 2.
Proof.
  intros Hq _. apply partisan_bias_range_aux. exact Hq.
Qed.

Lemma compute_partisan_bias_range_witness :
  let dem := [(1%Z, 60); (2%Z, 45); (3%Z, 30)] in
  let rep := [(1%Z, 40); (2%Z, 55); (3%Z, 70)] in
  exists v, Analyzer.compute_partisan_bias dem rep = Some v /\
            - (1 # 2) <= v /\ v <= 1 # 2.
Proof.
  intros dem rep. apply (compute_partisan_bias_range dem rep).
  - exists 1%Z. split; [simpl; tauto | vm_compute; reflexivity].
  - intro H. vm_compute in H. discriminate H.
Defined.

(** ** C8: tally aggregation is exact *)

Lemma Qsum_values_fadd (d : PyDict.dict Q) (k : Z) (x : Q) :
  Qsum (PyDict.values (PyDict.fadd d k x)) == Qsum (PyDict.values d) + x.
Proof.
  unfold PyDict.fadd, PyDict.values.
  induction d as [|[k' v] d IH]; simpl.
  - ring.
  - destruct (Z.eqb k k'); simpl.
    + ring.
    + rewrite IH. ring.
Qed.

Section Aggregation.
Import PyDict Gerry Analyzer.
Variable graph : Graph.
Variables dem_key rep_key : string.

Lemma aggregate_fold (assignment : dict Z) (t : tallies) :
  let r := fold_left (aggregate_step graph dem_key rep_key) assignment t in
  Qsum (values (dem_by_dist r))
    == Qsum (values (dem_by_dist t))
       + Qsum (assigned_votes graph assignment dem_key) /\
  Qsum (values (rep_by_dist r))
    == Qsum (values (rep_by_dist t))
       + Qsum (assigned_votes graph assignment rep_key).
Proof.
  unfold assigned_votes.
  revert t. induction assignment as [|[n d] a IH]; intro t; simpl.
  - split; ring.
  - destruct (IH (aggregate_step graph dem_key rep_key t (n, d)))
      as [I1 I2].
    simpl in I1, I2. rewrite I1, I2. clear I1 I2 IH.
    unfold aggregate_step.
    destruct (get (nodes graph) n) as [attr|]; simpl.
    + rewrite !Qsum_values_fadd. split; ring.
    + split; ring.
Qed.
End Aggregation.

(** The tallied column of whole counts adds up to the counts. *)
Lemma assigned_votes_whole
    (graph : Gerry.Graph) (key : string) (votes : Z -> Z)
    (assignment : PyDict.dict Z) :
  (forall n d, In (n, d) assignment ->
     exists attr,
       PyDict.get (Gerry.nodes graph) n = Some attr /\
       Gerry.attr_get attr key = Some (Gerry.Num (inject_Z (votes n)))) ->
  Qsum (Analyzer.assigned_votes graph assignment key)
  == inject_Z (SpecTally.attribute_total votes assignment).
Proof.
  unfold Analyzer.assigned_votes, SpecTally.attribute_total, PyDict.keys.
  induction assignment as [|[n d] a IH]; intro H.
  - reflexivity.
  - cbn [map fold_right fst Qsum].
    destruct (H n d (or_introl eq_refl)) as (attr & Hg & Ha).
    rewrite Hg. unfold Analyzer.vote_of. rewrite Ha.
    rewrite inject_Z_plus. fold (Qsum (map (fun item : Z * Z =>
         match PyDict.get (Gerry.nodes graph) (fst item) with
         | Some attr0 =>
             match Gerry.attr_get attr0 key with
             | Some (Gerry.Num q) => q
             | _ => 0
             end
         | None => 0
         end) a)).
    unfold Analyzer.vote_of in IH. rewrite IH; [reflexivity|].
    intros n' d' Hin. apply (H n' d'). right. exact Hin.
Qed.

(** C8, as amended.  For every graph and plan in which each assigned
    node is a node of the graph whose partyA and partyB attributes are
    whole numbers, of a total size below [2^53] so that the float
    additions of the source are exact, the per-district partyA tallies
    built by [aggregate_votes_by_district] add up to the sum of the
    partyA attribute over all assigned nodes, and likewise for partyB. *)
Theorem aggregate_votes_by_district_exact
    (graph : Gerry.Graph) (assignment : PyDict.dict Z)
    (dem_key rep_key : string) (dem_of rep_of : Z -> Z) :
  (forall n d, In (n, d) assignment ->
     exists attr,
       PyDict.get (Gerry.nodes graph) n = Some attr /\
       Gerry.attr_get attr dem_key
       = Some (Gerry.Num (inject_Z (dem_of n))) /\
       Gerry.attr_get attr rep_key
       = Some (Gerry.Num (inject_Z (rep_of n)))) ->
  (SpecTally.attribute_total (fun n => Z.abs (dem_of n)) assignment
   < 2 ^ 53)%Z ->
  (SpecTally.attribute_total (fun n => Z.abs (rep_of n)) assignment
   < 2 ^ 53)%Z ->
  let t := Analyzer.aggregate_votes_by_district
             graph assignment dem_key rep_key in
  Qsum (PyDict.values (Analyzer.dem_by_dist t))
    == inject_Z (SpecTally.attribute_total dem_of assignment) /\
  Qsum (PyDict.values (Analyzer.rep_by_dist t))
    == inject_Z (SpecTally.attribute_total rep_of assignment).
Proof.
  intros H _ _ t. unfold t, Analyzer.aggregate_votes_by_district.
  destruct (aggregate_fold graph dem_key rep_key assignment
              (Analyzer.mkTallies [] [] [])) as [H1 H2].
  cbn [Analyzer.dem_by_dist Analyzer.rep_by_dist PyDict.values map Qsum
       fold_right] in H1, H2.
  rewrite H1, H2, Qplus_0_l, Qplus_0_l.
  split; apply assigned_votes_whole; intros n d Hin;
    destruct (H n d Hin) as (attr & Hg & Hd & Hr); exists attr;
    split; assumption.
Qed.

(** The graph and the first plan of the specification's example:
    10 and 5 votes for partyA on the odd and the even nodes, 5 and 10
    for partyB. *)
Lemma aggregate_votes_by_district_exact_witness :
  let dem_of := fun n : Z => if Z.odd n then 10%Z else 5%Z in
  let rep_of := fun n : Z => if Z.odd n then 5%Z else 10%Z in
  let t := Analyzer.aggregate_votes_by_district
             Examples.path_graph
             (Generator.assignment Examples.tied_plan)
             Analyzer.DEM_COL Analyzer.REP_COL in
  Qsum (PyDict.values (Analyzer.dem_by_dist t))
    == inject_Z
         (SpecTally.attribute_total dem_of
            (Generator.assignment Examples.tied_plan)) /\
  Qsum (PyDict.values (Analyzer.rep_by_dist t))
    == inject_Z
         (SpecTally.attribute_total rep_of
            (Generator.assignment Examples.tied_plan)).
Proof.
  apply (aggregate_votes_by_district_exact
           Examples.path_graph (Generator.assignment Examples.tied_plan)
           Analyzer.DEM_COL Analyzer.REP_COL
           (fun n : Z => if Z.odd n then 10%Z else 5%Z)
           (fun n : Z => if Z.odd n then 5%Z else 10%Z)).
  - intros n d [H|[H|[H|[H|[]]]]]; injection H as <- <-;
      eexists; (split; [reflexivity|]); split; reflexivity.
  - vm_compute. reflexivity.
  - vm_compute. reflexivity.
Defined.

(** C8 as stated fails on fractional attributes, because the source adds
    floats.  With partyA attributes 0.1, 0.1 and 0.4 on three nodes, the
    first in one district and the other two in another, the tallies are
    0.1 and 0.5; they differ from the attributes in their sum, whether
    the two sums are taken in floats from the left (0.6 against
    0.6000000000000001) or exactly. *)
Lemma aggregation_rounds_counterexample :
  let node := fun (n : Z) (dem : PrimFloat.float) =>
                (n, [("PREDEM24"%string, dem);
                     ("PREREP24"%string, Binary64.half)]) in
  let nodes := [node 1%Z Binary64.tenth; node 2%Z Binary64.tenth;
                node 3%Z Binary64.four_tenths] in
  let plan := [(1, 1); (2, 2); (3, 2)]%Z in
  let attributes := [Binary64.tenth; Binary64.tenth;
                     Binary64.four_tenths] in
  let tallied :=
    PyDict.values
      (Binary64.dem_by_dist
         (Binary64.aggregate_votes_by_district nodes plan
            "PREDEM24" "PREREP24")) in
  tallied = [Binary64.tenth; Binary64.half] /\
  PrimFloat.eqb (Binary64.float_sum tallied)
                (Binary64.float_sum attributes) = false /\
  exists x y,
    Binary64.exact_sum tallied = Some x /\
    Binary64.exact_sum attributes = Some y /\
    ~ x == y.
Proof.
  cbv zeta. split; [vm_compute; reflexivity|].
  split; [vm_compute; reflexivity|].
  eexists. eexists. split; [vm_compute; reflexivity|].
  split; [vm_compute; reflexivity|].
  intro H. vm_compute in H. discriminate H.
Qed.

(** ** Decimal spelling of integers *)

Lemma py_int_str (z : Z) : Json.py_int (Json.py_str z) = Some z.
Proof.
  unfold Json.py_int, Json.py_str.
  rewrite DecimalString.NilZero.isi.
  - simpl. rewrite DecimalZ.of_to. reflexivity.
  - destruct z; simpl; try discriminate.
    intros [= H]. exact (DecimalPos.Unsigned.to_uint_nonnil _ H).
  - destruct z; simpl; try discriminate.
    intros [= H]. exact (DecimalPos.Unsigned.to_uint_nonnil _ H).
Qed.

Lemma py_str_inj (x y : Z) : Json.py_str x = Json.py_str y -> x = y.
Proof.
  intro H. pose proof (py_int_str x) as Hx. rewrite H, py_int_str in Hx.
  congruence.
Qed.

(** ** C9: what the analyzer reads back from a generated record *)

Section RecordRows.
Import PyDict Gerry Generator Analyzer.

Lemma set_readable items (n d : Z) :
  readable items ->
  readable (Json.set items (Json.py_str n) (Json.JInt d)).
Proof.
  unfold readable.
  induction items as [|[k v] items IH]; intro H; simpl.
  - constructor; [|constructor]. exists n, d. split; reflexivity.
  - inversion H as [|? ? Hkv Hrest]; subst.
    destruct (String.eqb (Json.py_str n) k) eqn:E.
    + constructor; [|exact Hrest].
      destruct Hkv as (n' & _ & Hk & _). exists n', d. simpl in *.
      split; [exact Hk | reflexivity].
    + constructor; [exact Hkv | apply IH; exact Hrest].
Qed.

Lemma assignment_dict_readable (a : dict Z) acc :
  readable acc ->
  readable (fold_left
              (fun acc (item : Z * Z) =>
                 Json.set acc (Json.py_str (fst item))
                          (Json.JInt (snd item))) a acc).
Proof.
  revert acc. induction a as [|[n d] a IH]; intros acc H; simpl.
  - exact H.
  - apply IH. apply set_readable. exact H.
Qed.

Lemma int_assignment_readable items acc :
  readable items -> exists a, int_assignment items acc = Py.Ok a.
Proof.
  revert acc. induction items as [|[k v] items IH]; intros acc H; simpl.
  - eexists. reflexivity.
  - inversion H as [|? ? (n & d & Hk & Hv) Hrest]; subst.
    simpl in Hk, Hv. subst k v. rewrite py_int_str. simpl.
    apply IH. exact Hrest.
Qed.
End RecordRows.

(** C9 on the code: for every record the generator builds, the analyzer
    does produce a row, but the row's generation-time seat count is
    missing ([None]) although the record carries it under ["gop_seats"];
    the generated plan index is missing in the same way, while the
    generated efficiency gap is read back. *)
Theorem analyzer_row_misses_generated_seats
    (g : Gerry.Graph) (F : Generator.fields) (P : Generator.params)
    (index : Z) (contig : bool) (gop : Z) (eg : Q)
    (state : Generator.Partition) :
  exists items row,
    Generator.plan_record F P index contig gop eg state = Json.JObj items /\
    Json.lookup items "gop_seats" = Some (Json.JInt gop) /\
    Json.lookup items "index" = Some (Json.JInt index) /\
    Analyzer.analyze_plan g (Json.JObj items) = Py.Ok row /\
    Analyzer.rep_seats_generated row = Json.JNull /\
    Analyzer.plan_index row = Json.JNull /\
    Analyzer.efficiency_gap_generated row = Json.JFloat (Some eg).
Proof.
  unfold Generator.plan_record, Generator.assignment_dict.
  eexists. 
  destruct (int_assignment_readable
              (fold_left
                 (fun acc (item : Z * Z) =>
                    Json.set acc (Json.py_str (fst item))
                             (Json.JInt (snd item)))
                 (Generator.assignment state) []) [])
    as [a Ha].
  { apply assignment_dict_readable. constructor. }
  eexists. split; [reflexivity|].
  split; [reflexivity|]. split; [reflexivity|].
  unfold Analyzer.analyze_plan. cbn [Json.get_or Json.get Json.lookup String.eqb Ascii.eqb Bool.eqb].
  rewrite Ha. cbn [Py.bind].
  split; [reflexivity|]. repeat split.
Qed.

(** ** The streaming saver: invariants of the loop *)

Ltac body_cases :=
  unfold Generator.loop_body;
  repeat match goal with
         | |- context [if ?c then _ else _] => destruct c eqn:?
         | |- context [match Generator.efficiency_gap ?F ?s with _ => _ end] =>
             destruct (Generator.efficiency_gap F s) eqn:?
         end.

Section LoopInvariants.
Import Generator.
Variable float_repr : Q -> string.
Variable F : fields.
Variable P : params.

Lemma run_loop_invariant (I : loop_state -> Prop) :
  (forall step state s,
      I s -> I (state_of (loop_body float_repr F P step state s))) ->
  forall chain step s,
    I s -> I (state_of (run_loop float_repr F P step chain s)).
Proof.
  intros Hbody chain. induction chain as [|state chain IH]; intros step s Hs.
  - exact Hs.
  - simpl. pose proof (Hbody step state s Hs) as H.
    destruct (loop_body float_repr F P step state s); simpl in *.
    + apply IH. exact H.
    + exact H.
    + exact H.
Qed.

(** Every iteration is counted. *)
Lemma loop_body_iterations step state s :
  iterations (state_of (loop_body float_repr F P step state s))
  = S (iterations s).
Proof. body_cases; reflexivity. Qed.

Lemma run_loop_iterations chain step s :
  chain <> [] ->
  (iterations s
   < iterations (state_of (run_loop float_repr F P step chain s)))%nat.
Proof.
  destruct chain as [|state chain]; [congruence|]. intros _. simpl.
  pose proof (loop_body_iterations step state s) as H.
  destruct (loop_body float_repr F P step state s) as [s'|s'|e s'];
    simpl in *; try lia.
  assert (I : (iterations s' <=
               iterations (state_of (run_loop float_repr F P (step + 1)
                                              chain s')))%nat).
  { apply (run_loop_invariant (fun x => (iterations s' <= iterations x)%nat)).
    - intros st sta x Hx. rewrite loop_body_iterations. lia.
    - lia. }
  lia.
Qed.

Lemma loop_body_store_shape step state s :
  store_shape s -> store_shape (state_of (loop_body float_repr F P step state s)).
Proof.
  intro H. body_cases; unfold store_shape in *;
    cbn [state_of saved file]; try exact H.
  - right. destruct H as [[H0 Hf]|[Hp [rest Hf]]]; rewrite Hf.
    + split; [lia|]. unfold record_text, plan_record. simpl.
      eexists. reflexivity.
    + split; [lia|]. simpl. eexists. reflexivity.
  - right. destruct H as [[H0 Hf]|[Hp [rest Hf]]]; rewrite Hf.
    + split; [lia|]. unfold record_text, plan_record. simpl.
      eexists. reflexivity.
    + split; [lia|]. simpl. eexists. reflexivity.
Qed.

(** With [thin] zero nothing is ever saved, and the only error raised in
    the loop is the division by zero. *)
Lemma loop_body_thin_zero step state s :
  thin P = 0%Z ->
  saved s = 0%Z /\ file s = EmptyString ->
  let c := loop_body float_repr F P step state s in
  (saved (state_of c) = 0%Z /\ file (state_of c) = EmptyString) /\
  match c with
  | Abort e _ => e = Py.ZeroDivisionError
  | _ => True
  end.
Proof.
  intros Ht H. unfold loop_body. rewrite Ht.
  repeat match goal with
         | |- context [if ?c then _ else _] => destruct c eqn:?
         end; simpl; try (split; [exact H | auto]); try discriminate.
Qed.

Lemma run_loop_thin_zero chain step s :
  thin P = 0%Z ->
  saved s = 0%Z /\ file s = EmptyString ->
  let c := run_loop float_repr F P step chain s in
  (saved (state_of c) = 0%Z /\ file (state_of c) = EmptyString) /\
  match c with
  | Abort e _ => e = Py.ZeroDivisionError
  | _ => True
  end.
Proof.
  intro Ht. revert step s.
  induction chain as [|state chain IH]; intros step s H; simpl.
  - split; [exact H | exact I].
  - pose proof (loop_body_thin_zero step state s Ht H) as B. simpl in B.
    destruct (loop_body float_repr F P step state s) as [s'|s'|e s'];
      simpl in *.
    + apply IH. exact (proj1 B).
    + exact B.
    + exact B.
Qed.
End LoopInvariants.

(** ** C2: the plan store against the analyzer's loader *)

Lemma brace_line_does_not_load (rest : string) :
  Analyzer.load_ensemble_ndjson
    (Some (String "{" (String (ascii_of_nat 10) rest)))
  = Py.Raise Py.JSONDecodeError.
Proof. reflexivity. Qed.

(** C2 on the code: as soon as one plan has been saved, the store that
    [stream_plans_ndjson] leaves behind is not read back by
    [load_ensemble_ndjson]: the record is spread over several lines, the
    first of which is a lone opening brace, and the loader raises
    [JSONDecodeError] on it. *)
Theorem saved_store_does_not_load
    (float_repr : Q -> string) (F : Generator.fields)
    (P : Generator.params) (walk : nat -> Generator.Partition)
    (store0 : option string) :
  let r := Generator.stream_plans_ndjson float_repr F P walk store0 in
  (0 < Generator.plans_saved r)%Z ->
  Analyzer.load_ensemble_ndjson (Generator.store r)
  = Py.Raise Py.JSONDecodeError.
Proof.
  unfold Generator.stream_plans_ndjson.
  destruct (Nat.eqb (List.length (Generator.parts (walk O))) 0).
  - simpl. lia.
  - set (s0 := Generator.mkLoop 0 0 EmptyString _ 0).
    assert (I : Generator.store_shape
                  (Generator.state_of
                     (Generator.run_loop float_repr F P 0
                        (Generator.chain_states P walk) s0))).
    { apply run_loop_invariant.
      - intros. apply loop_body_store_shape. assumption.
      - left. split; reflexivity. }
    destruct (Generator.run_loop float_repr F P 0
                (Generator.chain_states P walk) s0) as [s|s|e s];
      cbn [Generator.state_of Generator.store Generator.plans_saved] in *;
      intro Hs; destruct I as [[H0 _]|[_ [rest Hf]]]; try lia;
      rewrite Hf; apply brace_line_does_not_load.
Qed.

Lemma saved_store_does_not_load_witness :
  let r := Generator.stream_plans_ndjson
             Examples.repr Examples.detected
             (Generator.mkParams 1 0 (2 # 100) 24 0 1)
             (Examples.stay Examples.tied_plan) None in
  Generator.plans_saved r = 1%Z /\
  Analyzer.load_ensemble_ndjson (Generator.store r)
  = Py.Raise Py.JSONDecodeError.
Proof.
  intro r. split; [reflexivity|].
  apply (saved_store_does_not_load
           Examples.repr Examples.detected
           (Generator.mkParams 1 0 (2 # 100) 24 0 1)
           (Examples.stay Examples.tied_plan) None).
  vm_compute. reflexivity.
Defined.

(** ** C3: [thin] equal to zero *)

(** The loop of a run with [thin] equal to 0, once the set-up has
    succeeded. *)
Lemma thin_zero_run
    (float_repr : Q -> string) (F : Generator.fields)
    (P : Generator.params) (walk : nat -> Generator.Partition)
    (store0 : option string) :
  Generator.thin P = 0%Z ->
  Generator.parts (walk O) <> [] ->
  let r := Generator.stream_plans_ndjson float_repr F P walk store0 in
  Generator.store r = Some EmptyString /\
  (1 <= Generator.loop_iterations r)%nat /\
  Generator.plans_saved r = 0%Z /\
  (Generator.outcome r = Py.Ok Json.JNull \/
   Generator.outcome r = Py.Raise Py.ZeroDivisionError).
Proof.
  intros Ht Hk. unfold Generator.stream_plans_ndjson.
  destruct (Generator.parts (walk O)) as [|part ps] eqn:E; [congruence|].
  cbn [List.length Nat.eqb].
  set (s0 := Generator.mkLoop 0 0 EmptyString _ 0).
  set (chain := Generator.chain_states P walk).
  assert (Hne : chain <> []).
  { unfold chain, Generator.chain_states.
    destruct (Z.to_nat (Z.max 1 (Generator.total_steps P))) eqn:En;
      [lia | discriminate]. }
  pose proof (run_loop_iterations float_repr F P chain 0 s0 Hne) as Hit.
  pose proof (run_loop_thin_zero float_repr F P chain 0 s0 Ht
                (conj eq_refl eq_refl)) as [[Hs Hf] He].
  destruct (Generator.run_loop float_repr F P 0 chain s0) as [s|s|e s];
    cbn [Generator.state_of Generator.store Generator.plans_saved
         Generator.loop_iterations Generator.outcome] in *;
    rewrite Hf, Hs; repeat split; try (simpl in Hit; lia); auto.
  right. rewrite He. reflexivity.
Qed.




(** ** C4: what the caller learns about a shortfall *)

(** C4, as amended.  Whenever [stream_plans_ndjson] returns, the value it
    returns is [None], whether or not the requested number of plans was
    saved; the number saved is told only by the summary line it prints
    last (and by the store). *)
Theorem stream_returns_none
    (float_repr : Q -> string) (F : Generator.fields)
    (P : Generator.params) (walk : nat -> Generator.Partition)
    (store0 : option string) (v : Json.value) :
  let r := Generator.stream_plans_ndjson float_repr F P walk store0 in
  Generator.outcome r = Py.Ok v ->
  v = Json.JNull /\
  exists out,
    Generator.output r = out ++ [Generator.SummaryLine (Generator.plans_saved r)].
Proof.
  unfold Generator.stream_plans_ndjson.
  destruct (Nat.eqb (List.length (Generator.parts (walk O))) 0).
  - simpl. discriminate.
  - destruct (Generator.run_loop float_repr F P 0
                (Generator.chain_states P walk) _) as [s|s|e s];
      simpl; intro H; try discriminate;
      injection H as <-; (split; [reflexivity|]); eexists; reflexivity.
Qed.

Lemma stream_returns_none_witness :
  let r := Generator.stream_plans_ndjson
             Examples.repr Examples.detected
             (Generator.mkParams 1 0 (2 # 100) 24 0 1)
             (Examples.stay Examples.tied_plan) None in
  Json.JNull = Json.JNull /\
  exists out,
    Generator.output r = out ++ [Generator.SummaryLine (Generator.plans_saved r)].
Proof.
  apply (stream_returns_none
           Examples.repr Examples.detected
           (Generator.mkParams 1 0 (2 # 100) 24 0 1)
           (Examples.stay Examples.tied_plan) None Json.JNull).
  vm_compute. reflexivity.
Defined.

(** C4 as stated fails: a run that uses up its step budget with fewer
    plans than requested (none of 10 with [thin] 0 under the cadence
    [main] uses; 1 of 3 with a negative burn-in) returns the very value,
    [None], that a run saving every requested plan returns. *)
Lemma shortfall_counterexample :
  let run P :=
    Generator.stream_plans_ndjson Examples.repr Examples.detected P
      (Examples.stay Examples.tied_plan) None in
  let full := run (Generator.mkParams 1 0 (2 # 100) 24 0 1) in
  let short := run (Generator.mkParams 10 100 (2 # 100) 24 0 0) in
  let short' := run (Generator.mkParams 3 100 (2 # 100) 24 (-2) 1) in
  (Generator.plans_saved full = 1%Z /\
   Generator.outcome full = Py.Ok Json.JNull) /\
  (Generator.plans_saved short = 0%Z /\
   Generator.loop_iterations short = 100%nat /\
   Generator.outcome short = Generator.outcome full) /\
  (Generator.plans_saved short' = 1%Z /\
   Generator.loop_iterations short' = 201%nat /\
   Generator.outcome short' = Generator.outcome full).
Proof. vm_compute. repeat split. Qed.

(** ** C6: the recording cadence *)

Lemma append_assoc (a b c : string) :
  String.append (String.append a b) c = String.append a (String.append b c).
Proof.
  induction a as [|ch a IH]; simpl; [reflexivity | rewrite IH; reflexivity].
Qed.

Lemma append_nil_r (a : string) : String.append a EmptyString = a.
Proof.
  induction a as [|ch a IH]; simpl; [reflexivity | rewrite IH; reflexivity].
Qed.

Section Cadence.
Import Generator SpecCadence.
Variable float_repr : Q -> string.
Variable F : fields.
Variable P : params.
Hypothesis steps_between_nonneg : (0 <= steps_between P)%Z.
Hypothesis thin_pos : (1 <= thin P)%Z.

Lemma run_loop_select (chain : list Partition) :
  defined_on F chain ->
  forall step s,
    (saved s < samples P)%Z ->
    let K := firstn (Z.to_nat (samples P - saved s))
               (select (thin P) (saved_states_seen s - burn_in P)
                  (every_from (steps_between P + 1) (steps_between P)
                     step chain)) in
    let c := run_loop float_repr F P step chain s in
    (forall e s', c <> Abort e s') /\
    file (state_of c)
    = String.append (file s) (render float_repr F P (saved s + 1) K) /\
    saved (state_of c) = (saved s + Z.of_nat (List.length K))%Z.
Proof.
  induction chain as [|state chain IH]; intros Hdef step s Hs.
  - simpl. rewrite firstn_nil. simpl. rewrite append_nil_r.
    repeat split; [discriminate | lia].
  - assert (Hdef' : defined_on F chain).
    { intros st Hin. apply Hdef. right. exact Hin. }
    specialize (IH Hdef').
    cbn [run_loop every_from]. unfold loop_body.
    cbn [saved saved_states_seen file stdout iterations].
    replace (Z.eqb (steps_between P + 1) 0) with false
      by (symmetry; apply Z.eqb_neq; lia).
    destruct (Z.eqb (step mod (steps_between P + 1)) (steps_between P));
      cbn [negb].
    + cbn [select].
      destruct (Z.leb (saved_states_seen s + 1) (burn_in P)) eqn:Eb.
      * replace (Z.ltb (saved_states_seen s - burn_in P) 0) with true
          by (symmetry; apply Z.ltb_lt; apply Z.leb_le in Eb; lia).
        replace (saved_states_seen s - burn_in P + 1)%Z
          with (saved_states_seen s + 1 - burn_in P)%Z by lia.
        apply (IH (step + 1)%Z
                 (mkLoop (saved s) (saved_states_seen s + 1) (file s)
                         (stdout s) (S (iterations s)))).
        exact Hs.
      * replace (Z.ltb (saved_states_seen s - burn_in P) 0) with false
          by (symmetry; apply Z.ltb_ge; apply Z.leb_gt in Eb; lia).
        replace (Z.eqb (thin P) 0) with false
          by (symmetry; apply Z.eqb_neq; lia).
        replace (saved_states_seen s + 1 - burn_in P - 1)%Z
          with (saved_states_seen s - burn_in P)%Z by lia.
        destruct (Z.eqb ((saved_states_seen s - burn_in P) mod thin P) 0);
          cbn [negb].
        -- destruct (Hdef state (or_introl eq_refl)) as [eg Heg].
           rewrite Heg.
           cbn [saved saved_states_seen file stdout iterations].
           destruct (Z.leb (samples P) (saved s + 1)) eqn:El.
           ++ apply Z.leb_le in El.
              replace (samples P - saved s)%Z with 1%Z by lia.
              change (Z.to_nat 1) with 1%nat.
              cbn [firstn state_of file saved render List.length].
              rewrite Heg.
              rewrite append_nil_r.
              split; [intros; discriminate|]. split; [reflexivity | lia].
           ++ apply Z.leb_gt in El.
              replace (Z.to_nat (samples P - saved s))
                with (S (Z.to_nat (samples P - (saved s + 1)))) by lia.
              cbn [firstn render List.length]. rewrite Heg.
              replace (saved_states_seen s - burn_in P + 1)%Z
                with (saved_states_seen s + 1 - burn_in P)%Z by lia.
              destruct (IH (step + 1)%Z
                          (mkLoop (saved s + 1) (saved_states_seen s + 1)
                             (String.append (file s)
                                (record_text float_repr F P (saved s + 1)
                                   (is_partition_contiguous state)
                                   (seats_gop_by_tally F state) eg state))
                             (stdout s ++
                              [SavedLine (saved s + 1)
                                 (seats_gop_by_tally F state) eg])
                             (S (iterations s))))
                as (I1 & I2 & I3).
              { simpl. lia. }
              cbn [saved saved_states_seen file] in I1, I2, I3.
              split; [exact I1|]. split.
              ** rewrite I2, append_assoc. reflexivity.
              ** rewrite I3. lia.
        -- replace (saved_states_seen s - burn_in P + 1)%Z
             with (saved_states_seen s + 1 - burn_in P)%Z by lia.
           apply (IH (step + 1)%Z
                    (mkLoop (saved s) (saved_states_seen s + 1) (file s)
                            (stdout s) (S (iterations s)))).
           exact Hs.
    + apply (IH (step + 1)%Z
               (mkLoop (saved s) (saved_states_seen s) (file s)
                       (stdout s) (S (iterations s)))).
      exact Hs.
Qed.
End Cadence.

Lemma select_every_from {A : Type} (thin j : Z) (l : list A) :
  (0 <= j)%Z ->
  SpecCadence.select thin j l = SpecCadence.every_from thin 0 j l.
Proof.
  revert j. induction l as [|x l IH]; intros j Hj; simpl; [reflexivity|].
  replace (Z.ltb j 0) with false by (symmetry; apply Z.ltb_ge; lia).
  rewrite IH by lia. reflexivity.
Qed.

Lemma select_burn_in {A : Type} (thin : Z) (n : nat) (l : list A) :
  SpecCadence.select thin (- Z.of_nat n) l
  = SpecCadence.thinned thin (skipn n l).
Proof.
  revert l. induction n as [|n IH]; intro l.
  - simpl. apply select_every_from. lia.
  - destruct l as [|x l]; [reflexivity|].
    cbn [skipn SpecCadence.select].
    replace (Z.ltb (- Z.of_nat (S n)) 0) with true
      by (symmetry; apply Z.ltb_lt; lia).
    replace (- Z.of_nat (S n) + 1)%Z with (- Z.of_nat n)%Z by lia.
    apply IH.
Qed.

(** *** The step budget suffices *)

Section Counting.
Import SpecCadence.
Context {A : Type}.
Variables k phase : Z.
Hypothesis k_pos : (0 < k)%Z.
Hypothesis phase_range : (0 <= phase < k)%Z.

Lemma distance_zero (i : Z) :
  (i mod k = phase <-> (phase - i) mod k = 0)%Z.
Proof.
  split; intro H.
  - rewrite <- Zminus_mod_idemp_r, H, Z.sub_diag. apply Z.mod_0_l. lia.
  - replace i with (phase - (phase - i))%Z by lia.
    rewrite <- Zminus_mod_idemp_r, H, Z.sub_0_r.
    apply Z.mod_small. exact phase_range.
Qed.

Lemma distance_next (i : Z) :
  ((phase - (i + 1)) mod k
   = if Z.eqb ((phase - i) mod k) 0 then k - 1 else (phase - i) mod k - 1)%Z.
Proof.
  pose proof (Z.mod_pos_bound (phase - i) k k_pos) as B.
  replace (phase - (i + 1))%Z with (phase - i - 1)%Z by lia.
  rewrite <- Zminus_mod_idemp_l.
  destruct (Z.eqb ((phase - i) mod k) 0) eqn:E.
  - apply Z.eqb_eq in E. rewrite E.
    symmetry. apply (Z.mod_unique (0 - 1) k (-1) (k - 1)); lia.
  - apply Z.eqb_neq in E. apply Z.mod_small. lia.
Qed.

(** Among [k] consecutive positions one is taken. *)
Lemma every_from_length (i : Z) (l : list A) :
  (Z.of_nat (List.length l)
   <= k * Z.of_nat (List.length (every_from k phase i l))
      + (phase - i) mod k)%Z.
Proof.
  revert i. induction l as [|x l IH]; intro i.
  - simpl. pose proof (Z.mod_pos_bound (phase - i) k k_pos). lia.
  - cbn [every_from]. specialize (IH (i + 1)%Z).
    rewrite distance_next in IH.
    pose proof (Z.mod_pos_bound (phase - i) k k_pos) as B.
    destruct (Z.eqb (i mod k) phase) eqn:E.
    + apply Z.eqb_eq in E. apply distance_zero in E.
      rewrite E in *. cbn [Z.eqb] in IH.
      cbn [List.length]. lia.
    + apply Z.eqb_neq in E.
      assert (E' : ((phase - i) mod k <> 0)%Z).
      { intro H. apply E. apply distance_zero. exact H. }
      apply Z.eqb_neq in E'. rewrite E' in IH.
      cbn [List.length]. lia.
Qed.
End Counting.

(** Within the stated ranges a chain of the length the sampler asks for
    always yields the requested number of plans. *)
Lemma kept_length {A : Type} (samples steps_between burn_in thin : Z)
    (chain : list A) :
  (0 <= steps_between)%Z -> (0 <= burn_in)%Z -> (1 <= thin)%Z ->
  (1 <= samples)%Z ->
  Z.of_nat (List.length chain)
  = ((samples + burn_in) * (steps_between + 1) * thin + 100)%Z ->
  Z.of_nat (List.length
              (SpecCadence.kept samples steps_between burn_in thin chain))
  = samples.
Proof.
  intros Hsb Hb Ht Hs Hlen.
  unfold SpecCadence.kept, SpecCadence.thinned, SpecCadence.after_burn_in,
    SpecCadence.candidate_kept.
  set (cands := SpecCadence.every_from (steps_between + 1) steps_between 0
                  chain).
  pose proof (every_from_length (steps_between + 1) steps_between
                ltac:(lia) ltac:(lia) 0 chain) as Hc.
  fold cands in Hc.
  rewrite Z.sub_0_r, Z.mod_small in Hc by lia.
  set (rest := skipn (Z.to_nat burn_in) cands).
  assert (Hcands : ((samples + burn_in) * thin
                    <= Z.of_nat (List.length cands))%Z).
  { apply Z.nlt_ge. intro Hlt.
    assert (((steps_between + 1) * Z.of_nat (List.length cands)
             <= (steps_between + 1) * ((samples + burn_in) * thin - 1))%Z)
      by (apply Z.mul_le_mono_nonneg_l; lia).
    lia. }
  assert (Hburn : (burn_in <= burn_in * thin)%Z) by nia.
  assert (Hrest : (samples * thin <= Z.of_nat (List.length rest))%Z).
  { unfold rest. rewrite length_skipn. lia. }
  pose proof (every_from_length thin 0 ltac:(lia) ltac:(lia) 0 rest) as Hth.
  rewrite Z.sub_0_r, Z.mod_0_l in Hth by lia.
  rewrite length_firstn.
  assert ((samples <= Z.of_nat
                        (List.length (SpecCadence.every_from thin 0 0 rest)))%Z).
  { apply Z.nlt_ge. intro Hlt.
    assert ((thin * Z.of_nat
                      (List.length (SpecCadence.every_from thin 0 0 rest))
             <= thin * (samples - 1))%Z)
      by (apply Z.mul_le_mono_nonneg_l; lia).
    lia. }
  lia.
Qed.

(** C6, as amended.  For non-negative [steps_between] and [burn_in] and
    positive [thin] and [samples], on every chain whose states have an
    efficiency gap: the run returns; the store holds, in order and
    numbered from 1, exactly the plans obtained by taking every
    [(steps_between+1)]-th state, dropping the first [burn_in] of these,
    taking every [thin]-th of the rest from its first, and stopping at
    [samples]; the chain is given
    [(samples+burn_in)*(steps_between+1)*thin + 100] steps, which is
    enough for all [samples] plans to be recorded. *)
Theorem recording_cadence
    (float_repr : Q -> string) (F : Generator.fields)
    (P : Generator.params) (walk : nat -> Generator.Partition)
    (store0 : option string) :
  (0 <= Generator.steps_between P)%Z ->
  (0 <= Generator.burn_in P)%Z ->
  (1 <= Generator.thin P)%Z ->
  (1 <= Generator.samples P)%Z ->
  Generator.parts (walk O) <> [] ->
  (forall n, exists eg, Generator.efficiency_gap F (walk n) = Py.Ok eg) ->
  let chain := Generator.chain_states P walk in
  let K := SpecCadence.kept (Generator.samples P) (Generator.steps_between P)
             (Generator.burn_in P) (Generator.thin P) chain in
  let r := Generator.stream_plans_ndjson float_repr F P walk store0 in
  Generator.outcome r = Py.Ok Json.JNull /\
  Generator.store r = Some (render float_repr F P 1 K) /\
  Generator.plans_saved r = Z.of_nat (List.length K) /\
  Z.of_nat (List.length chain)
  = ((Generator.samples P + Generator.burn_in P)
     * (Generator.steps_between P + 1) * Generator.thin P + 100)%Z /\
  Generator.plans_saved r = Generator.samples P.
Proof.
  intros Hsb Hb Ht Hs Hk Hdef chain K r.
  assert (Hchain : Generator.defined_on F chain).
  { intros st Hin. unfold chain, Generator.chain_states in Hin.
    apply in_map_iff in Hin. destruct Hin as (n & <- & _). apply Hdef. }
  assert (Hlen : Z.of_nat (List.length chain)
                 = ((Generator.samples P + Generator.burn_in P)
                    * (Generator.steps_between P + 1) * Generator.thin P
                    + 100)%Z).
  { unfold chain, Generator.chain_states.
    rewrite length_map, length_seq. unfold Generator.total_steps. nia. }
  unfold r, Generator.stream_plans_ndjson. fold chain.
  destruct (Generator.parts (walk O)) as [|part ps] eqn:E; [congruence|].
  cbn [List.length Nat.eqb].
  set (s0 := Generator.mkLoop 0 0 EmptyString _ 0).
  destruct (run_loop_select float_repr F P Hsb Ht chain Hchain 0%Z s0)
    as (H1 & H2 & H3).
  { simpl. lia. }
  cbn [Generator.saved Generator.saved_states_seen Generator.file s0]
    in H2, H3.
  assert (HK : firstn (Z.to_nat (Generator.samples P - 0))
                 (SpecCadence.select (Generator.thin P)
                    (0 - Generator.burn_in P)
                    (SpecCadence.every_from (Generator.steps_between P + 1)
                       (Generator.steps_between P) 0 chain)) = K).
  { unfold K, SpecCadence.kept, SpecCadence.after_burn_in,
      SpecCadence.candidate_kept.
    replace (Generator.samples P - 0)%Z with (Generator.samples P) by lia.
    replace (0 - Generator.burn_in P)%Z
      with (- Z.of_nat (Z.to_nat (Generator.burn_in P)))%Z by lia.
    rewrite select_burn_in. reflexivity. }
  rewrite HK in H2, H3.
  pose proof (kept_length (Generator.samples P) (Generator.steps_between P)
                (Generator.burn_in P) (Generator.thin P) chain
                Hsb Hb Ht Hs Hlen) as Hall.
  fold K in Hall.
  destruct (Generator.run_loop float_repr F P 0 chain s0) as [s|s|e s];
    cbn [Generator.state_of Generator.store Generator.plans_saved
         Generator.outcome] in *.
  - rewrite H2, H3. repeat split; [exact Hlen | lia].
  - rewrite H2, H3. repeat split; [exact Hlen | lia].
  - exfalso. exact (H1 e s eq_refl).
Qed.

Lemma recording_cadence_witness :
  let P := Generator.mkParams 2 1 (2 # 100) 24 1 2 in
  let walk := Examples.alternate Examples.uneven_plan Examples.tied_plan in
  let r := Generator.stream_plans_ndjson
             Examples.repr Examples.detected P walk None in
  let K := SpecCadence.kept 2 1 1 2 (Generator.chain_states P walk) in
  Generator.outcome r = Py.Ok Json.JNull /\
  Generator.store r = Some (render Examples.repr Examples.detected P 1 K) /\
  Generator.plans_saved r = Z.of_nat (List.length K) /\
  Z.of_nat (List.length (Generator.chain_states P walk)) = 112%Z /\
  Generator.plans_saved r = 2%Z.
Proof.
  intros P walk r K.
  apply (recording_cadence Examples.repr Examples.detected P walk None);
    simpl; try lia.
  - vm_compute. discriminate.
  - intro n. unfold walk, Examples.alternate.
    destruct (Nat.even n); eexists; vm_compute; reflexivity.
Defined.

(** C6 as stated fails outside those ranges.  With [samples] 0 (here as
    [main] would pass it, with [--burn_in 1 --thin 2]) one plan is
    recorded although none was asked for; with a negative [burn_in] the
    thinning starts at another candidate than the first, so other plans
    are recorded than the worded selection picks. *)
Lemma recording_cadence_counterexample :
  let walk := Examples.alternate Examples.uneven_plan Examples.tied_plan in
  let run P :=
    Generator.stream_plans_ndjson Examples.repr Examples.detected P
      walk None in
  let worded P :=
    render Examples.repr Examples.detected P 1
      (SpecCadence.kept (Generator.samples P) (Generator.steps_between P)
         (Generator.burn_in P) (Generator.thin P)
         (Generator.chain_states P walk)) in
  let none_asked := Generator.mkParams 0 100 (2 # 100) 24 1 2 in
  let negative := Generator.mkParams 2 0 (2 # 100) 24 (-1) 2 in
  (worded none_asked = EmptyString /\
   Generator.plans_saved (run none_asked) = 1%Z /\
   Generator.store (run none_asked) <> Some (worded none_asked)) /\
  (Generator.outcome (run negative) = Py.Ok Json.JNull /\
   Generator.plans_saved (run negative) = 2%Z /\
   Generator.store (run negative) <> Some (worded negative)).
Proof.
  repeat split; try (vm_compute; reflexivity);
    intro H; vm_compute in H; discriminate H.
Qed.

(** ** C1: generation-time and analysis-time seat tallies *)

Section SeatTallies.
Import PyDict Gerry Generator Analyzer.
Variable g : Graph.

Lemma vote_of_node_value (key : string) (n : Z) (attr : attrs) :
  get (nodes g) n = Some attr -> vote_of attr key = node_value g key n.
Proof.
  intro H. unfold vote_of, node_value. rewrite H.
  destruct (attr_get attr key) as [[q| |]|]; reflexivity.
Qed.

Lemma tallied_step (key : string) (ps : dict (list Z)) (d : dict Q)
    (n dist : Z) :
  tallied g key ps d ->
  tallied g key (upd [] (fun ns => ns ++ [n]) ps dist)
          (fadd d dist (node_value g key n)).
Proof.
  unfold tallied, fadd. intro H.
  induction H as [|[k ns] [k' v] ps d [Hk Hv] Hrest IH]; simpl.
  - constructor; [|constructor]. simpl. split; [reflexivity|]. ring.
  - simpl in Hk, Hv. subst k'.
    destruct (Z.eqb dist k).
    + constructor; [|exact Hrest]. simpl. split; [reflexivity|].
      rewrite map_app, Qsum_app, Hv. simpl. ring.
    + constructor; [|exact IH]. simpl. split; [reflexivity | exact Hv].
Qed.

Lemma tallied_fold (dk rk : string) (a : dict Z) :
  on_graph g a ->
  forall ps t,
    tallied g dk ps (dem_by_dist t) ->
    tallied g rk ps (rep_by_dist t) ->
    let ps' := fold_left (fun acc (item : Z * Z) =>
                            upd [] (fun ns => ns ++ [fst item]) acc (snd item))
                         a ps in
    let t' := fold_left (aggregate_step g dk rk) a t in
    tallied g dk ps' (dem_by_dist t') /\ tallied g rk ps' (rep_by_dist t').
Proof.
  induction a as [|[n dist] a IH]; intros Hon ps t Hd Hr; simpl.
  - split; assumption.
  - assert (Hn : get (nodes g) n <> None)
      by (apply (Hon (n, dist)); left; reflexivity).
    destruct (get (nodes g) n) as [attr|] eqn:E; [|congruence].
    apply IH.
    + intros item Hin. apply Hon. right. exact Hin.
    + simpl. rewrite (vote_of_node_value dk n attr E).
      apply tallied_step. exact Hd.
    + simpl. rewrite (vote_of_node_value rk n attr E).
      apply tallied_step. exact Hr.
Qed.

Lemma tallied_keys (key : string) (ps : dict (list Z)) (d : dict Q) :
  tallied g key ps d -> keys d = keys ps.
Proof.
  unfold tallied, keys.
  induction 1 as [|[k ns] [k' v] ps d [Hk _] _ IH]; simpl.
  - reflexivity.
  - simpl in Hk. rewrite Hk, IH. reflexivity.
Qed.

Lemma tallied_fget (key : string) (ps : dict (list Z)) (d : dict Q) (k : Z) :
  tallied g key ps d ->
  fget d k
  == fget (map (fun part : Z * list Z =>
                  (fst part, Qsum (map (node_value g key) (snd part)))) ps) k.
Proof.
  unfold tallied, fget.
  induction 1 as [|[k1 ns] [k2 v] ps d [Hk Hv] _ IH]; simpl.
  - reflexivity.
  - simpl in Hk, Hv. subst k2. destruct (Z.eqb k k1); [exact Hv | exact IH].
Qed.

Lemma gop_seats_fold (D R D' R' : dict Q) (ks : list Z) (c : seat_counts) :
  (forall k, fget D k == fget D' k) ->
  (forall k, fget R k == fget R' k) ->
  gop_seats (fold_left (seat_step D R) ks c)
  = fold_left Z.add
      (map (fun d => if Qlt_bool (fget D' d) (fget R' d) then 1%Z else 0%Z)
           ks)
      (gop_seats c).
Proof.
  intros HD HR. revert c.
  induction ks as [|k ks IH]; intro c; simpl; [reflexivity|].
  rewrite IH. f_equal. unfold seat_step.
  rewrite <- (HD k), <- (HR k).
  destruct (Qlt_bool (fget R k) (fget D k)) eqn:E1;
    destruct (Qlt_bool (fget D k) (fget R k)) eqn:E2; simpl; try lia.
  apply Qlt_bool_iff in E1. apply Qlt_bool_iff in E2.
  exfalso. apply (Qlt_irrefl (fget D k)).
  eapply Qlt_trans; eassumption.
Qed.
End SeatTallies.




(** ** C7: the contiguity check *)

Lemma mem_iff (x : Z) (l : list Z) : Generator.mem x l = true <-> In x l.
Proof.
  unfold Generator.mem. rewrite existsb_exists. split.
  - intros (y & Hy & E). apply Z.eqb_eq in E. subst y. exact Hy.
  - intro H. exists x. split; [exact H | apply Z.eqb_refl].
Qed.

Lemma adjacent_sym (g : Gerry.Graph) (u v : Z) :
  Generator.adjacent g u v = Generator.adjacent g v u.
Proof.
  unfold Generator.adjacent.
  induction (Gerry.edges g) as [|e es IH]; simpl; [reflexivity|].
  rewrite IH. f_equal. apply orb_comm.
Qed.

Section Search.
Import Generator.
Variable g : Gerry.Graph.
Variable sub : list Z.
Variable source : Z.
Hypothesis sub_nodup : NoDup sub.

Let reach := clos_refl_trans Z (edge_in g sub).

Lemma edge_in_sym (u v : Z) : edge_in g sub u v -> edge_in g sub v u.
Proof.
  intros (Hu & Hv & A). repeat split; try assumption.
  rewrite adjacent_sym. exact A.
Qed.

Lemma reach_sym (u v : Z) : reach u v -> reach v u.
Proof.
  unfold reach. induction 1 as [x y E|x|x y z _ IH1 _ IH2].
  - apply rt_step. apply edge_in_sym. exact E.
  - apply rt_refl.
  - eapply rt_trans; eassumption.
Qed.

Lemma next_level_spec (seen level : list Z) (w : Z) :
  In w (filter (fun w => negb (mem w seen)
                         && existsb (fun v => adjacent g v w) level) sub)
  <-> In w sub /\ ~ In w seen /\
      exists v, In v level /\ adjacent g v w = true.
Proof.
  rewrite filter_In, andb_true_iff, negb_true_iff, existsb_exists.
  split.
  - intros (Hs & Hm & Hv). repeat split; try assumption.
    intro Hin. apply mem_iff in Hin. congruence.
  - intros (Hs & Hm & Hv). repeat split; try assumption.
    destruct (mem w seen) eqn:E; [|reflexivity].
    apply mem_iff in E. contradiction.
Qed.

Lemma bfs_invariant_step (seen level : list Z) :
  bfs_invariant g sub source seen level ->
  let nextlevel :=
    filter (fun w => negb (mem w seen)
                     && existsb (fun v => adjacent g v w) level) sub in
  bfs_invariant g sub source (seen ++ nextlevel) nextlevel.
Proof.
  intros (Hnd & Hsub & Hlv & Hsrc & Hreach & Hclosed) nextlevel.
  repeat split.
  - apply NoDup_app; [exact Hnd | apply NoDup_filter; exact sub_nodup |].
    intros a Ha Hn. apply next_level_spec in Hn. tauto.
  - intros a Ha. apply in_app_or in Ha. destruct Ha as [Ha|Ha].
    + apply Hsub. exact Ha.
    + apply next_level_spec in Ha. tauto.
  - intros a Ha. apply in_or_app. right. exact Ha.
  - apply in_or_app. left. exact Hsrc.
  - intros u Hu. apply in_app_or in Hu. destruct Hu as [Hu|Hu].
    + apply Hreach. exact Hu.
    + apply next_level_spec in Hu. destruct Hu as (Hs & _ & v & Hv & A).
      eapply rt_trans; [apply Hreach, Hlv, Hv|].
      apply rt_step. repeat split; try assumption.
      apply Hsub, Hlv, Hv.
  - intros u w Hu Hnl Hw A. apply in_or_app.
    apply in_app_or in Hu. destruct Hu as [Hu|Hu]; [|contradiction].
    destruct (mem w seen) eqn:Ew; [left; apply mem_iff; exact Ew|].
    assert (Hnw : ~ In w seen).
    { intro Hin. apply mem_iff in Hin. congruence. }
    destruct (mem u level) eqn:El.
    + right. apply next_level_spec. repeat split; try assumption.
      exists u. split; [apply mem_iff; exact El | exact A].
    + left. apply (Hclosed u w); try assumption.
      intro Hin. apply mem_iff in Hin. congruence.
Qed.

(** With enough fuel the search ends on a set closed under adjacency. *)
Lemma plain_bfs_closed (fuel : nat) (seen level : list Z) :
  bfs_invariant g sub source seen level ->
  level = [] \/ (List.length sub - List.length seen < fuel)%nat ->
  bfs_invariant g sub source (plain_bfs g sub fuel seen level) [].
Proof.
  revert seen level.
  induction fuel as [|fuel IH]; intros seen level Inv Hf.
  - destruct Hf as [->|Hf]; [exact Inv | lia].
  - destruct level as [|v level'] eqn:El.
    + exact Inv.
    + cbn [plain_bfs].
      set (nextlevel :=
             filter (fun w => negb (mem w seen)
                              && existsb (fun x => adjacent g x w)
                                         (v :: level')) sub).
      pose proof (bfs_invariant_step seen (v :: level') Inv) as Inv'.
      cbv zeta in Inv'. fold nextlevel in Inv'.
      apply IH; [exact Inv'|].
      destruct nextlevel as [|w nl] eqn:En; [left; reflexivity|].
      right. destruct Hf as [Hf|Hf]; [discriminate|].
      destruct Inv' as (Hnd & Hsub & _).
      pose proof (NoDup_incl_length Hnd Hsub) as Hle.
      rewrite length_app in *. simpl in *. lia.
Qed.

Lemma closed_contains_reach (r : list Z) (u v : Z) :
  (forall a w, In a r -> In w sub -> adjacent g a w = true -> In w r) ->
  reach u v -> In u r -> In v r.
Proof.
  intros Hclosed. unfold reach.
  induction 1 as [x y (Hx & Hy & A)|x|x y z _ IH1 _ IH2]; intro Hin.
  - apply (Hclosed x y); assumption.
  - exact Hin.
  - apply IH2, IH1, Hin.
Qed.

End Search.

Lemma is_connected_iff (g : Gerry.Graph) (sub : list Z) :
  NoDup sub ->
  (Generator.is_connected g sub = true <->
   sub <> [] /\
   forall u v, In u sub -> In v sub ->
               clos_refl_trans Z (edge_in g sub) u v).
Proof.
  intro Hnd. unfold Generator.is_connected.
  destruct sub as [|src rest].
  { split; [discriminate | intros [H _]; congruence]. }
  set (sub := src :: rest) in *.
  assert (Hsrc : In src sub) by (left; reflexivity).
  assert (Inv0 : bfs_invariant g sub src [src] [src]).
  { repeat split.
    - constructor; [intros [] | constructor].
    - intros a [<-|[]]. exact Hsrc.
    - apply incl_refl.
    - left. reflexivity.
    - intros u [<-|[]]. apply rt_refl.
    - intros u w Hu Hnot. contradiction. }
  pose proof (plain_bfs_closed g sub src Hnd (S (List.length sub))
                [src] [src] Inv0) as Fin.
  destruct Fin as (Hnd_r & Hsub_r & _ & Hsrc_r & Hreach_r & Hclosed_r).
  { right. simpl. lia. }
  set (r := Generator.plain_bfs g sub (S (List.length sub)) [src] [src]) in *.
  assert (Hclosed : forall a w, In a r -> In w sub ->
                                Generator.adjacent g a w = true -> In w r).
  { intros a w Ha Hw A. apply (Hclosed_r a w); auto. }
  rewrite Nat.eqb_eq. split.
  - intro Hlen. split; [discriminate|].
    assert (Hall : incl sub r).
    { apply NoDup_length_incl; [exact Hnd_r | lia | exact Hsub_r]. }
    intros u v Hu Hv.
    eapply rt_trans.
    + apply reach_sym. apply Hreach_r. apply Hall. exact Hu.
    + apply Hreach_r. apply Hall. exact Hv.
  - intros [_ Hconn].
    assert (Hall : incl sub r).
    { intros v Hv.
      apply (closed_contains_reach g sub r src v Hclosed
               (Hconn src v Hsrc Hv) Hsrc_r). }
    pose proof (NoDup_incl_length Hnd_r Hsub_r).
    pose proof (NoDup_incl_length Hnd Hall).
    lia.
Qed.

(** *** The parts of a plan *)

Lemma In_get {V : Type} (d : PyDict.dict V) (k : Z) (v : V) :
  NoDup (PyDict.keys d) -> (In (k, v) d <-> PyDict.get d k = Some v).
Proof.
  unfold PyDict.keys. induction d as [|[k0 v0] d IH]; simpl; intro H.
  - split; [tauto | discriminate].
  - inversion H as [|? ? Hn Hd]; subst.
    destruct (Z.eqb k k0) eqn:E.
    + apply Z.eqb_eq in E. subst k0. split.
      * intros [[= ->]|Hin]; [reflexivity|].
        exfalso. apply Hn. apply (in_map fst _ _ Hin).
      * intros [= ->]. left. reflexivity.
    + apply Z.eqb_neq in E. rewrite <- (IH Hd). split.
      * intros [[= ? ?]|Hin]; [congruence | exact Hin].
      * intro Hin. right. exact Hin.
Qed.
Section Upd.
Import PyDict.
Context {V : Type}.
Variable dflt : V.
Variable f : V -> V.

Lemma get_upd (d : dict V) (k k' : Z) :
  get (upd dflt f d k) k'
  = if Z.eqb k' k
    then Some (f (match get d k with Some v => v | None => dflt end))
    else get d k'.
Proof.
  induction d as [|[k0 v0] d IH]; simpl.
  - destruct (Z.eqb k' k); reflexivity.
  - destruct (Z.eqb k k0) eqn:E0; simpl.
    + apply Z.eqb_eq in E0. subst k0.
      destruct (Z.eqb k' k); reflexivity.
    + rewrite IH. destruct (Z.eqb k' k) eqn:E1; [|reflexivity].
      apply Z.eqb_eq in E1. subst k'. rewrite E0. reflexivity.
Qed.

Lemma keys_upd (d : dict V) (k : Z) :
  keys (upd dflt f d k) = keys d \/
  (~ In k (keys d) /\ keys (upd dflt f d k) = keys d ++ [k]).
Proof.
  unfold keys. induction d as [|[k0 v0] d IH]; simpl.
  - right. split; [tauto | reflexivity].
  - destruct (Z.eqb k k0) eqn:E0; simpl.
    + left. reflexivity.
    + apply Z.eqb_neq in E0.
      destruct IH as [IH|[Hn IH]]; rewrite IH.
      * left. reflexivity.
      * right. split; [|reflexivity]. intros [H|H]; [congruence | tauto].
Qed.

Lemma NoDup_keys_upd (d : dict V) (k : Z) :
  NoDup (keys d) -> NoDup (keys (upd dflt f d k)).
Proof.
  intro H. destruct (keys_upd d k) as [E|[Hn E]]; rewrite E.
  - exact H.
  - apply NoDup_app; [exact H | constructor; [intros [] | constructor] |].
    intros a Ha [<-|[]]. contradiction.
Qed.

End Upd.

Section Parts.
Import PyDict Generator.

Let parts_of (a : dict Z) : dict (list Z) :=
  fold_left (fun acc (item : Z * Z) =>
               upd [] (fun ns => ns ++ [fst item]) acc (snd item)) a [].

Lemma In_members_of (a : dict Z) (d v : Z) :
  In v (members_of a d) <-> In (v, d) a.
Proof.
  unfold members_of. rewrite in_map_iff. split.
  - intros ([n d'] & <- & Hin). apply filter_In in Hin. simpl in *.
    destruct Hin as [Hin E]. apply Z.eqb_eq in E. subst d'. exact Hin.
  - intro Hin. exists (v, d). split; [reflexivity|].
    apply filter_In. split; [exact Hin | apply Z.eqb_refl].
Qed.

Lemma parts_of_spec (a : dict Z) :
  NoDup (keys (parts_of a)) /\
  forall d, get (parts_of a) d
            = match members_of a d with
              | [] => None
              | ns => Some ns
              end.
Proof.
  unfold parts_of. induction a as [|[n d0] a IH] using rev_ind.
  - split; [constructor | reflexivity].
  - destruct IH as [Hnd Hget]. rewrite fold_left_app. cbn [fold_left fst snd].
    split; [apply NoDup_keys_upd; exact Hnd|].
    intro d. rewrite get_upd, !Hget.
    unfold members_of. rewrite filter_app, map_app. cbn [filter snd].
    fold (members_of a d0). fold (members_of a d).
    rewrite (Z.eqb_sym d d0).
    destruct (Z.eqb d0 d) eqn:E.
    + apply Z.eqb_eq in E. subst d0. cbn [map fst].
      destruct (members_of a d); reflexivity.
    + cbn [map]. rewrite app_nil_r. reflexivity.
Qed.

Lemma In_parts (p : Partition) (d : Z) (ns : list Z) :
  In (d, ns) (parts p) <->
  ns = members_of (assignment p) d /\ ns <> [].
Proof.
  destruct (parts_of_spec (assignment p)) as [Hnd Hget].
  change (parts_of (assignment p)) with (parts p) in *.
  rewrite (In_get (parts p) d ns Hnd), Hget.
  destruct (members_of (assignment p) d) as [|m ms]; split.
  - discriminate.
  - intros [-> H]. congruence.
  - intros [= <-]. split; [reflexivity | discriminate].
  - intros [-> _]. reflexivity.
Qed.
End Parts.

Lemma clos_refl_trans_ext (R R' : Z -> Z -> Prop) (x y : Z) :
  (forall a b, R a b -> R' a b) ->
  clos_refl_trans Z R x y -> clos_refl_trans Z R' x y.
Proof.
  intro H. induction 1 as [a b E|a|a b c _ IH1 _ IH2].
  - apply rt_step. apply H. exact E.
  - apply rt_refl.
  - eapply rt_trans; eassumption.
Qed.

Section Contiguity.
Import PyDict Gerry Generator SpecContiguity.
Variable p : Partition.

Lemma In_subgraph (d v : Z) :
  In v (subgraph (graph p) (members_of (assignment p) d)) <-> member p d v.
Proof.
  unfold subgraph, member.
  rewrite nodup_In, filter_In, mem_iff, In_members_of. tauto.
Qed.

Lemma district_check (d : Z) :
  let sub := subgraph (graph p) (members_of (assignment p) d) in
  negb (Nat.eqb (List.length sub) 0 || negb (is_connected (graph p) sub))
  = true
  <-> district_passes p d.
Proof.
  intro sub.
  assert (Hnd : NoDup sub) by apply NoDup_nodup.
  assert (Hedge : forall u v,
             edge_in (graph p) sub u v <-> induced_edge p d u v).
  { intros u v. unfold edge_in, induced_edge, sub.
    rewrite !In_subgraph. tauto. }
  rewrite negb_true_iff, orb_false_iff, negb_false_iff.
  pose proof (is_connected_iff (graph p) sub Hnd) as C.
  unfold district_passes, single_component. split.
  - intros [_ Hc]. apply C in Hc. destruct Hc as [Hne Hc]. split.
    + destruct sub as [|v rest] eqn:E; [congruence|].
      exists v. apply In_subgraph. fold sub. rewrite E. left. reflexivity.
    + intros u v Hu Hv.
      apply (clos_refl_trans_ext (edge_in (graph p) sub)).
      * intros a b. apply Hedge.
      * apply Hc; apply In_subgraph; assumption.
  - intros [[v Hv] Hc].
    assert (Hin : In v sub) by (apply In_subgraph; exact Hv).
    split.
    + destruct sub; [destruct Hin | reflexivity].
    + apply C. split; [intro E; rewrite E in Hin; destruct Hin|].
      intros a b Ha Hb.
      apply (clos_refl_trans_ext (induced_edge p d)).
      * intros x y. apply Hedge.
      * apply Hc; apply In_subgraph; assumption.
Qed.
End Contiguity.

Lemma is_partition_contiguous_spec (p : Generator.Partition) :
  Generator.is_partition_contiguous p = true <-> SpecContiguity.contiguous p.
Proof.
  unfold Generator.is_partition_contiguous, SpecContiguity.contiguous.
  rewrite forallb_forall. split.
  - intros H d [n Hn].
    apply district_check. apply H.
    unfold PyDict.values. apply in_map_iff.
    exists (d, members_of (Generator.assignment p) d).
    split; [reflexivity|]. apply In_parts. split; [reflexivity|].
    apply In_members_of in Hn. intro E. rewrite E in Hn. destruct Hn.
  - intros H ns Hin. unfold PyDict.values in Hin.
    apply in_map_iff in Hin. destruct Hin as ([d ns'] & <- & Hin).
    apply In_parts in Hin. destruct Hin as [-> Hne]. cbn [snd].
    apply district_check. apply H.
    destruct (members_of (Generator.assignment p) d) as [|n ms] eqn:E;
      [congruence|].
    exists n. apply In_members_of. rewrite E. left. reflexivity.
Qed.

(** C7.  For every graph and plan, [is_partition_contiguous] returns true
    if and only if every district of the plan has at least one member
    node and any two of its members are joined by a path of edges between
    members.  In particular it returns false as soon as one district
    holds two members with no such path between them, and true when
    every district's members form one connected set. *)
Theorem is_partition_contiguous_iff (p : Generator.Partition) :
  (Generator.is_partition_contiguous p = true <-> SpecContiguity.contiguous p)
  /\
  (forall d u v,
      SpecContiguity.member p d u -> SpecContiguity.member p d v ->
      ~ clos_refl_trans Z (SpecContiguity.induced_edge p d) u v ->
      Generator.is_partition_contiguous p = false).
Proof.
  split; [apply is_partition_contiguous_spec|].
  intros d u v Hu Hv Hno.
  destruct (Generator.is_partition_contiguous p) eqn:E; [|reflexivity].
  exfalso. apply Hno.
  apply is_partition_contiguous_spec in E.
  destruct (E d) as [_ Hc].
  - exists u. exact (proj1 Hu).
  - apply Hc; assumption.
Qed.

(** On the path 1-2-3-4 the plan with districts 1,3 and 2,4 puts nodes 1
    and 3, which no edge between members joins, into one district. *)
Lemma is_partition_contiguous_iff_witness :
  Generator.is_partition_contiguous Examples.split_plan = false.
Proof.
  apply (proj2 (is_partition_contiguous_iff Examples.split_plan) 1 1 3)%Z.
  - split; simpl; tauto.
  - split; simpl; tauto.
  - intro H. apply clos_rt_rt1n in H.
    inversion H as [|y z (_ & (Hy & _) & A) _]; subst.
    simpl in Hy.
    destruct Hy as [Hy|[Hy|[Hy|[Hy|[]]]]]; try discriminate Hy;
      injection Hy as <-; vm_compute in A; discriminate A.
Defined.

(** On the path 1-2-3-4: districts 1-2 and 3-4 pass, districts 1,3 and
    2,4 are two disconnected clusters each and fail. *)
Example is_partition_contiguous_examples :
  Generator.is_partition_contiguous Examples.tied_plan = true /\
  Generator.is_partition_contiguous Examples.uneven_plan = true /\
  Generator.is_partition_contiguous Examples.split_plan = false.
Proof. vm_compute. repeat split. Qed.


(** * Further properties of the analyzer and the generator *)

(** ** District shares *)

Section Shares.
Import PyDict Analyzer Metrics.
Variables dem rep : dict Q.

Lemma share_fold (ks : list Z) (acc : list Q) :
  fold_left (share_step dem rep) ks acc
  = acc ++ map (share_of dem rep) (filter (qualifies dem rep) ks).
Proof.
  revert acc. induction ks as [|d ks IH]; intro acc; simpl.
  - rewrite app_nil_r. reflexivity.
  - rewrite IH. unfold share_step, qualifies at 2, share_of at 2.
    destruct (Qle_bool (fget dem d + fget rep d) 0); simpl.
    + reflexivity.
    + rewrite <- app_assoc. reflexivity.
Qed.

Lemma district_shares_spec :
  district_shares dem rep
  = map (share_of dem rep) (filter (qualifies dem rep) (keys dem)).
Proof. unfold district_shares. rewrite share_fold. reflexivity. Qed.

Lemma pb_shares_fold (ks : list Z) (acc : pb_acc) :
  shares (fold_left (pb_step dem rep) ks acc)
  = shares acc ++ map (share_of dem rep) (filter (qualifies dem rep) ks).
Proof.
  revert acc. induction ks as [|d ks IH]; intro acc; simpl.
  - rewrite app_nil_r. reflexivity.
  - rewrite IH. unfold pb_step, qualifies at 2, share_of at 2.
    destruct (Qle_bool (fget dem d + fget rep d) 0); simpl.
    + reflexivity.
    + rewrite <- app_assoc. reflexivity.
Qed.

Lemma eg_fold_none (ks : list Z) (acc : eg_acc) :
  filter (qualifies dem rep) ks = [] ->
  fold_left (eg_step dem rep) ks acc = acc.
Proof.
  revert acc. induction ks as [|d ks IH]; intros acc H; simpl.
  - reflexivity.
  - simpl in H. unfold qualifies at 1 in H.
    unfold eg_step at 2.
    destruct (Qle_bool (fget dem d + fget rep d) 0); simpl in *.
    + apply IH. exact H.
    + discriminate.
Qed.

Lemma no_district_qualifies :
  (forall d, In d (keys dem) -> fget dem d + fget rep d <= 0) <->
  filter (qualifies dem rep) (keys dem) = [].
Proof.
  split.
  - intro H. induction (keys dem) as [|d ks IH]; simpl; [reflexivity|].
    unfold qualifies at 1.
    replace (Qle_bool (fget dem d + fget rep d) 0) with true.
    + simpl. apply IH. intros x Hx. apply H. right. exact Hx.
    + symmetry. apply Qle_bool_iff. apply H. left. reflexivity.
  - intros H d Hd.
    destruct (Qle_bool (fget dem d + fget rep d) 0) eqn:E.
    + apply Qle_bool_iff. exact E.
    + exfalso.
      assert (Hin : In d (filter (qualifies dem rep) (keys dem))).
      { apply filter_In. split; [exact Hd|]. unfold qualifies.
        rewrite E. reflexivity. }
      rewrite H in Hin. destruct Hin.
Qed.
End Shares.

(** X1.  The efficiency gap, the mean-median difference and the partisan
    bias are not-a-number on exactly the same tallies: those in which no
    district has a positive two-party total. *)
Theorem metrics_nan_together (dem rep : PyDict.dict Q) :
  let no_votes :=
    forall d, In d (PyDict.keys dem) ->
              PyDict.fget dem d + PyDict.fget rep d <= 0 in
  (Analyzer.compute_efficiency_gap dem rep = None <-> no_votes) /\
  (Metrics.compute_mean_median dem rep = None <-> no_votes) /\
  (Analyzer.compute_partisan_bias dem rep = None <-> no_votes) /\
  (Metrics.declination_arguments dem rep <> None -> ~ no_votes).
Proof.
  intro no_votes. unfold no_votes. rewrite no_district_qualifies.
  set (q := filter (Metrics.qualifies dem rep) (PyDict.keys dem)).
  assert (Hsome : q <> [] ->
            exists d, In d (PyDict.keys dem) /\
                      0 < PyDict.fget dem d + PyDict.fget rep d).
  { intro Hne. destruct q as [|d q'] eqn:E; [congruence|].
    assert (Hin : In d q) by (rewrite E; left; reflexivity).
    apply filter_In in Hin. destruct Hin as [Hin Hq].
    exists d. split; [exact Hin|]. apply Qlt_bool_iff. exact Hq. }
  repeat split.
  - intro H. destruct q as [|d0 q0] eqn:E; [reflexivity|]. exfalso.
    pose proof (Qsum_qualifying_pos dem rep (PyDict.keys dem)
                : q <> [] ->
                  0 < Qsum (map (fun d => PyDict.fget dem d
                                          + PyDict.fget rep d) q))
      as Hpos.
    rewrite E in Hpos. specialize (Hpos ltac:(discriminate)).
    unfold Analyzer.compute_efficiency_gap in H.
    destruct (eg_fold dem rep (PyDict.keys dem) (Analyzer.mkEgAcc 0 0 0))
      as (_ & _ & H3).
    simpl in H3.
    match type of H with
    | (if Qeq_bool ?x 0 then _ else _) = _ =>
        destruct (Qeq_bool x 0) eqn:Ez; [|discriminate]
    end.
    apply Qeq_bool_iff in Ez. rewrite H3 in Ez.
    assert (Hsame :
              Qsum (map (fun t : Q * Q => fst t + snd t)
                      (filter SpecMetrics.qualifying
                         (map (fun d => (PyDict.fget dem d,
                                         PyDict.fget rep d))
                              (PyDict.keys dem))))
              == Qsum (map (fun d => PyDict.fget dem d + PyDict.fget rep d)
                           (d0 :: q0))).
    { rewrite <- E. unfold q. clear.
      induction (PyDict.keys dem) as [|d ks IH]; simpl; [reflexivity|].
      unfold SpecMetrics.qualifying at 1, Metrics.qualifies at 1. simpl.
      destruct (Qle_bool (PyDict.fget dem d + PyDict.fget rep d) 0);
        simpl; rewrite IH; reflexivity. }
    rewrite Hsame in Ez. lra.
  - intro H. unfold Analyzer.compute_efficiency_gap.
    rewrite (eg_fold_none dem rep _ _ H). reflexivity.
  - unfold Metrics.compute_mean_median. rewrite district_shares_spec.
    fold q. destruct q; [reflexivity|]. simpl. discriminate.
  - unfold Metrics.compute_mean_median. rewrite district_shares_spec.
    fold q. intros ->. reflexivity.
  - intro H. destruct q as [|d0 q0] eqn:E; [reflexivity|]. exfalso.
    destruct (partisan_bias_range_aux dem rep) as (v & Hv & _).
    + apply Hsome. discriminate.
    + congruence.
  - intro H. unfold Analyzer.compute_partisan_bias.
    rewrite pb_shares_fold. fold q. rewrite H. reflexivity.
  - intros H E. apply H. unfold Metrics.declination_arguments.
    rewrite district_shares_spec. fold q. rewrite E. reflexivity.
Qed.

(** ** Competitive districts *)

Section Competitiveness.
Import PyDict Metrics.
Variables dem rep : dict Q.

Lemma competitive_fold_monotone (low high low' high' : Q) (ks : list Z)
    (c c' : Z) :
  low <= low' -> high' <= high -> (c' <= c)%Z ->
  (fold_left (competitive_step dem rep low' high') ks c'
   <= fold_left (competitive_step dem rep low high) ks c)%Z.
Proof.
  intros Hl Hh. revert c c'.
  induction ks as [|d ks IH]; intros c c' Hc; simpl; [exact Hc|].
  apply IH. unfold competitive_step.
  destruct (Qle_bool (fget dem d + fget rep d) 0); [exact Hc|].
  destruct (Qle_bool low' (fget dem d / (fget dem d + fget rep d))
            && Qle_bool (fget dem d / (fget dem d + fget rep d)) high')
    eqn:E'.
  - apply andb_true_iff in E'. destruct E' as [E1 E2].
    apply Qle_bool_iff in E1. apply Qle_bool_iff in E2.
    replace (Qle_bool low (fget dem d / (fget dem d + fget rep d))) with true
      by (symmetry; apply Qle_bool_iff; eapply Qle_trans; eassumption).
    replace (Qle_bool (fget dem d / (fget dem d + fget rep d)) high)
      with true
      by (symmetry; apply Qle_bool_iff; eapply Qle_trans; eassumption).
    simpl. lia.
  - destruct (Qle_bool low (fget dem d / (fget dem d + fget rep d))
              && Qle_bool (fget dem d / (fget dem d + fget rep d)) high);
      lia.
Qed.

Lemma competitive_fold_bounds (low high : Q) (ks : list Z) (c : Z) :
  (c <= fold_left (competitive_step dem rep low high) ks c
   <= c + Z.of_nat (List.length (filter (qualifies dem rep) ks)))%Z.
Proof.
  revert c. induction ks as [|d ks IH]; intro c; simpl; [lia|].
  specialize (IH (competitive_step dem rep low high c d)).
  unfold competitive_step in *. unfold qualifies at 1.
  destruct (Qle_bool (fget dem d + fget rep d) 0); simpl; [exact IH|].
  destruct (Qle_bool low (fget dem d / (fget dem d + fget rep d))
            && Qle_bool (fget dem d / (fget dem d + fget rep d)) high);
    lia.
Qed.
End Competitiveness.

(** X2.  Narrowing the band never raises the count of competitive
    districts, and the count lies between zero and the number of
    districts with a positive two-party total. *)
Theorem compute_competitiveness_monotone
    (dem rep : PyDict.dict Q) (low high low' high' : Q) :
  low <= low' -> high' <= high ->
  (0 <= Metrics.compute_competitiveness dem rep low' high'
   <= Metrics.compute_competitiveness dem rep low high)%Z /\
  (Metrics.compute_competitiveness dem rep low high
   <= Z.of_nat (List.length (Metrics.district_shares dem rep)))%Z.
Proof.
  intros Hl Hh. unfold Metrics.compute_competitiveness.
  pose proof (competitive_fold_monotone dem rep low high low' high'
                (PyDict.keys dem) 0 0 Hl Hh ltac:(lia))%Z.
  pose proof (competitive_fold_bounds dem rep low' high'
                (PyDict.keys dem) 0)%Z.
  pose proof (competitive_fold_bounds dem rep low high
                (PyDict.keys dem) 0)%Z.
  rewrite district_shares_spec, length_map. lia.
Qed.

(** The two bands [main] reports, on districts with shares 0.6, 0.45
    and 0.49. *)
Lemma compute_competitiveness_monotone_witness :
  let dem := [(1%Z, 60); (2%Z, 45); (3%Z, 49)] in
  let rep := [(1%Z, 40); (2%Z, 55); (3%Z, 51)] in
  (0 <= Metrics.compute_competitiveness dem rep (48 # 100) (52 # 100)
   <= Metrics.compute_competitiveness dem rep (45 # 100) (55 # 100))%Z /\
  (Metrics.compute_competitiveness dem rep (45 # 100) (55 # 100)
   <= Z.of_nat (List.length (Metrics.district_shares dem rep)))%Z.
Proof.
  intros dem rep.
  apply (compute_competitiveness_monotone dem rep
           (45 # 100) (55 # 100) (48 # 100) (52 # 100)).
  - vm_compute. discriminate.
  - vm_compute. discriminate.
Defined.

(** ** Sorted shares: mean-median and declination *)

Lemma py_sum_from (l : list Q) (a : Q) : fold_left Qplus l a == a + Qsum l.
Proof.
  revert a. induction l as [|x l IH]; intro a; simpl.
  - ring.
  - rewrite IH. ring.
Qed.

Lemma py_sum_Qsum (l : list Q) : Metrics.py_sum l == Qsum l.
Proof. unfold Metrics.py_sum. rewrite py_sum_from. ring. Qed.

Lemma inject_nat_succ (n : nat) :
  inject_Z (Z.of_nat (S n)) == inject_Z (Z.of_nat n) + 1.
Proof. rewrite Nat2Z.inj_succ, <- Z.add_1_r, inject_Z_plus. reflexivity. Qed.

Lemma inject_nat_pos (n : nat) : (0 < n)%nat -> 0 < inject_Z (Z.of_nat n).
Proof.
  intro H. change 0 with (inject_Z 0). rewrite <- Zlt_Qlt. lia.
Qed.

Lemma Qsum_all_le (h : Q) (l : list Q) :
  Forall (fun s => s <= h) l ->
  Qsum l <= inject_Z (Z.of_nat (List.length l)) * h.
Proof.
  induction 1 as [|x l Hx _ IH].
  - cbn [Qsum fold_right List.length Z.of_nat].
    change (inject_Z 0) with 0. rewrite Qmult_0_l. apply Qle_refl.
  - cbn [Qsum fold_right List.length]. fold (Qsum l).
    rewrite inject_nat_succ.
    setoid_replace ((inject_Z (Z.of_nat (List.length l)) + 1) * h)
      with (inject_Z (Z.of_nat (List.length l)) * h + h) by ring.
    lra.
Qed.

Lemma Qsum_all_gt (h : Q) (l : list Q) :
  l <> [] -> Forall (fun s => h < s) l ->
  inject_Z (Z.of_nat (List.length l)) * h < Qsum l.
Proof.
  intros Hne H. induction H as [|x l Hx Hl IH]; [congruence|].
  cbn [Qsum fold_right List.length]. fold (Qsum l).
  rewrite inject_nat_succ.
  setoid_replace ((inject_Z (Z.of_nat (List.length l)) + 1) * h)
    with (inject_Z (Z.of_nat (List.length l)) * h + h) by ring.
  destruct l as [|y l'].
  - cbn [Qsum fold_right List.length Z.of_nat].
    change (inject_Z 0) with 0. lra.
  - specialize (IH ltac:(discriminate)). lra.
Qed.

Lemma Qle_bool_transitive : Transitive (fun x y => is_true (Qle_bool x y)).
Proof.
  intros x y z H1 H2. unfold is_true in *.
  apply Qle_bool_iff in H1. apply Qle_bool_iff in H2.
  apply Qle_bool_iff. eapply Qle_trans; eassumption.
Qed.

(** In an ascending list the elements up to a bound come first. *)
Lemma sorted_split (h : Q) (l : list Q) :
  StronglySorted (fun x y => is_true (Qle_bool x y)) l ->
  let k := List.length (filter (fun s => Qle_bool s h) l) in
  Forall (fun s => s <= h) (firstn k l) /\
  Forall (fun s => h < s) (skipn k l).
Proof.
  induction 1 as [|x l Hs IH Hx]; [split; constructor|].
  cbn [filter]. destruct (Qle_bool x h) eqn:E.
  - cbn [List.length firstn skipn]. destruct IH as [IH1 IH2].
    split; [|exact IH2]. constructor; [|exact IH1].
    apply Qle_bool_iff. exact E.
  - assert (Hx' : h < x).
    { apply Qnot_le_lt. intro H. apply Qle_bool_iff in H. congruence. }
    assert (Hall : Forall (fun s => h < s) l).
    { apply Forall_forall. intros y Hy.
      rewrite Forall_forall in Hx. specialize (Hx y Hy).
      unfold is_true in Hx. apply Qle_bool_iff in Hx.
      eapply Qlt_le_trans; eassumption. }
    assert (Hnone : filter (fun s => Qle_bool s h) l = []).
    { clear - Hall. induction Hall as [|y l Hy _ IHl]; [reflexivity|].
      simpl. destruct (Qle_bool y h) eqn:Ey; [|exact IHl].
      apply Qle_bool_iff in Ey. exfalso.
      apply (Qlt_not_le _ _ Hy Ey). }
    rewrite Hnone. cbn [List.length firstn skipn].
    split; constructor; assumption.
Qed.

Section SortedShares.
Import PyDict Metrics.
Variables dem rep : dict Q.

Let shares := district_shares dem rep.
Let sorted := QSort.sort shares.

Lemma sorted_In (s : Q) : In s sorted <-> In s shares.
Proof.
  unfold sorted. split; intro H.
  - eapply Permutation_in; [apply Permutation_sym, QSort.Permuted_sort|].
    exact H.
  - eapply Permutation_in; [apply QSort.Permuted_sort | exact H].
Qed.

Lemma In_shares (s : Q) :
  In s shares <->
  exists d, In d (keys dem) /\ qualifies dem rep d = true /\
            s = share_of dem rep d.
Proof.
  unfold shares. rewrite district_shares_spec, in_map_iff. split.
  - intros (d & <- & Hd). apply filter_In in Hd.
    exists d. tauto.
  - intros (d & Hin & Hq & ->). exists d. split; [reflexivity|].
    apply filter_In. tauto.
Qed.
End SortedShares.

Lemma filter_length_lt {A : Type} (f : A -> bool) (l : list A) (x : A) :
  In x l -> f x = false ->
  (List.length (filter f l) < List.length l)%nat.
Proof.
  induction l as [|y l IH]; intros Hin Hx; [destruct Hin|].
  simpl. destruct Hin as [->|Hin].
  - rewrite Hx. pose proof (filter_length_bound f l). lia.
  - specialize (IH Hin Hx). destruct (f y); simpl; lia.
Qed.

Lemma filter_length_pos {A : Type} (f : A -> bool) (l : list A) (x : A) :
  In x l -> f x = true -> (0 < List.length (filter f l))%nat.
Proof.
  intros Hin Hx.
  assert (H : In x (filter f l)) by (apply filter_In; tauto).
  destruct (filter f l); [destruct H | simpl; lia].
Qed.

Lemma filter_length_witnesses {A : Type} (f : A -> bool) (l : list A) :
  ((0 < List.length (filter f l))%nat -> exists x, In x l /\ f x = true) /\
  ((List.length (filter f l) < List.length l)%nat ->
   exists x, In x l /\ f x = false).
Proof.
  split.
  - destruct (filter f l) as [|x r] eqn:E; [simpl; lia|]. intros _.
    assert (H : In x (filter f l)) by (rewrite E; left; reflexivity).
    apply filter_In in H. exists x. exact H.
  - induction l as [|y l IH]; simpl; [lia|].
    destruct (f y) eqn:E; simpl; intro H.
    + destruct IH as (x & Hx & Hf); [lia|]. exists x. tauto.
    + exists y. tauto.
Qed.

Lemma declination_arguments_some (dem rep : PyDict.dict Q) :
  let S := QSort.sort (Metrics.district_shares dem rep) in
  let k := List.length (filter (fun s => Qle_bool s (1 # 2)) S) in
  (exists x, Metrics.declination_arguments dem rep = Some x) <->
  (0 < k < List.length S)%nat.
Proof.
  unfold Metrics.declination_arguments.
  destruct (Metrics.district_shares dem rep) as [|s0 ss] eqn:EL.
  - simpl. split; [intros [x H]; discriminate H | lia].
  - rewrite <- EL. cbv zeta.
    set (S := QSort.sort (Metrics.district_shares dem rep)).
    set (k := List.length (filter (fun s => Qle_bool s (1 # 2)) S)).
    pose proof (filter_length_bound (fun s => Qle_bool s (1 # 2)) S) as Hle.
    fold k in Hle.
    destruct (Nat.eqb k 0) eqn:E0; cbn [orb].
    + apply Nat.eqb_eq in E0. split; [intros [x H]; discriminate H | lia].
    + apply Nat.eqb_neq in E0.
      destruct (Nat.eqb k (List.length S)) eqn:En.
      * apply Nat.eqb_eq in En.
        split; [intros [x H]; discriminate H | lia].
      * apply Nat.eqb_neq in En. split; [lia|]. intros _.
        eexists. reflexivity.
Qed.


(** X5.  Whenever the declination is defined, the mean share of the
    party-B-favoring side is at most one half and that of the
    party-A-favoring side is above it, so the first arctangent argument
    is non-negative and the second is positive. *)
Theorem declination_arguments_sign
    (dem rep : PyDict.dict Q) (arg_R arg_D : Q) :
  Metrics.declination_arguments dem rep = Some (arg_R, arg_D) ->
  0 <= arg_R /\ 0 < arg_D.
Proof.
  unfold Metrics.declination_arguments.
  destruct (Metrics.district_shares dem rep) as [|s0 ss] eqn:EL;
    [discriminate|].
  rewrite <- EL.
  set (S := QSort.sort (Metrics.district_shares dem rep)).
  set (f := fun s => Qle_bool s (1 # 2)).
  set (k := List.length (filter f S)).
  set (n := List.length S).
  destruct (Nat.eqb k 0) eqn:E0; [discriminate|].
  destruct (Nat.eqb k n) eqn:En; [discriminate|].
  apply Nat.eqb_neq in E0. apply Nat.eqb_neq in En.
  pose proof (filter_length_bound f S) as Hle. fold k n in Hle.
  intros [= <- <-].
  destruct (sorted_split (1 # 2) S) as [Hlow Hhigh].
  { apply QSort.StronglySorted_sort. exact Qle_bool_transitive. }
  fold f k in Hlow, Hhigh.
  assert (Lk : List.length (firstn k S) = k)
    by (rewrite length_firstn; fold n; lia).
  assert (Lnk : List.length (skipn k S) = (n - k)%nat)
    by (rewrite length_skipn; reflexivity).
  pose proof (Qsum_all_le _ _ Hlow) as Hsum_low. rewrite Lk in Hsum_low.
  assert (Hne : skipn k S <> []).
  { intro H. rewrite H in Lnk. simpl in Lnk. lia. }
  pose proof (Qsum_all_gt _ _ Hne Hhigh) as Hsum_high.
  rewrite Lnk in Hsum_high.
  pose proof (inject_nat_pos k ltac:(lia)) as Hk.
  pose proof (inject_nat_pos (n - k) ltac:(lia)) as Hnk.
  pose proof (inject_nat_pos n ltac:(lia)) as Hn.
  rewrite !py_sum_Qsum.
  split.
  - apply Qle_shift_div_l; [exact Hk|]. rewrite Qmult_0_l.
    apply Qmult_le_0_compat; [|lra].
    assert (Qsum (firstn k S) / inject_Z (Z.of_nat k) <= 1 # 2).
    { apply Qle_shift_div_r; [exact Hk|]. lra. }
    lra.
  - apply Qlt_shift_div_l; [exact Hnk|]. rewrite Qmult_0_l.
    assert (1 # 2 < Qsum (skipn k S) / inject_Z (Z.of_nat (n - k))).
    { apply Qlt_shift_div_l; [exact Hnk|]. lra. }
    apply Qmult_lt_0_compat; lra.
Qed.

Lemma declination_arguments_sign_witness :
  let dem := [(1%Z, 60); (2%Z, 45); (3%Z, 30)] in
  let rep := [(1%Z, 40); (2%Z, 55); (3%Z, 70)] in
  0 <= 15000 # 80000 /\ 0 < 60 # 200.
Proof.
  intros dem rep.
  apply (declination_arguments_sign dem rep (15000 # 80000) (60 # 200)).
  vm_compute. reflexivity.
Defined.

(** ** Range and symmetry of the efficiency gap *)

Lemma wasted_difference_bound (a b : Q) :
  0 <= a -> 0 <= b ->
  let A := Qmax (SpecMetrics.wastedA (a, b)) 0 in
  let B := Qmax (SpecMetrics.wastedB (a, b)) 0 in
  2 * (A - B) <= a + b /\ - (a + b) <= 2 * (A - B).
Proof.
  intros Ha Hb.
  unfold SpecMetrics.wastedA, SpecMetrics.wastedB, SpecMetrics.threshold.
  cbn [fst snd].
  pose proof (Qlt_floor ((a + b) / 2)) as Hfl.
  set (thr := inject_Z (Qfloor ((a + b) / 2) + 1)) in *.
  assert (Eh : a + b == 2 * ((a + b) / 2)) by field.
  assert (Ea : a == 2 * (a / 2)) by field.
  assert (Eb : b == 2 * (b / 2)) by field.
  set (h := (a + b) / 2) in *.
  set (ha := a / 2) in *. set (hb := b / 2) in *.
  assert (Hthr : a + b < 2 * thr) by lra.
  destruct (Qlt_bool b a) eqn:E1; [|destruct (Qlt_bool a b) eqn:E2].
  - apply Qlt_bool_iff in E1. cbv zeta.
    destruct (Q.max_spec (a - thr) 0) as [[?F ?M]|[?F ?M]];
      destruct (Q.max_spec b 0) as [[?F ?M]|[?F ?M]]; rewrite M, M0; split; lra.
  - apply Qlt_bool_iff in E2. cbv zeta.
    destruct (Q.max_spec a 0) as [[?F ?M]|[?F ?M]];
      destruct (Q.max_spec (b - thr) 0) as [[?F ?M]|[?F ?M]]; rewrite M, M0; split; lra.
  - apply Qlt_bool_false_iff in E1. apply Qlt_bool_false_iff in E2.
    cbv zeta.
    destruct (Q.max_spec ha 0) as [[?F ?M]|[?F ?M]];
      destruct (Q.max_spec hb 0) as [[?F ?M]|[?F ?M]]; rewrite M, M0; split; lra.
Qed.

Lemma wasted_sums_bound (l : list (Q * Q)) :
  Forall (fun t => 0 <= fst t /\ 0 <= snd t) l ->
  let A := Qsum (map (fun t => Qmax (SpecMetrics.wastedA t) 0) l) in
  let B := Qsum (map (fun t => Qmax (SpecMetrics.wastedB t) 0) l) in
  let T := Qsum (map (fun t => fst t + snd t) l) in
  2 * (A - B) <= T /\ - T <= 2 * (A - B).
Proof.
  induction 1 as [|[a b] l [Ha Hb] _ IH]; cbv zeta;
    cbn [map Qsum fold_right fst snd].
  - split; lra.
  - cbn [fst snd] in Ha, Hb.
    destruct (wasted_difference_bound a b Ha Hb) as [H1 H2].
    cbv zeta in H1, H2, IH. destruct IH as [I1 I2].
    fold (Qsum (map (fun t => Qmax (SpecMetrics.wastedA t) 0) l)).
    fold (Qsum (map (fun t => Qmax (SpecMetrics.wastedB t) 0) l)).
    fold (Qsum (map (fun t : Q * Q => fst t + snd t) l)).
    split; lra.
Qed.

(** X6.  On tallies without negative entries the efficiency gap, when it
    is a number, lies between -1/2 and 1/2. *)
Theorem compute_efficiency_gap_range (dem rep : PyDict.dict Q) (v : Q) :
  (forall d, In d (PyDict.keys dem) ->
             0 <= PyDict.fget dem d /\ 0 <= PyDict.fget rep d) ->
  Analyzer.compute_efficiency_gap dem rep = Some v ->
  - (1 # 2) <= v /\ v <= 1 # 2.
Proof.
  intros Hnn. unfold Analyzer.compute_efficiency_gap.
  destruct (eg_fold dem rep (PyDict.keys dem) (Analyzer.mkEgAcc 0 0 0))
    as (H1 & H2 & H3).
  cbn [Analyzer.wasted_dem_total Analyzer.wasted_rep_total
       Analyzer.total_two_party] in H1, H2, H3.
  set (r := fold_left (Analyzer.eg_step dem rep) (PyDict.keys dem)
              (Analyzer.mkEgAcc 0 0 0)) in *.
  set (q := filter SpecMetrics.qualifying
              (map (fun d => (PyDict.fget dem d, PyDict.fget rep d))
                   (PyDict.keys dem))) in *.
  assert (Hq : Forall (fun t => 0 <= fst t /\ 0 <= snd t) q).
  { apply Forall_forall. intros t Ht. unfold q in Ht.
    apply filter_In in Ht. destruct Ht as [Ht _].
    apply in_map_iff in Ht. destruct Ht as (d & <- & Hd).
    apply Hnn. exact Hd. }
  destruct (wasted_sums_bound q Hq) as [B1 B2]. cbv zeta in B1, B2.
  assert (HT : 0 <= Qsum (map (fun t : Q * Q => fst t + snd t) q)).
  { clear - Hq. induction Hq as [|t l [Ha Hb] _ IH];
      cbn [map Qsum fold_right]; [lra|].
    fold (Qsum (map (fun t : Q * Q => fst t + snd t) l)). lra. }
  destruct (Qeq_bool (Analyzer.total_two_party r) 0) eqn:Ez; [discriminate|].
  apply Qeq_bool_neq in Ez. intros [= <-].
  assert (Hpos : 0 < Analyzer.total_two_party r).
  { rewrite H3 in Ez |- *. lra. }
  split.
  - apply Qle_shift_div_l; [exact Hpos|]. rewrite H1, H2, H3. lra.
  - apply Qle_shift_div_r; [exact Hpos|]. rewrite H1, H2, H3. lra.
Qed.

Lemma compute_efficiency_gap_range_witness :
  let dem := [(1%Z, 25); (2%Z, 5)] in
  let rep := [(1%Z, 20); (2%Z, 10)] in
  - (1 # 2) <= - (15 # 60) /\ - (15 # 60) <= 1 # 2.
Proof.
  intros dem rep.
  apply (compute_efficiency_gap_range dem rep (- (15 # 60))).
  - intros d [<-|[<-|[]]]; split; vm_compute; discriminate.
  - vm_compute. reflexivity.
Defined.

Lemma threshold_swap (a b : Q) :
  SpecMetrics.threshold (b, a) = SpecMetrics.threshold (a, b).
Proof.
  unfold SpecMetrics.threshold. cbn [fst snd]. f_equal. f_equal.
  apply Qfloor_comp. rewrite (Qplus_comm b a). reflexivity.
Qed.

Lemma qualifying_swap (a b : Q) :
  SpecMetrics.qualifying (b, a) = SpecMetrics.qualifying (a, b).
Proof.
  unfold SpecMetrics.qualifying. cbn [fst snd]. f_equal.
  apply Qleb_comp; [apply Qplus_comm | reflexivity].
Qed.

Lemma wasted_swap (a b : Q) :
  SpecMetrics.wastedA (b, a) == SpecMetrics.wastedB (a, b) /\
  SpecMetrics.wastedB (b, a) == SpecMetrics.wastedA (a, b).
Proof.
  unfold SpecMetrics.wastedA, SpecMetrics.wastedB.
  rewrite threshold_swap.
  destruct (Qlt_bool a b) eqn:E1, (Qlt_bool b a) eqn:E2;
    try (split; reflexivity).
  apply Qlt_bool_iff in E1. apply Qlt_bool_iff in E2.
  exfalso. apply (Qlt_irrefl a). eapply Qlt_trans; eassumption.
Qed.

Lemma swapped_sums (dem rep : PyDict.dict Q) (ks : list Z) :
  let pair d := (PyDict.fget dem d, PyDict.fget rep d) in
  let riap d := (PyDict.fget rep d, PyDict.fget dem d) in
  let q := filter SpecMetrics.qualifying (map pair ks) in
  let q' := filter SpecMetrics.qualifying (map riap ks) in
  Qsum (map (fun t => Qmax (SpecMetrics.wastedA t) 0) q')
  == Qsum (map (fun t => Qmax (SpecMetrics.wastedB t) 0) q) /\
  Qsum (map (fun t => Qmax (SpecMetrics.wastedB t) 0) q')
  == Qsum (map (fun t => Qmax (SpecMetrics.wastedA t) 0) q) /\
  Qsum (map (fun t : Q * Q => fst t + snd t) q')
  == Qsum (map (fun t : Q * Q => fst t + snd t) q).
Proof.
  cbv zeta. unfold Qsum.
  induction ks as [|d ks (I1 & I2 & I3)];
    cbn [map filter]; [repeat split; reflexivity|].
  rewrite qualifying_swap.
  destruct (SpecMetrics.qualifying (PyDict.fget dem d, PyDict.fget rep d));
    [|repeat split; assumption].
  cbn [map fold_right fst snd].
  destruct (wasted_swap (PyDict.fget dem d) (PyDict.fget rep d)) as [W1 W2].
  rewrite I1, I2, I3, W1, W2.
  repeat split; try reflexivity. ring.
Qed.

(** X7.  For tallies over the same districts, exchanging the two parties
    negates the efficiency gap (and keeps it not-a-number where it is). *)
Theorem compute_efficiency_gap_antisymmetric (dem rep : PyDict.dict Q) :
  PyDict.keys rep = PyDict.keys dem ->
  feq (Analyzer.compute_efficiency_gap rep dem)
      (option_map Qopp (Analyzer.compute_efficiency_gap dem rep)).
Proof.
  intro Hk. unfold Analyzer.compute_efficiency_gap. rewrite Hk.
  destruct (eg_fold dem rep (PyDict.keys dem) (Analyzer.mkEgAcc 0 0 0))
    as (H1 & H2 & H3).
  destruct (eg_fold rep dem (PyDict.keys dem) (Analyzer.mkEgAcc 0 0 0))
    as (H1' & H2' & H3').
  destruct (swapped_sums dem rep (PyDict.keys dem)) as (S1 & S2 & S3).
  cbv zeta in S1, S2, S3.
  cbn [Analyzer.wasted_dem_total Analyzer.wasted_rep_total
       Analyzer.total_two_party] in H1, H2, H3, H1', H2', H3'.
  rewrite S1 in H1'. rewrite S2 in H2'. rewrite S3 in H3'.
  set (r := fold_left (Analyzer.eg_step dem rep) (PyDict.keys dem)
              (Analyzer.mkEgAcc 0 0 0)) in *.
  set (r' := fold_left (Analyzer.eg_step rep dem) (PyDict.keys dem)
               (Analyzer.mkEgAcc 0 0 0)) in *.
  assert (HT : Analyzer.total_two_party r' == Analyzer.total_two_party r).
  { rewrite H3, H3'. reflexivity. }
  rewrite (Qeq_bool_comp_l _ _ HT).
  destruct (Qeq_bool (Analyzer.total_two_party r) 0) eqn:Ez;
    cbn [option_map feq]; [exact I|].
  apply Qeq_bool_neq in Ez.
  rewrite HT, H1, H2, H1', H2'. field. exact Ez.
Qed.

Lemma compute_efficiency_gap_antisymmetric_witness :
  let dem := [(1%Z, 25); (2%Z, 5)] in
  let rep := [(1%Z, 20); (2%Z, 10)] in
  feq (Analyzer.compute_efficiency_gap rep dem)
      (option_map Qopp (Analyzer.compute_efficiency_gap dem rep)).
Proof.
  intros dem rep.
  apply (compute_efficiency_gap_antisymmetric dem rep). reflexivity.
Defined.

(** ** The tally dictionaries *)

Section DefaultDict.
Import PyDict.

Lemma keys_upd_mem {V : Type} (dflt : V) (f : V -> V) (d : dict V) (k : Z) :
  keys (upd dflt f d k)
  = if Generator.mem k (keys d) then keys d else keys d ++ [k].
Proof.
  unfold keys, Generator.mem.
  induction d as [|[k0 v0] d IH]; simpl; [reflexivity|].
  destruct (Z.eqb k k0) eqn:E; simpl; [reflexivity|].
  rewrite IH. destruct (existsb (Z.eqb k) (map fst d)); reflexivity.
Qed.

Lemma fget_fadd (d : dict Q) (k k' : Z) (x : Q) :
  fget (fadd d k x) k' = if Z.eqb k' k then fget d k + x else fget d k'.
Proof.
  unfold fget, fadd. rewrite get_upd.
  destruct (Z.eqb k' k); reflexivity.
Qed.

Lemma In_keys_upd {V : Type} (dflt : V) (f : V -> V) (d : dict V)
    (k k' : Z) :
  In k' (keys (upd dflt f d k)) <-> In k' (keys d) \/ k' = k.
Proof.
  rewrite keys_upd_mem. destruct (Generator.mem k (keys d)) eqn:E.
  - apply mem_iff in E. split; [tauto|]. intros [H | ->]; assumption.
  - rewrite in_app_iff. simpl. split.
    + intros [H|[H|[]]]; [left; exact H | right; symmetry; exact H].
    + intros [H|H]; [left; exact H | right; left; symmetry; exact H].
Qed.
End DefaultDict.

Section Tallies.
Import PyDict Gerry Analyzer.
Variable graph : Graph.
Variables dem_key rep_key : string.

Lemma aggregate_step_aligned (t : tallies) (item : Z * Z) :
  aligned t -> aligned (aggregate_step graph dem_key rep_key t item).
Proof.
  intros (K1 & K2 & Hnd & Hsum). destruct item as [n dist].
  unfold aggregate_step.
  destruct (get (nodes graph) n) as [attr|]; [|repeat split; assumption].
  unfold aligned. cbn [dem_by_dist rep_by_dist two_party_by_dist].
  split; [|split; [|split]].
  - unfold fadd. rewrite !keys_upd_mem, K1. reflexivity.
  - unfold fadd. rewrite !keys_upd_mem, K2. reflexivity.
  - unfold fadd. apply NoDup_keys_upd. exact Hnd.
  - intro d. rewrite !fget_fadd.
    destruct (Z.eqb d dist); rewrite Hsum; ring.
Qed.

Lemma aggregate_fold_aligned (assignment : dict Z) (t : tallies) :
  aligned t ->
  aligned (fold_left (aggregate_step graph dem_key rep_key) assignment t).
Proof.
  revert t. induction assignment as [|item a IH]; intros t H; simpl.
  - exact H.
  - apply IH. apply aggregate_step_aligned. exact H.
Qed.

Lemma aggregate_fold_keys (assignment : dict Z) (t : tallies) (d : Z) :
  In d (keys (dem_by_dist
                (fold_left (aggregate_step graph dem_key rep_key)
                           assignment t)))
  <-> In d (keys (dem_by_dist t)) \/
      exists n attr, In (n, d) assignment /\
                     get (nodes graph) n = Some attr.
Proof.
  revert t. induction assignment as [|[n dist] a IH]; intro t; simpl.
  - split; [tauto|]. intros [H|(n & attr & [] & _)]. exact H.
  - rewrite IH. unfold aggregate_step.
    destruct (get (nodes graph) n) as [attr|] eqn:E.
    + cbn [dem_by_dist]. unfold fadd. rewrite In_keys_upd. split.
      * intros [[H| ->]|(n' & attr' & Hin & Hg)].
        -- left. exact H.
        -- right. exists n, attr. split; [left; reflexivity | exact E].
        -- right. exists n', attr'. split; [right; exact Hin | exact Hg].
      * intros [H|(n' & attr' & [[= -> ->]|Hin] & Hg)].
        -- left. left. exact H.
        -- left. right. reflexivity.
        -- right. exists n', attr'. tauto.
    + split.
      * intros [H|(n' & attr' & Hin & Hg)]; [left; exact H|].
        right. exists n', attr'. split; [right; exact Hin | exact Hg].
      * intros [H|(n' & attr' & [[= -> ->]|Hin] & Hg)].
        -- left. exact H.
        -- congruence.
        -- right. exists n', attr'. tauto.
Qed.

Lemma aggregate_fold_filter (assignment : dict Z) (t : tallies) :
  fold_left (aggregate_step graph dem_key rep_key) assignment t
  = fold_left (aggregate_step graph dem_key rep_key)
      (filter (fun item : Z * Z =>
                 match get (nodes graph) (fst item) with
                 | Some _ => true
                 | None => false
                 end) assignment) t.
Proof.
  revert t. induction assignment as [|[n dist] a IH]; intro t; simpl.
  - reflexivity.
  - destruct (get (nodes graph) n) as [attr|] eqn:E; simpl.
    + rewrite E. apply IH.
    + apply IH.
Qed.
End Tallies.

(** X8.  The three dictionaries [aggregate_votes_by_district] returns
    list the same districts in the same order, each once. *)
Theorem aggregate_votes_by_district_aligned
    (graph : Gerry.Graph) (assignment : PyDict.dict Z)
    (dem_key rep_key : string) :
  let t := Analyzer.aggregate_votes_by_district
             graph assignment dem_key rep_key in
  PyDict.keys (Analyzer.rep_by_dist t) = PyDict.keys (Analyzer.dem_by_dist t)
  /\
  PyDict.keys (Analyzer.two_party_by_dist t)
  = PyDict.keys (Analyzer.dem_by_dist t) /\
  NoDup (PyDict.keys (Analyzer.dem_by_dist t)).
Proof.
  cbv zeta.
  assert (A : aligned (Analyzer.aggregate_votes_by_district
                         graph assignment dem_key rep_key)).
  { apply (aggregate_fold_aligned graph dem_key rep_key assignment
             (Analyzer.mkTallies [] [] [])).
    split; [reflexivity|]. split; [reflexivity|].
    split; [constructor|]. intro d. vm_compute. reflexivity. }
  destruct A as (H1 & H2 & H3 & _).
  split; [exact H1|]. split; [exact H2 | exact H3].
Qed.

(** X9.  A district appears in the tallies exactly when the plan assigns
    to it some node that the graph holds; assigned nodes the graph does
    not hold are skipped, so the tallies are those of the plan restricted
    to the graph's nodes. *)
Theorem aggregate_votes_by_district_districts
    (graph : Gerry.Graph) (assignment : PyDict.dict Z)
    (dem_key rep_key : string) :
  (forall d,
      In d (PyDict.keys
              (Analyzer.dem_by_dist
                 (Analyzer.aggregate_votes_by_district
                    graph assignment dem_key rep_key)))
      <-> exists n attr, In (n, d) assignment /\
                         PyDict.get (Gerry.nodes graph) n = Some attr) /\
  Analyzer.aggregate_votes_by_district graph assignment dem_key rep_key
  = Analyzer.aggregate_votes_by_district graph
      (filter (fun item : Z * Z =>
                 match PyDict.get (Gerry.nodes graph) (fst item) with
                 | Some _ => true
                 | None => false
                 end) assignment)
      dem_key rep_key.
Proof.
  split.
  - intro d. unfold Analyzer.aggregate_votes_by_district.
    rewrite aggregate_fold_keys. simpl. tauto.
  - apply aggregate_fold_filter.
Qed.

(** ** Seat counts *)

Lemma seat_fold (dem rep : PyDict.dict Q) (ks : list Z)
    (c : Analyzer.seat_counts) :
  let r := fold_left (Analyzer.seat_step dem rep) ks c in
  (Analyzer.dem_seats c <= Analyzer.dem_seats r)%Z /\
  (Analyzer.gop_seats c <= Analyzer.gop_seats r)%Z /\
  (Analyzer.ties c <= Analyzer.ties r)%Z /\
  (Analyzer.dem_seats r + Analyzer.gop_seats r + Analyzer.ties r
   = Analyzer.dem_seats c + Analyzer.gop_seats c + Analyzer.ties c
     + Z.of_nat (List.length ks))%Z.
Proof.
  revert c. induction ks as [|d ks IH]; intro c; cbn [fold_left].
  - cbn [List.length]. lia.
  - specialize (IH (Analyzer.seat_step dem rep c d)). cbv zeta in IH.
    destruct IH as (I1 & I2 & I3 & I4). cbv zeta. rewrite I4.
    assert (S : (Analyzer.dem_seats c
                 <= Analyzer.dem_seats (Analyzer.seat_step dem rep c d))%Z /\
                (Analyzer.gop_seats c
                 <= Analyzer.gop_seats (Analyzer.seat_step dem rep c d))%Z /\
                (Analyzer.ties c
                 <= Analyzer.ties (Analyzer.seat_step dem rep c d))%Z /\
                (Analyzer.dem_seats (Analyzer.seat_step dem rep c d)
                 + Analyzer.gop_seats (Analyzer.seat_step dem rep c d)
                 + Analyzer.ties (Analyzer.seat_step dem rep c d)
                 = Analyzer.dem_seats c + Analyzer.gop_seats c
                   + Analyzer.ties c + 1)%Z).
    { unfold Analyzer.seat_step.
      destruct (Qlt_bool (PyDict.fget rep d) (PyDict.fget dem d));
        [|destruct (Qlt_bool (PyDict.fget dem d) (PyDict.fget rep d))];
        simpl; lia. }
    cbn [List.length]. lia.
Qed.

(** X10.  The seats counted for the two parties and the ties are
    non-negative and add up to the number of districts in the tallies, so
    the seat shares are not-a-number exactly when there is no district. *)
Theorem count_seats_total (dem rep : PyDict.dict Q) (wins : Z) :
  let c := Analyzer.count_seats dem rep in
  (0 <= Analyzer.dem_seats c)%Z /\ (0 <= Analyzer.gop_seats c)%Z /\
  (0 <= Analyzer.ties c)%Z /\
  (Analyzer.dem_seats c + Analyzer.gop_seats c + Analyzer.ties c
   = Z.of_nat (List.length (PyDict.keys dem)))%Z /\
  (Metrics.seat_share wins c = None <-> PyDict.keys dem = []).
Proof.
  intro c.
  destruct (seat_fold dem rep (PyDict.keys dem) (Analyzer.mkSeats 0 0 0))
    as (H1 & H2 & H3 & H4).
  fold (Analyzer.count_seats dem rep) in H1, H2, H3, H4. fold c in H1, H2, H3, H4.
  cbn [Analyzer.dem_seats Analyzer.gop_seats Analyzer.ties] in H1, H2, H3, H4.
  split; [lia|]. split; [lia|]. split; [lia|]. split; [lia|].
  unfold Metrics.seat_share. fold c. rewrite H4.
  destruct (PyDict.keys dem) as [|k ks].
  - simpl. tauto.
  - replace (Z.ltb 0 (0 + 0 + 0 + Z.of_nat (List.length (k :: ks))))
      with true
      by (symmetry; apply Z.ltb_lt; cbn [List.length]; lia).
    split; discriminate.
Qed.

(** ** The generator's seat tally *)

Lemma indicator_sum_bounds {A : Type} (f : A -> bool) (l : list A) (z : Z) :
  (z <= fold_left Z.add (map (fun x => if f x then 1 else 0) l) z
   <= z + Z.of_nat (List.length l))%Z.
Proof.
  revert z. induction l as [|x l IH]; intro z; cbn [map fold_left List.length].
  - lia.
  - specialize (IH (z + (if f x then 1 else 0))%Z). destruct (f x); lia.
Qed.

(** X11.  The seat tally the generator records lies between zero and the
    number of districts of the plan. *)
Theorem seats_gop_by_tally_bounds
    (F : Generator.fields) (p : Generator.Partition) :
  (0 <= Generator.seats_gop_by_tally F p
   <= Z.of_nat (List.length (Generator.parts p)))%Z.
Proof.
  unfold Generator.seats_gop_by_tally.
  pose proof (indicator_sum_bounds
                (fun d => Qlt_bool
                            (PyDict.fget (Generator.Tally (Generator.dem_key F) p) d)
                            (PyDict.fget (Generator.Tally (Generator.rep_key F) p) d))
                (PyDict.keys (Generator.parts p)) 0) as H.
  unfold PyDict.keys in H. rewrite length_map in H. exact H.
Qed.

(** ** From the record back to the plan *)

Lemma json_set_fresh (items : list (string * Json.value)) (k : string)
    (v : Json.value) :
  ~ In k (map fst items) -> Json.set items k v = items ++ [(k, v)].
Proof.
  induction items as [|[k0 v0] items IH]; intro H; simpl; [reflexivity|].
  destruct (String.eqb k k0) eqn:E.
  - apply String.eqb_eq in E. exfalso. apply H. left. symmetry. exact E.
  - rewrite IH; [reflexivity|]. intro Hin. apply H. right. exact Hin.
Qed.

Lemma dict_set_fresh {V : Type} (d : PyDict.dict V) (k : Z) (v : V) :
  ~ In k (PyDict.keys d) -> PyDict.set d k v = d ++ [(k, v)].
Proof.
  unfold PyDict.keys.
  induction d as [|[k0 v0] d IH]; intro H; simpl; [reflexivity|].
  destruct (Z.eqb k k0) eqn:E.
  - apply Z.eqb_eq in E. exfalso. apply H. left. symmetry. exact E.
  - rewrite IH; [reflexivity|]. intro Hin. apply H. right. exact Hin.
Qed.

Lemma assignment_dict_items (a : PyDict.dict Z)
    (acc : list (string * Json.value)) :
  NoDup (PyDict.keys a) ->
  (forall n, In n (PyDict.keys a) -> ~ In (Json.py_str n) (map fst acc)) ->
  fold_left (fun acc (item : Z * Z) =>
               Json.set acc (Json.py_str (fst item)) (Json.JInt (snd item)))
            a acc
  = acc ++ map record_item a.
Proof.
  unfold PyDict.keys. revert acc.
  induction a as [|[n d] a IH]; intros acc Hnd Hfresh; simpl.
  - rewrite app_nil_r. reflexivity.
  - inversion Hnd as [|? ? Hn Hnd']; subst.
    rewrite json_set_fresh by (apply Hfresh; left; reflexivity).
    rewrite IH; [rewrite <- app_assoc; reflexivity | exact Hnd' |].
    intros m Hm Hin. rewrite map_app, in_app_iff in Hin.
    destruct Hin as [Hin|[Hin|[]]].
    + apply (Hfresh m); [right; exact Hm | exact Hin].
    + simpl in Hin. apply py_str_inj in Hin. subst m. contradiction.
Qed.

Lemma int_assignment_items (a acc : PyDict.dict Z) :
  NoDup (PyDict.keys a) ->
  (forall n, In n (PyDict.keys a) -> ~ In n (PyDict.keys acc)) ->
  Analyzer.int_assignment (map record_item a) acc = Py.Ok (acc ++ a).
Proof.
  unfold PyDict.keys. revert acc.
  induction a as [|[n d] a IH]; intros acc Hnd Hfresh; simpl.
  - rewrite app_nil_r. reflexivity.
  - inversion Hnd as [|? ? Hn Hnd']; subst.
    rewrite py_int_str. simpl.
    rewrite dict_set_fresh by (apply Hfresh; left; reflexivity).
    rewrite IH; [rewrite <- app_assoc; reflexivity | exact Hnd' |].
    intros m Hm Hin. unfold PyDict.keys in Hin.
    rewrite map_app, in_app_iff in Hin.
    destruct Hin as [Hin|[Hin|[]]].
    + apply (Hfresh m); [right; exact Hm | exact Hin].
    + simpl in Hin. subst m. contradiction.
Qed.

(** X12.  Writing a plan with [assignment_dict] and reading it back as
    the analyzer does, with [int()] on every node identifier and label,
    returns the plan's assignment unchanged. *)
Theorem assignment_round_trip (p : Generator.Partition) :
  NoDup (PyDict.keys (Generator.assignment p)) ->
  exists items,
    Generator.assignment_dict p = Json.JObj items /\
    Analyzer.int_assignment items [] = Py.Ok (Generator.assignment p).
Proof.
  intro Hnd. unfold Generator.assignment_dict. eexists.
  split; [reflexivity|].
  rewrite assignment_dict_items; [|exact Hnd | intros n _ []].
  simpl. apply (int_assignment_items (Generator.assignment p) [] Hnd).
  intros n _ [].
Qed.

Lemma assignment_round_trip_witness :
  exists items,
    Generator.assignment_dict Examples.uneven_plan = Json.JObj items /\
    Analyzer.int_assignment items []
    = Py.Ok (Generator.assignment Examples.uneven_plan).
Proof.
  apply (assignment_round_trip Examples.uneven_plan).
  repeat constructor; simpl; intuition discriminate.
Defined.

Lemma seats_agree (g : Gerry.Graph) (a : PyDict.dict Z)
    (F : Generator.fields) :
  Generator.dem_key F = Analyzer.DEM_COL ->
  Generator.rep_key F = Analyzer.REP_COL ->
  Generator.on_graph g a ->
  let t := Analyzer.aggregate_votes_by_district
             g a Analyzer.DEM_COL Analyzer.REP_COL in
  Analyzer.gop_seats
    (Analyzer.count_seats (Analyzer.dem_by_dist t) (Analyzer.rep_by_dist t))
  = Generator.seats_gop_by_tally F (Generator.mkPartition g a).
Proof.
  intros Hd Hr Hon t.
  destruct (tallied_fold g Analyzer.DEM_COL Analyzer.REP_COL a Hon []
              (Analyzer.mkTallies [] [] []))
    as [Td Tr]; try constructor.
  fold (Analyzer.aggregate_votes_by_district
          g a Analyzer.DEM_COL Analyzer.REP_COL) in Td, Tr.
  fold t in Td, Tr.
  unfold Generator.seats_gop_by_tally, Analyzer.count_seats, Generator.Tally,
    Generator.parts.
  cbn [Generator.graph Generator.assignment].
  rewrite Hd, Hr, (tallied_keys g _ _ _ Td).
  rewrite (gop_seats_fold _ _ _ _ _ _
             (fun k => tallied_fget g _ _ _ k Td)
             (fun k => tallied_fget g _ _ _ k Tr)).
  reflexivity.
Qed.



(** X14.  A record that carries no ["assignment"] is read as an empty
    plan: the analyzer still produces a row, with no seat, no tie and
    not-a-number for the recomputed efficiency gap and partisan bias. *)
Theorem analyze_plan_without_assignment
    (g : Gerry.Graph) (items : list (string * Json.value)) :
  Json.lookup items "assignment" = None ->
  exists row,
    Analyzer.analyze_plan g (Json.JObj items) = Py.Ok row /\
    Analyzer.gop_seats_recomputed row = 0%Z /\
    Analyzer.dem_seats_recomputed row = 0%Z /\
    Analyzer.row_ties row = 0%Z /\
    Analyzer.efficiency_gap_recomputed row = None /\
    Analyzer.partisan_bias row = None.
Proof.
  intro H. unfold Analyzer.analyze_plan, Json.get_or. rewrite H.
  cbn [Analyzer.int_assignment Py.bind]. eexists. split; [reflexivity|].
  repeat split.
Qed.

Lemma analyze_plan_without_assignment_witness :
  exists row,
    Analyzer.analyze_plan Examples.path_graph
      (Json.JObj [("index"%string, Json.JInt 1)]) = Py.Ok row /\
    Analyzer.gop_seats_recomputed row = 0%Z /\
    Analyzer.dem_seats_recomputed row = 0%Z /\
    Analyzer.row_ties row = 0%Z /\
    Analyzer.efficiency_gap_recomputed row = None /\
    Analyzer.partisan_bias row = None.
Proof.
  apply (analyze_plan_without_assignment Examples.path_graph
           [("index"%string, Json.JInt 1)]).
  reflexivity.
Defined.

(** ** The streaming saver: what every run keeps *)

Section StreamInvariants.
Import Generator.
Variable float_repr : Q -> string.
Variable F : fields.
Variable P : params.

(** An invariant of the states the loop goes on from, and what it gives
    for the state the loop ends in. *)
Lemma run_loop_exit (I J : loop_state -> Prop) :
  (forall s, I s -> J s) ->
  (forall step state s,
      I s ->
      match loop_body float_repr F P step state s with
      | Continue s' => I s'
      | Break s' => J s'
      | Abort _ s' => J s'
      end) ->
  forall chain step s,
    I s -> J (state_of (run_loop float_repr F P step chain s)).
Proof.
  intros HIJ Hbody chain.
  induction chain as [|state chain IH]; intros step s Hs; simpl.
  - apply HIJ. exact Hs.
  - specialize (Hbody step state s Hs).
    destruct (loop_body float_repr F P step state s); simpl.
    + apply IH. exact Hbody.
    + exact Hbody.
    + exact Hbody.
Qed.

Lemma loop_body_saved_bound (step : Z) (state : Partition) (s : loop_state) :
  (0 <= saved s)%Z /\ (saved s = 0 \/ saved s < samples P)%Z ->
  match loop_body float_repr F P step state s with
  | Continue s' => (0 <= saved s')%Z /\ (saved s' = 0 \/ saved s' < samples P)%Z
  | Break s' => (0 <= saved s' <= Z.max 1 (samples P))%Z
  | Abort _ s' => (0 <= saved s' <= Z.max 1 (samples P))%Z
  end.
Proof.
  intros [H0 H]. unfold loop_body.
  repeat match goal with
         | |- context [if ?c then _ else _] => destruct c eqn:?
         | |- context [match efficiency_gap ?F ?s with _ => _ end] =>
             destruct (efficiency_gap F s) eqn:?
         end; cbn [saved]; try (split; [assumption | assumption]); try lia.
  - cbn [saved] in *. apply Z.leb_gt in Heqb4. lia.
Qed.

Lemma record_texts_app (i : Z)
    (recs : list (bool * Z * Q * Partition))
    (x : bool * Z * Q * Partition) :
  record_texts float_repr F P i (recs ++ [x])
  = String.append (record_texts float_repr F P i recs)
      (record_texts float_repr F P (i + Z.of_nat (List.length recs)) [x]).
Proof.
  revert i. induction recs as [|[[[c0 g0] e0] st0] recs IH]; intro i;
    cbn [app record_texts List.length].
  - replace (i + Z.of_nat 0)%Z with i by lia. reflexivity.
  - rewrite IH, append_assoc.
    replace (i + 1 + Z.of_nat (List.length recs))%Z
      with (i + Z.of_nat (S (List.length recs)))%Z by lia.
    reflexivity.
Qed.

Lemma saved_lines_app (i : Z)
    (recs : list (bool * Z * Q * Partition))
    (x : bool * Z * Q * Partition) :
  saved_lines i (recs ++ [x])
  = saved_lines i recs
    ++ saved_lines (i + Z.of_nat (List.length recs)) [x].
Proof.
  revert i. induction recs as [|[[[c0 g0] e0] st0] recs IH]; intro i;
    cbn [app saved_lines List.length].
  - replace (i + Z.of_nat 0)%Z with i by lia. reflexivity.
  - rewrite IH.
    replace (i + 1 + Z.of_nat (List.length recs))%Z
      with (i + Z.of_nat (S (List.length recs)))%Z by lia.
    reflexivity.
Qed.

Lemma loop_body_logged (k : nat) (step : Z) (state : Partition)
    (s : loop_state) :
  logged float_repr F P k s ->
  logged float_repr F P k (state_of (loop_body float_repr F P step state s)).
Proof.
  intros (recs & Hc & Hf & Ho & Hs). unfold loop_body.
  repeat match goal with
         | |- context [if ?c then _ else _] => destruct c eqn:?
         | |- context [match efficiency_gap ?F ?s with _ => _ end] =>
             destruct (efficiency_gap F s) eqn:?
         end; cbn [state_of]; try (exists recs; repeat split; assumption).
  all: exists (recs ++ [(is_partition_contiguous state,
                         seats_gop_by_tally F state, a, state)]).
  all: cbn [file stdout saved]; rewrite Hf, Ho, Hs, length_app;
    cbn [List.length]; rewrite record_texts_app, saved_lines_app;
    cbn [record_texts saved_lines]; rewrite append_nil_r;
    replace (1 + Z.of_nat (List.length recs))%Z
      with (Z.of_nat (List.length recs) + 1)%Z by lia.
  all: split;
    [ apply Forall_app; split; [exact Hc|];
      constructor; [|constructor]; cbn [computed];
      split; [reflexivity | split; [reflexivity | assumption]]
    | split; [reflexivity | split; [reflexivity | lia]] ].
Qed.

(** How many states the loop takes from the chain, and when it stops
    early. *)
Lemma run_loop_count (chain : list Partition) :
  forall step s,
    match run_loop float_repr F P step chain s with
    | Continue s' =>
        iterations s' = (iterations s + List.length chain)%nat
    | Break s' =>
        (iterations s' <= iterations s + List.length chain)%nat /\
        (samples P <= saved s')%Z
    | Abort _ s' =>
        (iterations s' <= iterations s + List.length chain)%nat
    end.
Proof.
  induction chain as [|state chain IH]; intros step s;
    cbn [run_loop List.length].
  - lia.
  - pose proof (loop_body_iterations float_repr F P step state s) as Hi.
    assert (Hb : forall s', loop_body float_repr F P step state s = Break s'
                            -> (samples P <= saved s')%Z).
    { unfold loop_body.
      repeat match goal with
             | |- context [if ?c then _ else _] => destruct c eqn:?
             | |- context [match efficiency_gap ?F ?s with _ => _ end] =>
                 destruct (efficiency_gap F s) eqn:?
             end; intros s' Hs'; try discriminate.
      injection Hs' as <-. apply Z.leb_le. assumption. }
    destruct (loop_body float_repr F P step state s) as [s'|s'|e s'];
      cbn [state_of] in Hi.
    + specialize (IH (step + 1)%Z s').
      destruct (run_loop float_repr F P (step + 1) chain s'); lia.
    + split; [lia | apply Hb; reflexivity].
    + lia.
Qed.
End StreamInvariants.

(** X15.  Whatever the parameters and the chain, a run keeps at most
    [samples] plans, or one when [samples] is below one, and takes no
    more states from the chain than the step budget
    [max(1, total_steps)]. *)
Theorem stream_bounds
    (float_repr : Q -> string) (F : Generator.fields)
    (P : Generator.params) (walk : nat -> Generator.Partition)
    (store0 : option string) :
  let r := Generator.stream_plans_ndjson float_repr F P walk store0 in
  (0 <= Generator.plans_saved r <= Z.max 1 (Generator.samples P))%Z /\
  (Z.of_nat (Generator.loop_iterations r)
   <= Z.max 1 (Generator.total_steps P))%Z.
Proof.
  cbv zeta. unfold Generator.stream_plans_ndjson.
  destruct (Nat.eqb (List.length (Generator.parts (walk O))) 0).
  - cbn [Generator.plans_saved Generator.loop_iterations]. lia.
  - set (s0 := Generator.mkLoop 0 0 EmptyString _ 0).
    pose proof (run_loop_exit float_repr F P _ _
                  (fun s (H : (0 <= Generator.saved s)%Z /\
                               (Generator.saved s = 0
                                \/ Generator.saved s < Generator.samples P)%Z)
                   => ltac:(lia)
                      : (0 <= Generator.saved s
                         <= Z.max 1 (Generator.samples P))%Z)
                  (loop_body_saved_bound float_repr F P)
                  (Generator.chain_states P walk) 0%Z s0
                  ltac:(cbn; lia)) as Hs.
    pose proof (run_loop_count float_repr F P
                  (Generator.chain_states P walk) 0%Z s0) as Hc.
    assert (Hl : List.length (Generator.chain_states P walk)
                 = Z.to_nat (Z.max 1 (Generator.total_steps P))).
    { unfold Generator.chain_states. rewrite length_map, length_seq.
      reflexivity. }
    rewrite Hl in Hc. cbn [Generator.iterations s0] in Hc.
    destruct (Generator.run_loop float_repr F P 0
                (Generator.chain_states P walk) s0) as [s|s|e s];
      cbn [Generator.state_of Generator.plans_saved
           Generator.loop_iterations] in *; lia.
Qed.

(** X16.  A run that returns with fewer plans than [samples] has gone
    through the whole step budget: the loop took every one of the
    [max(1, total_steps)] states of the chain. *)
Theorem shortfall_uses_every_step
    (float_repr : Q -> string) (F : Generator.fields)
    (P : Generator.params) (walk : nat -> Generator.Partition)
    (store0 : option string) (v : Json.value) :
  let r := Generator.stream_plans_ndjson float_repr F P walk store0 in
  Generator.outcome r = Py.Ok v ->
  (Generator.plans_saved r < Generator.samples P)%Z ->
  Z.of_nat (Generator.loop_iterations r)
  = Z.max 1 (Generator.total_steps P).
Proof.
  cbv zeta. unfold Generator.stream_plans_ndjson.
  destruct (Nat.eqb (List.length (Generator.parts (walk O))) 0).
  - cbn [Generator.outcome]. discriminate.
  - set (s0 := Generator.mkLoop 0 0 EmptyString _ 0).
    pose proof (run_loop_count float_repr F P
                  (Generator.chain_states P walk) 0%Z s0) as Hc.
    assert (Hl : List.length (Generator.chain_states P walk)
                 = Z.to_nat (Z.max 1 (Generator.total_steps P))).
    { unfold Generator.chain_states. rewrite length_map, length_seq.
      reflexivity. }
    rewrite Hl in Hc. cbn [Generator.iterations s0] in Hc.
    destruct (Generator.run_loop float_repr F P 0
                (Generator.chain_states P walk) s0) as [s|s|e s];
      cbn [Generator.outcome Generator.plans_saved
           Generator.loop_iterations]; intros Ho Hlt;
      try discriminate; lia.
Qed.

Lemma shortfall_uses_every_step_witness :
  let P := Generator.mkParams 10 100 (2 # 100) 24 0 0 in
  let r := Generator.stream_plans_ndjson Examples.repr Examples.detected P
             (Examples.stay Examples.tied_plan) None in
  Z.of_nat (Generator.loop_iterations r)
  = Z.max 1 (Generator.total_steps P).
Proof.
  apply (shortfall_uses_every_step Examples.repr Examples.detected
           (Generator.mkParams 10 100 (2 # 100) 24 0 0)
           (Examples.stay Examples.tied_plan) None Json.JNull).
  - vm_compute. reflexivity.
  - vm_compute. reflexivity.
Defined.


(** ** Preparing the graph *)

Section Attributes.
Import Gerry Preprocess.

Lemma attr_get_set_same (a : attrs) (k : string) (v : attr_value) :
  attr_get (attr_set a k v) k = Some v.
Proof.
  induction a as [|[k0 w] a IH]; cbn [attr_set attr_get].
  - rewrite String.eqb_refl. reflexivity.
  - destruct (String.eqb k k0) eqn:E; cbn [attr_get]; rewrite E.
    + reflexivity.
    + exact IH.
Qed.

Lemma attr_get_set_other (a : attrs) (k k' : string) (v : attr_value) :
  k' <> k -> attr_get (attr_set a k v) k' = attr_get a k'.
Proof.
  intro Hne. induction a as [|[k0 w] a IH]; cbn [attr_set attr_get].
  - apply String.eqb_neq in Hne. rewrite Hne. reflexivity.
  - destruct (String.eqb k k0) eqn:E; cbn [attr_get].
    + apply String.eqb_eq in E. subst k0.
      apply String.eqb_neq in Hne. rewrite Hne. reflexivity.
    + rewrite IH. reflexivity.
Qed.

Lemma attr_set_same_value (a : attrs) (k : string) (v : attr_value) :
  attr_get a k = Some v -> attr_set a k v = a.
Proof.
  induction a as [|[k0 w] a IH]; cbn [attr_set attr_get].
  - discriminate.
  - destruct (String.eqb k k0) eqn:E.
    + intro H. injection H as ->. reflexivity.
    + intro H. rewrite IH by exact H. reflexivity.
Qed.

Lemma has_key_set (a : attrs) (k k' : string) (v : attr_value) :
  Generator.has_key (attr_set a k v) k'
  = Generator.has_key a k' || String.eqb k' k.
Proof.
  unfold Generator.has_key. destruct (String.eqb k' k) eqn:E.
  - apply String.eqb_eq in E. subst k'. rewrite attr_get_set_same.
    rewrite orb_true_r. reflexivity.
  - apply String.eqb_neq in E. rewrite attr_get_set_other by exact E.
    rewrite orb_false_r. reflexivity.
Qed.

Lemma round_whole (z : Z) : round (inject_Z z) = z.
Proof.
  unfold round. rewrite Qfloor_Z.
  assert (H : Qlt_bool (inject_Z z - inject_Z z) (1 # 2) = true).
  { apply Qlt_bool_iff. setoid_replace (inject_Z z - inject_Z z) with 0
      by ring. reflexivity. }
  rewrite H. reflexivity.
Qed.

Lemma patch_whole (a : attrs) (k : string) : whole (patch a k) k.
Proof. eexists. unfold patch. apply attr_get_set_same. Qed.

Lemma patch_keeps_whole (a : attrs) (k k' : string) :
  whole a k' -> whole (patch a k) k'.
Proof.
  intro H. destruct (string_dec k' k) as [->|Hne].
  - apply patch_whole.
  - destruct H as [z H]. exists z. unfold patch.
    rewrite attr_get_set_other by exact Hne. exact H.
Qed.

Lemma patch_fixed (a : attrs) (k : string) : whole a k -> patch a k = a.
Proof.
  intros [z H]. unfold patch, coerced. rewrite H.
  cbn [_coerce_numeric]. rewrite round_whole.
  apply attr_set_same_value. exact H.
Qed.

Lemma preprocess_node_whole (p d r : string) (a : attrs) :
  whole (preprocess_node p d r a) p /\
  whole (preprocess_node p d r a) d /\
  whole (preprocess_node p d r a) r.
Proof.
  unfold preprocess_node. repeat split.
  - do 2 apply patch_keeps_whole. apply patch_whole.
  - apply patch_keeps_whole. apply patch_whole.
  - apply patch_whole.
Qed.

Lemma preprocess_node_fixed (p d r : string) (a : attrs) :
  whole a p -> whole a d -> whole a r -> preprocess_node p d r a = a.
Proof.
  intros Hp Hd Hr. unfold preprocess_node.
  rewrite (patch_fixed a p Hp), (patch_fixed a d Hd).
  apply patch_fixed. exact Hr.
Qed.

Lemma preprocess_node_has_key (p d r : string) (a : attrs) (k : string) :
  Generator.has_key (preprocess_node p d r a) k
  = Generator.has_key a k
    || String.eqb k p || String.eqb k d || String.eqb k r.
Proof.
  unfold preprocess_node, patch. rewrite !has_key_set. reflexivity.
Qed.
End Attributes.

Section Islands.
Import PyDict Gerry Preprocess.

Lemma filter_all {A : Type} (f : A -> bool) (l : list A) :
  (forall x, In x l -> f x = true) -> filter f l = l.
Proof.
  induction l as [|x l IH]; intro H; cbn [filter].
  - reflexivity.
  - rewrite (H x (or_introl eq_refl)). f_equal. apply IH.
    intros y Hy. apply H. right. exact Hy.
Qed.

Lemma degree_edge (g : Graph) (e : Z * Z) :
  In e (edges g) -> degree g (fst e) <> O /\ degree g (snd e) <> O.
Proof.
  unfold degree. induction (edges g) as [|e0 es IH]; [intros []|].
  intros [->|H]; cbn [map];
    change (list_sum (?x :: ?l)) with (x + list_sum l)%nat.
  - rewrite !Z.eqb_refl. lia.
  - destruct (IH H). lia.
Qed.

Lemma mem_islands (g : Graph) (n : Z) :
  Generator.mem n (islands g) = true ->
  In n (keys (nodes g)) /\ degree g n = O.
Proof.
  intro H. apply mem_iff in H. unfold islands in H.
  apply filter_In in H. destruct H as [H1 H2].
  apply Nat.eqb_eq in H2. split; assumption.
Qed.

Lemma mem_islands_iff (g : Graph) (n : Z) :
  In n (keys (nodes g)) ->
  Generator.mem n (islands g) = Nat.eqb (degree g n) 0.
Proof.
  intro Hin. destruct (Nat.eqb (degree g n) 0) eqn:E.
  - apply mem_iff. unfold islands. apply filter_In. split; assumption.
  - destruct (Generator.mem n (islands g)) eqn:M; [|reflexivity].
    apply mem_islands in M. destruct M as [_ M].
    apply Nat.eqb_neq in E. contradiction.
Qed.

Lemma remove_islands (g : Graph) :
  match islands g with
  | [] => g
  | _ :: _ => remove_nodes_from g (islands g)
  end = without_islands g.
Proof.
  assert (H : remove_nodes_from g (islands g) = without_islands g).
  { unfold remove_nodes_from, without_islands. f_equal.
    - apply filter_ext_in. intros [n a] Hin. cbn [fst].
      rewrite mem_islands_iff; [reflexivity|].
      unfold keys. apply in_map_iff. exists (n, a). split; [reflexivity|].
      exact Hin.
    - apply filter_all. intros e He.
      destruct (degree_edge g e He) as [H1 H2].
      destruct (Generator.mem (fst e) (islands g)) eqn:M1.
      { apply mem_islands in M1. destruct M1. contradiction. }
      destruct (Generator.mem (snd e) (islands g)) eqn:M2.
      { apply mem_islands in M2. destruct M2. contradiction. }
      reflexivity. }
  destruct (islands g) eqn:E; [|exact H].
  rewrite <- H. unfold remove_nodes_from. destruct g as [ns es].
  cbn [nodes edges]. f_equal; apply eq_sym, filter_all; reflexivity.
Qed.

Lemma degree_edges (g g' : Graph) (n : Z) :
  edges g' = edges g -> degree g' n = degree g n.
Proof. unfold degree. intros ->. reflexivity. Qed.

Lemma keys_filter {V : Type} (f : Z -> bool) (d : dict V) :
  keys (filter (fun item : Z * V => f (fst item)) d) = filter f (keys d).
Proof.
  unfold keys. induction d as [|[k v] d IH]; cbn [filter map fst].
  - reflexivity.
  - destruct (f k); cbn [map fst]; rewrite IH; reflexivity.
Qed.

Lemma keys_map_snd {V W : Type} (f : V -> W) (d : dict V) :
  keys (map (fun item : Z * V => (fst item, f (snd item))) d) = keys d.
Proof.
  unfold keys. rewrite map_map. apply map_ext. reflexivity.
Qed.

(** The call without the dropping of empty nodes, in closed form. *)
Lemma preprocess_graph_keep (g : Graph) (p d r : string) :
  preprocess_graph g p d r false
  = mkGraph
      (map (fun item : Z * attrs =>
              (fst item, preprocess_node p d r (snd item)))
           (nodes (without_islands g)))
      (edges g).
Proof.
  unfold preprocess_graph. cbv zeta. rewrite remove_islands. reflexivity.
Qed.

Lemma preprocess_graph_nodes (g : Graph) (p d r : string) (drop : bool)
    (n : Z) (a : attrs) :
  In (n, a) (nodes (preprocess_graph g p d r drop)) ->
  exists a0, In (n, a0) (nodes g) /\ a = preprocess_node p d r a0 /\
             degree g n <> O /\
             (drop = true -> zero_pop p a = false).
Proof.
  unfold preprocess_graph. cbv zeta. rewrite remove_islands.
  set (g2 := mkGraph _ _).
  assert (H2 : In (n, a) (nodes g2) ->
               exists a0, In (n, a0) (nodes g) /\
                          a = preprocess_node p d r a0 /\
                          degree g n <> O).
  { unfold g2. cbn [nodes without_islands]. intro H.
    apply in_map_iff in H. destruct H as ([n0 a0] & Heq & Hin).
    cbn [fst snd] in Heq. injection Heq as -> <-.
    apply filter_In in Hin. destruct Hin as [Hin Hd]. cbn [fst] in Hd.
    exists a0. repeat split; try assumption.
    apply negb_true_iff, Nat.eqb_neq in Hd. exact Hd. }
  destruct drop.
  - set (zeros := map fst _).
    assert (Hz : In (n, a) (nodes (remove_nodes_from g2 zeros)) ->
                 In (n, a) (nodes g2) /\ zero_pop p a = false).
    { unfold remove_nodes_from. cbn [nodes]. intro H.
      apply filter_In in H. destruct H as [Hin Hm]. split; [exact Hin|].
      cbn [fst] in Hm. apply negb_true_iff in Hm.
      destruct (zero_pop p a) eqn:Z; [|reflexivity].
      assert (M : Generator.mem n zeros = true).
      { apply mem_iff. unfold zeros. apply in_map_iff.
        exists (n, a). split; [reflexivity|].
        apply filter_In. split; [exact Hin | exact Z]. }
      congruence. }
    destruct zeros as [|z zs] eqn:EZ.
    + intro H. destruct (H2 H) as (a0 & ? & ? & ?).
      exists a0. repeat split; try assumption. intros _.
      destruct (zero_pop p a) eqn:Z; [|reflexivity].
      assert (M : In n zeros).
      { unfold zeros. apply in_map_iff. exists (n, a).
        split; [reflexivity|]. apply filter_In. split; assumption. }
      rewrite EZ in M. destruct M.
    + intro H. apply Hz in H. destruct H as [H Z].
      destruct (H2 H) as (a0 & ? & ? & ?).
      exists a0. repeat split; try assumption. intros _. exact Z.
  - intro H. destruct (H2 H) as (a0 & ? & ? & ?).
    exists a0. repeat split; try assumption. discriminate.
Qed.
End Islands.

(** X18.  After [preprocess_graph], with or without the dropping of
    empty nodes, every node left in the graph holds a whole number in the
    population column and in both vote columns, which is what the seat
    and efficiency-gap results above ask of the graph; and with
    [drop_zero_pop] no node left has population zero. *)
Theorem preprocess_graph_whole_numbers
    (g : Gerry.Graph) (F : Generator.fields) (drop_zero_pop : bool) :
  let g' := Preprocess.preprocess_graph g (Generator.pop_key F)
              (Generator.dem_key F) (Generator.rep_key F) drop_zero_pop in
  Generator.preprocessed F g' /\
  forall n a, In (n, a) (Gerry.nodes g') ->
    exists z,
      Gerry.attr_get a (Generator.pop_key F)
      = Some (Gerry.Num (inject_Z z)) /\
      (drop_zero_pop = true -> z <> 0%Z).
Proof.
  cbv zeta. split.
  - intros n a Hin. apply preprocess_graph_nodes in Hin.
    destruct Hin as (a0 & _ & -> & _).
    destruct (preprocess_node_whole (Generator.pop_key F)
                (Generator.dem_key F) (Generator.rep_key F) a0)
      as (_ & Hd & Hr).
    split; assumption.
  - intros n a Hin. apply preprocess_graph_nodes in Hin.
    destruct Hin as (a0 & _ & -> & _ & Hz).
    destruct (preprocess_node_whole (Generator.pop_key F)
                (Generator.dem_key F) (Generator.rep_key F) a0)
      as ([z Hp] & _ & _).
    exists z. split; [exact Hp|]. intros Hdrop Hzero.
    specialize (Hz Hdrop). unfold Preprocess.zero_pop in Hz.
    rewrite Hp, Hzero in Hz. discriminate.
Qed.

(** X19.  Without [drop_zero_pop], [preprocess_graph] leaves exactly the
    nodes that have an edge, in their order, and every edge: no node of
    the prepared graph is an island. *)
Theorem preprocess_graph_removes_islands
    (g : Gerry.Graph) (pop_key dem_key rep_key : string) :
  let g' := Preprocess.preprocess_graph g pop_key dem_key rep_key false in
  PyDict.keys (Gerry.nodes g')
  = filter (fun n => negb (Nat.eqb (Preprocess.degree g n) 0))
           (PyDict.keys (Gerry.nodes g)) /\
  Gerry.edges g' = Gerry.edges g /\
  forall n, In n (PyDict.keys (Gerry.nodes g')) ->
            Preprocess.degree g' n <> O.
Proof.
  cbv zeta. rewrite preprocess_graph_keep. cbn [Gerry.nodes Gerry.edges].
  assert (K : PyDict.keys
                (map (fun item : Z * Gerry.attrs =>
                        (fst item,
                         Preprocess.preprocess_node pop_key dem_key rep_key
                           (snd item)))
                     (Gerry.nodes (without_islands g)))
              = filter (fun n => negb (Nat.eqb (Preprocess.degree g n) 0))
                       (PyDict.keys (Gerry.nodes g))).
  { rewrite keys_map_snd. unfold without_islands. cbn [Gerry.nodes].
    apply (keys_filter
             (fun n => negb (Nat.eqb (Preprocess.degree g n) 0))). }
  split; [exact K|]. split; [reflexivity|].
  intros n Hn. rewrite K in Hn. apply filter_In in Hn.
  destruct Hn as [_ Hn]. apply negb_true_iff, Nat.eqb_neq in Hn.
  exact Hn.
Qed.

(** X20.  Without [drop_zero_pop], preparing a prepared graph changes
    nothing. *)
Theorem preprocess_graph_idempotent
    (g : Gerry.Graph) (pop_key dem_key rep_key : string) :
  let g' := Preprocess.preprocess_graph g pop_key dem_key rep_key false in
  Preprocess.preprocess_graph g' pop_key dem_key rep_key false = g'.
Proof.
  cbv zeta. rewrite !preprocess_graph_keep.
  set (P := fun item : Z * Gerry.attrs =>
              (fst item,
               Preprocess.preprocess_node pop_key dem_key rep_key
                 (snd item))).
  set (g' := Gerry.mkGraph (map P (Gerry.nodes (without_islands g)))
                           (Gerry.edges g)).
  assert (W : Gerry.nodes (without_islands g') = Gerry.nodes g').
  { unfold without_islands at 1. cbn [Gerry.nodes].
    apply filter_all. intros [n a] Hin. cbn [fst].
    unfold g' in Hin. cbn [Gerry.nodes] in Hin.
    apply in_map_iff in Hin. destruct Hin as ([n0 a0] & Heq & Hin).
    unfold P in Heq. cbn [fst snd] in Heq. injection Heq as -> _.
    unfold without_islands in Hin. cbn [Gerry.nodes] in Hin.
    apply filter_In in Hin. destruct Hin as [_ Hd]. exact Hd. }
  rewrite W. unfold g'. cbn [Gerry.nodes Gerry.edges]. f_equal.
  rewrite map_map. apply map_ext. intros [n a]. unfold P. cbn [fst snd]. f_equal.
  destruct (preprocess_node_whole pop_key dem_key rep_key a)
    as (Hp & Hd & Hr).
  apply preprocess_node_fixed; assumption.
Qed.

(** X21.  [preprocess_graph] adds no edge and leaves none dangling: an
    edge of the prepared graph is an edge of the graph given, and each
    end of it that was a node of that graph is a node of the prepared
    one. *)
Theorem preprocess_graph_keeps_ends
    (g : Gerry.Graph) (pop_key dem_key rep_key : string)
    (drop_zero_pop : bool) (e : Z * Z) :
  let g' := Preprocess.preprocess_graph g pop_key dem_key rep_key
              drop_zero_pop in
  In e (Gerry.edges g') ->
  In e (Gerry.edges g) /\
  (In (fst e) (PyDict.keys (Gerry.nodes g)) ->
   In (fst e) (PyDict.keys (Gerry.nodes g'))) /\
  (In (snd e) (PyDict.keys (Gerry.nodes g)) ->
   In (snd e) (PyDict.keys (Gerry.nodes g'))).
Proof.
  cbv zeta. unfold Preprocess.preprocess_graph. cbv zeta.
  rewrite remove_islands.
  set (P := fun item : Z * Gerry.attrs =>
              (fst item,
               Preprocess.preprocess_node pop_key dem_key rep_key
                 (snd item))).
  set (g2 := Gerry.mkGraph (map P (Gerry.nodes (without_islands g)))
                           (Gerry.edges (without_islands g))).
  assert (K2 : forall u, In u (PyDict.keys (Gerry.nodes g)) ->
                         Preprocess.degree g u <> O ->
                         In u (PyDict.keys (Gerry.nodes g2))).
  { intros u Hu Hd. unfold g2. cbn [Gerry.nodes].
    unfold P. rewrite keys_map_snd. unfold without_islands.
    cbn [Gerry.nodes].
    rewrite (keys_filter
               (fun n => negb (Nat.eqb (Preprocess.degree g n) 0))).
    apply filter_In. split; [exact Hu|].
    apply negb_true_iff, Nat.eqb_neq. exact Hd. }
  assert (E2 : forall e', In e' (Gerry.edges g2) ->
                 In e' (Gerry.edges g) /\
                 (In (fst e') (PyDict.keys (Gerry.nodes g)) ->
                  In (fst e') (PyDict.keys (Gerry.nodes g2))) /\
                 (In (snd e') (PyDict.keys (Gerry.nodes g)) ->
                  In (snd e') (PyDict.keys (Gerry.nodes g2)))).
  { intros e' He'. unfold g2 in He'. cbn [Gerry.edges without_islands] in He'.
    destruct (degree_edge g e' He') as [D1 D2].
    split; [exact He'|]. split; intro Hu; apply K2; assumption. }
  destruct drop_zero_pop; [|apply E2].
  set (zeros := map fst _).
  assert (R : In e (Gerry.edges (Preprocess.remove_nodes_from g2 zeros)) ->
              In e (Gerry.edges g) /\
              (In (fst e) (PyDict.keys (Gerry.nodes g)) ->
               In (fst e)
                  (PyDict.keys
                     (Gerry.nodes (Preprocess.remove_nodes_from g2 zeros))))
              /\
              (In (snd e) (PyDict.keys (Gerry.nodes g)) ->
               In (snd e)
                  (PyDict.keys
                     (Gerry.nodes (Preprocess.remove_nodes_from g2 zeros))))).
  { unfold Preprocess.remove_nodes_from. cbn [Gerry.nodes Gerry.edges].
    intro He. apply filter_In in He. destruct He as [He Hm].
    apply andb_true_iff in Hm. destruct Hm as [M1 M2].
    destruct (E2 e He) as (H0 & H1 & H2).
    rewrite (keys_filter (fun n => negb (Generator.mem n zeros))).
    split; [exact H0|].
    split; intro Hu; apply filter_In; (split; [|assumption]);
      [apply H1 | apply H2]; exact Hu. }
  destruct zeros as [|z zs] eqn:EZ; [apply E2 | exact R].
Qed.

Lemma preprocess_graph_keeps_ends_witness :
  let g' := Preprocess.preprocess_graph Examples.path_graph
              "TOT_POP" "PREDEM24" "PREREP24" true in
  In (2, 3)%Z (Gerry.edges Examples.path_graph) /\
  (In 2%Z (PyDict.keys (Gerry.nodes Examples.path_graph)) ->
   In 2%Z (PyDict.keys (Gerry.nodes g'))) /\
  (In 3%Z (PyDict.keys (Gerry.nodes Examples.path_graph)) ->
   In 3%Z (PyDict.keys (Gerry.nodes g'))).
Proof.
  apply (preprocess_graph_keeps_ends Examples.path_graph
           "TOT_POP" "PREDEM24" "PREREP24" true (2, 3)%Z).
  vm_compute. right. left. reflexivity.
Defined.

(** ** Detecting the columns *)

Section Detection.
Import PyDict Gerry Generator Preprocess.

Lemma find_ext_all {A : Type} (f f' : A -> bool) (l : list A) :
  (forall x, f x = f' x) -> find f l = find f' l.
Proof.
  intro H. induction l as [|x l IH]; cbn [find].
  - reflexivity.
  - rewrite H, IH. reflexivity.
Qed.

(** Detection looks at the keys of the first node only. *)
Lemma detect_fields_ext (g g' : Graph) (n n' : Z) (a a' : attrs)
    (rest rest' : dict attrs) :
  nodes g = (n, a) :: rest ->
  nodes g' = (n', a') :: rest' ->
  (forall k, has_key a' k = has_key a k) ->
  detect_fields g' = detect_fields g.
Proof.
  intros Hg Hg' Hk. unfold detect_fields. rewrite Hg, Hg'.
  rewrite (find_ext_all (has_key a') (has_key a) _ Hk).
  rewrite (find_ext_all
             (fun dr => has_key a' (fst dr) && has_key a' (snd dr))
             (fun dr => has_key a (fst dr) && has_key a (snd dr))).
  2:{ intro dr. rewrite !Hk. reflexivity. }
  rewrite (filter_ext (has_key a') (has_key a) Hk).
  reflexivity.
Qed.

(** What a successful detection found. *)
Lemma detect_fields_first (g : Graph) (F : fields) :
  detect_fields g = Py.Ok F ->
  exists n a rest,
    nodes g = (n, a) :: rest /\
    (In (pop_key F) pop_candidates /\ has_key a (pop_key F) = true) /\
    (In (dem_key F, rep_key F) dem_rep_candidates /\
     has_key a (dem_key F) = true /\ has_key a (rep_key F) = true) /\
    plans F = filter (has_key a) plan_candidates /\
    plans F <> [].
Proof.
  unfold detect_fields. destruct (nodes g) as [|[n a] rest]; [discriminate|].
  destruct (find (has_key a) pop_candidates) as [p|] eqn:Ep;
    [|discriminate].
  destruct (find (fun dr => has_key a (fst dr) && has_key a (snd dr))
                 dem_rep_candidates) as [[d r]|] eqn:Ed; [|discriminate].
  destruct (filter (has_key a) plan_candidates) as [|k ks] eqn:Ek;
    [discriminate|].
  intro H. injection H as <-. cbn [pop_key dem_key rep_key plans].
  apply find_some in Ep. apply find_some in Ed. cbn [fst snd] in Ed.
  destruct Ep as [Ep1 Ep2]. destruct Ed as [Ed1 Ed2].
  apply andb_true_iff in Ed2. destruct Ed2 as [Ed2 Ed3].
  exists n, a, rest.
  split; [reflexivity|]. split; [split; assumption|].
  split; [split; [|split]; assumption|].
  split; [symmetry; exact Ek | discriminate].
Qed.
End Detection.

(** X22.  When [detect_fields] returns, the graph has a first node, and
    on that node the population column returned is one of the three
    candidates and present, the two vote columns are one of the five
    candidate pairs and both present, and the assignment keys returned
    are the candidates present, in the candidates' order and at least
    one. *)
Theorem detect_fields_sound (g : Gerry.Graph) (F : Generator.fields) :
  Generator.detect_fields g = Py.Ok F ->
  exists n a rest,
    Gerry.nodes g = (n, a) :: rest /\
    (In (Generator.pop_key F) Generator.pop_candidates /\
     Generator.has_key a (Generator.pop_key F) = true) /\
    (In (Generator.dem_key F, Generator.rep_key F)
        Generator.dem_rep_candidates /\
     Generator.has_key a (Generator.dem_key F) = true /\
     Generator.has_key a (Generator.rep_key F) = true) /\
    Generator.plans F <> [] /\
    (forall k, In k (Generator.plans F) <->
               In k Generator.plan_candidates /\
               Generator.has_key a k = true).
Proof.
  intro H. destruct (detect_fields_first g F H)
    as (n & a & rest & Hn & Hp & Hd & Hpl & Hne).
  exists n, a, rest. repeat split; try tauto.
  - rewrite Hpl in H0. apply filter_In in H0. tauto.
  - rewrite Hpl in H0. apply filter_In in H0. tauto.
  - intros [H1 H2]. rewrite Hpl. apply filter_In. tauto.
Qed.

Lemma detect_fields_sound_witness :
  exists n a rest,
    Gerry.nodes Examples.path_graph = (n, a) :: rest /\
    (In (Generator.pop_key Examples.detected) Generator.pop_candidates /\
     Generator.has_key a (Generator.pop_key Examples.detected) = true) /\
    (In (Generator.dem_key Examples.detected,
         Generator.rep_key Examples.detected)
        Generator.dem_rep_candidates /\
     Generator.has_key a (Generator.dem_key Examples.detected) = true /\
     Generator.has_key a (Generator.rep_key Examples.detected) = true) /\
    Generator.plans Examples.detected <> [] /\
    (forall k, In k (Generator.plans Examples.detected) <->
               In k Generator.plan_candidates /\
               Generator.has_key a k = true).
Proof.
  apply (detect_fields_sound Examples.path_graph Examples.detected).
  vm_compute. reflexivity.
Defined.

(** X23.  The start of [main] on a graph whose first node has an edge,
    without [drop_zero_pop]: the columns [setup_from_graph] detects on
    the prepared graph are the ones the graph was prepared with, so the
    globals name columns that hold whole numbers on every node. *)
Theorem prepare_keeps_fields
    (g : Gerry.Graph) (F : Generator.fields)
    (n0 : Z) (a0 : Gerry.attrs) (rest : PyDict.dict Gerry.attrs) :
  Gerry.nodes g = (n0, a0) :: rest ->
  Preprocess.degree g n0 <> O ->
  Generator.detect_fields g = Py.Ok F ->
  let g' := Preprocess.preprocess_graph g (Generator.pop_key F)
              (Generator.dem_key F) (Generator.rep_key F) false in
  Preprocess.prepare g false = Py.Ok (g', F) /\
  Generator.preprocessed F g'.
Proof.
  intros Hn Hd HF. cbv zeta. split.
  - unfold Preprocess.prepare. rewrite HF. cbn [Py.bind].
    assert (E : Generator.detect_fields
                  (Preprocess.preprocess_graph g (Generator.pop_key F)
                     (Generator.dem_key F) (Generator.rep_key F) false)
                = Generator.detect_fields g).
    { destruct (detect_fields_first g F HF)
        as (n & a & rest' & Hn' & [_ Hp] & (_ & Hdm & Hr) & _).
      rewrite Hn in Hn'. injection Hn' as <- <- <-.
      rewrite preprocess_graph_keep.
      eapply detect_fields_ext.
      - exact Hn.
      - cbn [Gerry.nodes]. unfold without_islands. rewrite Hn.
        cbn [Gerry.nodes filter fst].
        apply Nat.eqb_neq in Hd. rewrite Hd. cbn [negb map fst snd].
        reflexivity.
      - intro k. rewrite preprocess_node_has_key.
        destruct (String.eqb k (Generator.pop_key F)) eqn:E1.
        { apply String.eqb_eq in E1. subst k. rewrite Hp. reflexivity. }
        destruct (String.eqb k (Generator.dem_key F)) eqn:E2.
        { apply String.eqb_eq in E2. subst k. rewrite Hdm. reflexivity. }
        destruct (String.eqb k (Generator.rep_key F)) eqn:E3.
        { apply String.eqb_eq in E3. subst k. rewrite Hr. reflexivity. }
        rewrite !orb_false_r. reflexivity. }
    rewrite E, HF. reflexivity.
  - intros n a Hin. apply preprocess_graph_nodes in Hin.
    destruct Hin as (a1 & _ & -> & _).
    destruct (preprocess_node_whole (Generator.pop_key F)
                (Generator.dem_key F) (Generator.rep_key F) a1)
      as (_ & H1 & H2).
    split; assumption.
Qed.

Lemma prepare_keeps_fields_witness :
  let g' := Preprocess.preprocess_graph Examples.path_graph
              (Generator.pop_key Examples.detected)
              (Generator.dem_key Examples.detected)
              (Generator.rep_key Examples.detected) false in
  Preprocess.prepare Examples.path_graph false
  = Py.Ok (g', Examples.detected) /\
  Generator.preprocessed Examples.detected g'.
Proof.
  apply (prepare_keeps_fields Examples.path_graph Examples.detected
           1%Z (snd (Examples.node 1 10 5))
           [Examples.node 2 5 10; Examples.node 3 10 5;
            Examples.node 4 5 10]).
  - reflexivity.
  - vm_compute. discriminate.
  - vm_compute. reflexivity.
Defined.

(** X24.  With the assignment keys [detect_fields] returned, the choice
    of the starting plan never fails: the key chosen is one of the keys
    returned, hence an assignment column of the graph's first node; and
    it is a key of the preference order whenever one of those was
    returned. *)
Theorem start_key_detected (g : Gerry.Graph) (F : Generator.fields) :
  Generator.detect_fields g = Py.Ok F ->
  exists k,
    Preprocess.start_key (Generator.plans F) = Some k /\
    In k (Generator.plans F) /\
    forall cand, In cand Preprocess.pref_order ->
                 In cand (Generator.plans F) ->
                 In k Preprocess.pref_order.
Proof.
  intro H. destruct (detect_fields_first g F H)
    as (n & a & rest & _ & _ & _ & _ & Hne).
  unfold Preprocess.start_key.
  destruct (Generator.plans F) as [|first have] eqn:E; [congruence|].
  destruct (find (fun cand => existsb (String.eqb cand) (first :: have))
                 Preprocess.pref_order) as [c|] eqn:Ef.
  - apply find_some in Ef. destruct Ef as [Ef1 Ef2].
    apply existsb_exists in Ef2. destruct Ef2 as (x & Hx & Hxc).
    apply String.eqb_eq in Hxc. subst x.
    exists c. split; [reflexivity|]. split; [exact Hx|].
    intros cand _ _. exact Ef1.
  - exists first. split; [reflexivity|]. split; [left; reflexivity|].
    intros cand Hc Hin. exfalso.
    pose proof (find_none _ _ Ef cand Hc) as Hn. cbv beta in Hn.
    assert (Ht : existsb (String.eqb cand) (first :: have) = true).
    { apply existsb_exists. exists cand. split; [exact Hin|].
      apply String.eqb_refl. }
    congruence.
Qed.

Lemma start_key_detected_witness :
  exists k,
    Preprocess.start_key (Generator.plans Examples.detected) = Some k /\
    In k (Generator.plans Examples.detected) /\
    forall cand, In cand Preprocess.pref_order ->
                 In cand (Generator.plans Examples.detected) ->
                 In k Preprocess.pref_order.
Proof.
  apply (start_key_detected Examples.path_graph Examples.detected).
  vm_compute. reflexivity.
Defined.

(** ** Loading a store without records *)

Section BlankStore.
Import Analyzer.

Lemma lstrip_blank (s : string) : blank s = true -> lstrip s = EmptyString.
Proof.
  induction s as [|c s IH]; cbn [blank lstrip]; [reflexivity|].
  intro H. apply andb_true_iff in H. destruct H as [Hc Hs].
  rewrite Hc. apply IH. exact Hs.
Qed.

Lemma strip_blank (s : string) : blank s = true -> strip s = EmptyString.
Proof.
  intro H. unfold strip. rewrite lstrip_blank by exact H. reflexivity.
Qed.

Lemma lines_from_blank (s : string) :
  forall cur : string -> string,
    (forall x, blank x = true -> blank (cur x) = true) ->
    blank s = true ->
    Forall (fun l => blank l = true) (lines_from cur s).
Proof.
  induction s as [|c s IH]; intros cur Hcur Hs; cbn [lines_from].
  - constructor; [|constructor]. apply Hcur. reflexivity.
  - cbn [blank] in Hs. apply andb_true_iff in Hs. destruct Hs as [Hc Hs].
    destruct (Nat.eqb (nat_of_ascii c) 10).
    + constructor.
      * apply Hcur. reflexivity.
      * apply IH; [intros x Hx; exact Hx | exact Hs].
    + apply IH; [|exact Hs]. intros x Hx. apply Hcur.
      cbn [blank]. rewrite Hc, Hx. reflexivity.
Qed.

Lemma load_lines_blank (ls : list string) (plans : list Json.value) :
  Forall (fun l => blank l = true) ls -> load_lines ls plans = Py.Ok plans.
Proof.
  induction 1 as [|l ls Hl _ IH]; cbn [load_lines].
  - reflexivity.
  - rewrite strip_blank by exact Hl. exact IH.
Qed.
End BlankStore.

(** X25.  A store that holds white space only, such as the file the
    generator has just truncated or one made of empty lines, loads as
    the empty list of plans, without error. *)
Theorem load_blank_store (text : string) :
  blank text = true ->
  Analyzer.load_ensemble_ndjson (Some text) = Py.Ok [].
Proof.
  intro H. unfold Analyzer.load_ensemble_ndjson, Analyzer.lines.
  apply load_lines_blank. apply lines_from_blank; [|exact H].
  intros x Hx. exact Hx.
Qed.

Lemma load_blank_store_witness :
  Analyzer.load_ensemble_ndjson
    (Some (String (ascii_of_nat 10)
             (String " " (String (ascii_of_nat 10) EmptyString))))
  = Py.Ok [].
Proof.
  apply (load_blank_store
           (String (ascii_of_nat 10)
              (String " " (String (ascii_of_nat 10) EmptyString)))).
  vm_compute. reflexivity.
Defined.
